(** * Data Analysis Assistant (app.py): model and properties

    A shallow embedding of the Streamlit application [app.py]: the event
    stream consumer [data_streamer], the tool dispatcher
    [handle_requires_action], the placeholder tool [analyze_data], the
    helpers around the remote client and the orchestrator [main].

    The program is effectful Python.  It is modelled in a monad [M] that
    threads the session state ([streamlit.session_state]), accumulates the
    ordered list of observable effects (remote calls with their outcome,
    queue operations, yielded fragments, UI calls, log records, sleeps) and
    propagates exceptions.  Everything outside the program (the remote
    service, the environment variables, the image decoder, Streamlit's
    verdict on a download button, the recursion depth left to the
    interpreter) is an explicit [env] value, so every statement is
    quantified over all behaviours of the remote service. *)

From Stdlib Require Import String Ascii List Bool Arith NArith ZArith DecimalString Lia.
Import ListNotations.
Local Open Scope string_scope.
Local Open Scope list_scope.
Set Warnings "-register-all".

(** ** Values exchanged with the remote service *)

(** One element of [response.data.delta.content]; the constructor is the
    block's [type] tag. *)
Inductive content_block :=
| TextDeltaBlock (value : string)         (* type == "text", text.value *)
| ImageFileDeltaBlock (file_id : string)  (* type == "image_file", image_file.file_id *)
| OtherDeltaBlock (type : string).        (* any other block type *)

(** One entry of [required_action.submit_tool_outputs.tool_calls]. *)
Record tool_call := {
  tool_call_id : string;          (* tool.id *)
  function_name : string;         (* tool.function.name *)
  function_arguments : string     (* tool.function.arguments *)
}.

(** The run object carried by [thread.run.*] events. *)
Record run := {
  run_id : string;                            (* data.id *)
  run_thread_id : string;                     (* data.thread_id *)
  required_action : option (list tool_call)   (* None: no required action *)
}.

Inductive event_data :=
| MessageDeltaData (content : list content_block)  (* data.delta.content *)
| RunData (r : run)
| OtherData.

(** A server-sent event: its name [event] and its payload [data]. *)
Record response := {
  event : string;
  data : event_data
}.

(** What iterating a stream produces next: an event, or an exception raised
    by the iteration itself. *)
Inductive stream_item :=
| Event (r : response)
| StreamError (msg : string).

Definition event_stream := list stream_item.

(** A fragment yielded by [data_streamer]: a piece of text or a decoded
    image. *)
Inductive item :=
| TextItem (s : string)
| ImageItem (img : string).

(** An entry of the transcript [ss.messages]. *)
Record message := {
  role : string;
  msg_content : item
}.

(** An entry of [{"tool_call_id": ..., "output": ...}]. *)
Record tool_output := {
  out_tool_call_id : string;
  output : string
}.

(** A message of the remote thread, as listed by [messages.list].  The
    field [attachments] is optional: [None] when the message has none. *)
Record thread_message := {
  tm_role : string;
  attachments : option (list string)   (* attachment.file_id of each attachment *)
}.

(** A file handed over by the upload widget. *)
Record uploaded_file := {
  upload_name : string;
  upload_bytes : string
}.

(** The assistant object of the remote service. *)
Record assistant_obj := {
  asst_id : string;
  asst_name : string
}.

(** Outcome of a call to something outside the program. *)
Inductive reply (A : Type) :=
| Returns (a : A)
| Throws (msg : string).
Arguments Returns {A} a.
Arguments Throws {A} msg.

(** ** Observable effects *)

Inductive log_level := INFO | ERROR.

(** An object interpolated into a log message; the record keeps the object
    itself rather than its printed form. *)
Inductive logged :=
| LStream (s : event_stream)
| LContent (c : content_block)
| LResponse (r : response)
| LTool (t : tool_call).

Inductive widget :=
| StTitle (s : string)
| StMarkdown (s : string)
| StSubheader (s : string)
| StInfo (s : string)
| StError (s : string)
| StSuccess (s : string)
| StToast (s : string)
| StSpinner (s : string)
| StChatMessage (role : string)
| StImage (img : string)
| StDownloadButton (label : string) (file_data : string) (file_name : string).

Inductive effect :=
(* remote calls, each with the outcome it had *)
| AssistantsRetrieve (assistant_id : string) (out : reply assistant_obj)
| AssistantsCreate (model : string) (out : reply assistant_obj)
| FilesCreate (file : uploaded_file) (out : reply string)
| FilesContent (file_id : string) (out : reply string)
| FilesRetrieve (file_id : string) (out : reply string)
| FilesDelete (file_id : string) (out : reply unit)
| ThreadsCreate (out : reply string)
| ThreadsUpdate (thread : option string) (files : list string) (out : reply unit)
| ThreadsDelete (thread : string) (out : reply unit)
| MessagesCreate (thread : option string) (content : string) (out : reply unit)
| MessagesList (thread : option string) (out : reply (list thread_message))
| RunsStream (thread : option string) (assistant_id : string) (out : reply event_stream)
| SubmitToolOutputsStream (thread run_ : string) (outputs : list tool_output)
                          (out : reply event_stream)
| ModerationsCreate (input : string) (out : reply (list bool))
(* the tool-request queue *)
| QueuePut (r : response)
| QueueGet (r : response)
(* the generator protocol *)
| Yield (x : item)
(* the rest *)
| ImageOpen (bytes : string) (out : reply string)
| Sleep (seconds : nat)
| Log (level : log_level) (text : string) (obj : option logged)
| UI (w : widget).

(** ** Session state *)

(** [streamlit.session_state] with the keys the program uses. *)
Record session_state := {
  tool_requests : list response;   (* queue.Queue: put at the back, get at the front *)
  file_uploaded : bool;
  messages : list message;
  thread_id : option string;
  file_ids : list string;
  assistant_created_file_ids : list string;
  assistant : option assistant_obj; (* absent until the first run stores it *)
  stream : event_stream            (* ss.stream: the events not yet consumed *)
}.

(** The state built by the module-level initialisation (lines 81-98). *)
Definition initial_state : session_state :=
  {| tool_requests := []; file_uploaded := false; messages := [];
     thread_id := None; file_ids := []; assistant_created_file_ids := [];
     assistant := None; stream := [] |}.

Definition set_tool_requests q (s : session_state) :=
  {| tool_requests := q; file_uploaded := file_uploaded s; messages := messages s;
     thread_id := thread_id s; file_ids := file_ids s;
     assistant_created_file_ids := assistant_created_file_ids s;
     assistant := assistant s; stream := stream s |}.
Definition set_file_uploaded b (s : session_state) :=
  {| tool_requests := tool_requests s; file_uploaded := b; messages := messages s;
     thread_id := thread_id s; file_ids := file_ids s;
     assistant_created_file_ids := assistant_created_file_ids s;
     assistant := assistant s; stream := stream s |}.
Definition set_messages m (s : session_state) :=
  {| tool_requests := tool_requests s; file_uploaded := file_uploaded s; messages := m;
     thread_id := thread_id s; file_ids := file_ids s;
     assistant_created_file_ids := assistant_created_file_ids s;
     assistant := assistant s; stream := stream s |}.
Definition set_thread_id t (s : session_state) :=
  {| tool_requests := tool_requests s; file_uploaded := file_uploaded s;
     messages := messages s; thread_id := t; file_ids := file_ids s;
     assistant_created_file_ids := assistant_created_file_ids s;
     assistant := assistant s; stream := stream s |}.
Definition set_file_ids l (s : session_state) :=
  {| tool_requests := tool_requests s; file_uploaded := file_uploaded s;
     messages := messages s; thread_id := thread_id s; file_ids := l;
     assistant_created_file_ids := assistant_created_file_ids s;
     assistant := assistant s; stream := stream s |}.
Definition set_assistant_created_file_ids l (s : session_state) :=
  {| tool_requests := tool_requests s; file_uploaded := file_uploaded s;
     messages := messages s; thread_id := thread_id s; file_ids := file_ids s;
     assistant_created_file_ids := l;
     assistant := assistant s; stream := stream s |}.
Definition set_assistant a (s : session_state) :=
  {| tool_requests := tool_requests s; file_uploaded := file_uploaded s;
     messages := messages s; thread_id := thread_id s; file_ids := file_ids s;
     assistant_created_file_ids := assistant_created_file_ids s;
     assistant := a; stream := stream s |}.
Definition set_stream st (s : session_state) :=
  {| tool_requests := tool_requests s; file_uploaded := file_uploaded s;
     messages := messages s; thread_id := thread_id s; file_ids := file_ids s;
     assistant_created_file_ids := assistant_created_file_ids s;
     assistant := assistant s; stream := st |}.

(** ** The monad of the program *)

Inductive exn :=
| Error (msg : string)   (* any [Exception] *)
| RerunException         (* raised by [st.rerun()]; not an [Exception] *)
| StopException          (* raised by [st.stop()]; not an [Exception] *)
| Blocked.               (* a remote call that never answers: nothing after it runs *)

Inductive result (A : Type) :=
| Ok (a : A)
| Raise (e : exn).
Arguments Ok {A} a.
Arguments Raise {A} e.

(** A computation reads and writes the session state, appends to the list
    of effects and returns or raises.  The state reached and the effects
    performed before an exception are kept. *)
Definition M (A : Type) : Type :=
  session_state -> result A * session_state * list effect.

Definition ret {A} (a : A) : M A := fun s => (Ok a, s, []).

Definition bind {A B} (m : M A) (k : A -> M B) : M B :=
  fun s =>
    match m s with
    | (Ok a, s1, t1) =>
        match k a s1 with
        | (r, s2, t2) => (r, s2, t1 ++ t2)
        end
    | (Raise e, s1, t1) => (Raise e, s1, t1)
    end.

Declare Scope prog_scope.
Delimit Scope prog_scope with prog.
Notation "x <- m ;; k" := (bind m (fun x => k))
  (at level 61, m at next level, right associativity) : prog_scope.
Notation "m ;; k" := (bind m (fun _ => k))
  (at level 61, right associativity) : prog_scope.
Local Open Scope prog_scope.

Definition raise {A} (e : exn) : M A := fun s => (Raise e, s, []).
Definition gets {A} (f : session_state -> A) : M A := fun s => (Ok (f s), s, []).
Definition modify (f : session_state -> session_state) : M unit :=
  fun s => (Ok tt, f s, []).
Definition emit (e : effect) : M unit := fun s => (Ok tt, s, [e]).

(** [try: m  except Exception as e: h e]; the script-control exceptions and
    [Blocked] pass through. *)
Definition try_except {A} (m : M A) (h : string -> M A) : M A :=
  fun s =>
    match m s with
    | (Raise (Error msg), s1, t1) =>
        match h msg s1 with
        | (r, s2, t2) => (r, s2, t1 ++ t2)
        end
    | other => other
    end.

(** Runs [m] and also hands back the effects it performed. *)
Definition listen {A} (m : M A) : M (A * list effect) :=
  fun s =>
    match m s with
    | (Ok a, s1, t1) => (Ok (a, t1), s1, t1)
    | (Raise e, s1, t1) => (Raise e, s1, t1)
    end.

(** A call to the outside: the effect records the outcome, which is then
    returned or raised. *)
Definition call {A} (r : reply A) (record : reply A -> effect) : M A :=
  emit (record r) ;;
  match r with
  | Returns a => ret a
  | Throws msg => raise (Error msg)
  end.

(** [for x in l: body x] *)
Fixpoint for_each {A} (l : list A) (body : A -> M unit) : M unit :=
  match l with
  | [] => ret tt
  | x :: l' => body x ;; for_each l' body
  end.

(** [tool_requests.put(r)] *)
Definition queue_put (r : response) : M unit :=
  emit (QueuePut r) ;;
  modify (fun s => set_tool_requests (tool_requests s ++ [r]) s).

(** [tool_requests.empty()] *)
Definition queue_empty : M bool :=
  gets (fun s => match tool_requests s with [] => true | _ :: _ => false end).

(** [tool_requests.get()]; on an empty queue the call waits for ever. *)
Definition queue_get : M response :=
  pending <- gets tool_requests ;;
  match pending with
  | [] => raise Blocked
  | r :: pending' =>
      modify (set_tool_requests pending') ;;
      emit (QueueGet r) ;;
      ret r
  end.

Definition logger_info (text : string) : M unit := emit (Log INFO text None).
Definition logger_error (text : string) : M unit := emit (Log ERROR text None).
Definition st_toast (text : string) : M unit := emit (UI (StToast text)).
Definition st_error (text : string) : M unit := emit (UI (StError text)).

(** ** The world outside the program *)

Record env := {
  (* os.environ *)
  AZURE_ASSISTANT_ID : option string;
  AZURE_DEPLOYMENT_NAME : option string;
  (* client.* ; each field is the outcome of the call on the given arguments *)
  assistants_retrieve : string -> reply assistant_obj;
  assistants_create : string -> reply assistant_obj;
  files_create : uploaded_file -> reply string;
  files_content : string -> reply string;
  files_retrieve_filename : string -> reply string;
  files_delete : string -> reply unit;
  threads_create : reply string;
  threads_update : option string -> list string -> reply unit;
  threads_delete : string -> reply unit;
  messages_create : option string -> string -> reply unit;
  messages_list : option string -> reply (list thread_message);
  runs_stream : option string -> string -> reply event_stream;
  (* the successive answers to submit_tool_outputs_stream, in call order;
     once they are used up the remote no longer answers *)
  submit_tool_outputs_stream : list (reply event_stream);
  moderations_create : string -> reply (list bool);   (* results[i].flagged *)
  (* PIL.Image.open on the bytes of a file *)
  image_open : string -> reply string;
  (* st.download_button for the file at the given position of the list, with
     its label, data and file name: Streamlit raises, for one, when the
     button repeats an element of the page *)
  st_download_button : nat -> string -> string -> string -> reply unit;
  (* the nested arrays and objects that json.loads can still enter before it
     reaches the recursion limit of the interpreter *)
  recursion_room : nat
}.

(** ** Python numbers

    [int] is [Z].  [Float] gives the doubles: the conversion of a decimal
    literal, correctly rounded, and [repr], the shortest decimal that reads
    back as the same double. *)
Module Float.
Local Open Scope Z_scope.

(** A Python [float], an IEEE 754 double: [Finite neg m e] is
    [(-1)^neg * m * 2^e] with [0 <= m < 2^53] and [-1074 <= e <= 971]; zero
    is [Finite neg 0 0]. *)
Inductive float :=
| Finite (negative : bool) (m e : Z)
| Infinity (negative : bool)
| NaN.

(** The double nearest to [n / d], ties to even, for [0 <= n] and
    [0 < d]. *)
Definition of_ratio (negative : bool) (n d : Z) : float :=
  if n <=? 0 then Finite negative 0 0
  else
    let l := Z.log2 n - Z.log2 d in
    (* floor (log2 (n / d)) *)
    let l := if (if 0 <=? l then d * 2 ^ l <=? n else d <=? n * 2 ^ (- l)) then l else l - 1 in
    let e := Z.max (l - 52) (-1074) in
    let num := if e <? 0 then n * 2 ^ (- e) else n in
    let den := if e <? 0 then d else d * 2 ^ e in
    let q := num / den in
    let r := num mod den in
    let q := if (den <? 2 * r) || ((den =? 2 * r) && Z.odd q) then q + 1 else q in
    let e := if q =? 2 ^ 53 then e + 1 else e in
    let q := if q =? 2 ^ 53 then 2 ^ 52 else q in
    if 971 <? e then Infinity negative
    else if q =? 0 then Finite negative 0 0
    else Finite negative q e.

(** [c * 10^t] as a fraction. *)
Definition scaled (c t : Z) : Z * Z :=
  if 0 <=? t then (c * 10 ^ t, 1) else (c, 10 ^ (- t)).

(** [float(literal)] for a literal with the decimal digits [c] ([digits]
    of them, leading zeros not counted) and the decimal exponent [t]. *)
Definition of_decimal (negative : bool) (c digits t : Z) : float :=
  if c =? 0 then Finite negative 0 0
  else if 309 <=? digits - 1 + t then Infinity negative
  else if digits + t <=? -324 then Finite negative 0 0
  else let (n, d) := scaled c t in of_ratio negative n d.

(** [x >= 10^j] for [x = n / d]. *)
Definition reaches (n d j : Z) : bool :=
  if 0 <=? j then d * 10 ^ j <=? n else d <=? n * 10 ^ (- j).

(** The position of the decimal point of [n / d]: the [k] with
    [10^(k-1) <= n / d < 10^k]. *)
Definition decimal_point (n d : Z) : Z :=
  let k := ((Z.log2 n - Z.log2 d) * 30103) / 100000 in
  let k := if reaches n d (k + 2) then k + 3
           else if reaches n d (k + 1) then k + 2
           else if reaches n d k then k + 1
           else if reaches n d (k - 1) then k
           else if reaches n d (k - 2) then k - 1
           else k - 2 in
  k.

(** The decimal with [p] digits that reads back as [m * 2^e] and is nearest
    to it, if there is one: its digits and its exponent. *)
Definition candidate (m e : Z) (p : Z) : option (Z * Z) :=
  let (n, d) := if 0 <=? e then (m * 2 ^ e, 1) else (m, 2 ^ (- e)) in
  let t := decimal_point n d - p in
  let num := if t <? 0 then n * 10 ^ (- t) else n in
  let den := if t <? 0 then d else d * 10 ^ t in
  let lo := num / den in
  let r := num mod den in
  let reads_back c :=
    match (let (a, b) := scaled c t in of_ratio false a b) with
    | Finite _ m' e' => (m' =? m) && (e' =? e)
    | _ => false
    end in
  let lo_first := (2 * r <? den) || ((2 * r =? den) && Z.even lo) in
  let first := if lo_first then lo else lo + 1 in
  let second := if lo_first then lo + 1 else lo in
  if reads_back first then Some (first, t)
  else if reads_back second then Some (second, t)
  else None.

Fixpoint shortest_from (m e : Z) (p : Z) (tries : nat) : Z * Z :=
  match tries with
  | O => (m, 0)
  | S tries' =>
      match candidate m e p with
      | Some ct => ct
      | None => shortest_from m e (p + 1) tries'
      end
  end.

Fixpoint strip_zeros (c t : Z) (fuel : nat) : Z * Z :=
  match fuel with
  | O => (c, t)
  | S fuel' => if (c mod 10 =? 0) && negb (c =? 0) then strip_zeros (c / 10) (t + 1) fuel'
               else (c, t)
  end.

(** The shortest decimal that reads back as [m * 2^e]: its digits, without
    trailing zeros, and its exponent. *)
Definition shortest (m e : Z) : Z * Z :=
  let (c, t) := shortest_from m e 1 17 in strip_zeros c t 17.

Definition digits_of (c : Z) : string := NilZero.string_of_int (Z.to_int c).

Fixpoint zeros (n : nat) : string :=
  match n with
  | O => ""
  | S n' => String "0" (zeros n')
  end.

Definition take_string (n : nat) (s : string) : string := substring 0 n s.
Definition drop_string (n : nat) (s : string) : string := substring n (String.length s - n) s.

(** [repr(x)] of a finite non-zero double, without its sign. *)
Definition repr_finite (m e : Z) : string :=
  let (c, t) := shortest m e in
  let ds := digits_of c in
  let n := Z.of_nat (String.length ds) in
  let point := n + t in
  if (-4 <? point) && (point <=? 16) then
    if point <=? 0 then "0." ++ zeros (Z.to_nat (- point)) ++ ds
    else if n <=? point then ds ++ zeros (Z.to_nat (point - n)) ++ ".0"
    else take_string (Z.to_nat point) ds ++ "." ++ drop_string (Z.to_nat point) ds
  else
    let x := point - 1 in
    take_string 1 ds
    ++ (if 1 <? n then "." ++ drop_string 1 ds else "")
    ++ "e" ++ (if x <? 0 then "-" else "+")
    ++ (if Z.abs x <? 10 then "0" else "") ++ digits_of (Z.abs x).

(** [repr(x)], which is also [str(x)]. *)
Definition repr (x : float) : string :=
  match x with
  | NaN => "nan"
  | Infinity false => "inf"
  | Infinity true => "-inf"
  | Finite negative m e =>
      (if negative then "-" else "")
      ++ (if m =? 0 then "0.0" else repr_finite m e)
  end.

End Float.

(** ** The [json] module, as far as the program uses it

    [Json.loads] and [Json.dumps] follow the standard library's decoder and
    encoder on byte strings.  A number is decoded to the Python value it
    denotes, an [int] or a [float]; of the limits of the interpreter the
    decoder meets two, the length of an integer literal and the depth of
    nesting.  [Json.dumps] escapes byte by byte (exact on ASCII text). *)
Module Json.
Local Open Scope nat_scope.
Local Open Scope list_scope.

Inductive value :=
| Null
| Bool (b : bool)
| Int (n : Z)                 (* a Python int *)
| Float (x : Float.float)     (* a Python float *)
| Str (s : string)
| Array (elements : list value)
| Object (members : list (string * value)).

Definition dquote : ascii := ascii_of_nat 34.
Definition backslash : ascii := ascii_of_nat 92.

Definition chars (s : string) : list ascii := list_ascii_of_string s.
Definition text (l : list ascii) : string := string_of_list_ascii l.

(** A Python dict built from pairs: a repeated key keeps its first position
    and takes the last value. *)
Fixpoint dict_set (k : string) (v : value) (d : list (string * value)) :=
  match d with
  | [] => [(k, v)]
  | (k', v') :: d' =>
      if String.eqb k k' then (k, v) :: d' else (k', v') :: dict_set k v d'
  end.

Fixpoint dict_get (k : string) (d : list (string * value)) : option value :=
  match d with
  | [] => None
  | (k', v) :: d' => if String.eqb k k' then Some v else dict_get k d'
  end.

Definition is_ws (c : ascii) : bool :=
  match nat_of_ascii c with
  | 32 | 9 | 10 | 13 => true
  | _ => false
  end.

Fixpoint skip_ws (cs : list ascii) : list ascii :=
  match cs with
  | c :: cs' => if is_ws c then skip_ws cs' else cs
  | [] => []
  end.

Definition is_digit (c : ascii) : bool :=
  let n := nat_of_ascii c in (48 <=? n) && (n <=? 57).

Definition hex_digit (c : ascii) : option N :=
  let n := N_of_ascii c in
  (if (48 <=? n) && (n <=? 57) then Some (n - 48)
   else if (97 <=? n) && (n <=? 102) then Some (n - 87)
   else if (65 <=? n) && (n <=? 70) then Some (n - 55)
   else None)%N.

Definition hex4 (a b c d : ascii) : option N :=
  match hex_digit a, hex_digit b, hex_digit c, hex_digit d with
  | Some x, Some y, Some z, Some w => Some (((x * 16 + y) * 16 + z) * 16 + w)%N
  | _, _, _, _ => None
  end.

(** UTF-8 bytes of a code point. *)
Definition utf8 (n : N) : list ascii :=
  (if n <? 128 then [ascii_of_N n]
   else if n <? 2048 then
     [ascii_of_N (192 + n / 64); ascii_of_N (128 + n mod 64)]
   else if n <? 65536 then
     [ascii_of_N (224 + n / 4096); ascii_of_N (128 + (n / 64) mod 64);
      ascii_of_N (128 + n mod 64)]
   else
     [ascii_of_N (240 + n / 262144); ascii_of_N (128 + (n / 4096) mod 64);
      ascii_of_N (128 + (n / 64) mod 64); ascii_of_N (128 + n mod 64)])%N.

Definition is_high_surrogate (n : N) : bool := ((55296 <=? n) && (n <=? 56319))%N.
Definition is_low_surrogate (n : N) : bool := ((56320 <=? n) && (n <=? 57343))%N.

(** The body of a string literal, after its opening quote: the decoded text
    and what follows the closing quote. *)
Fixpoint scanstring (cs : list ascii) (acc : list ascii)
  : option (string * list ascii) :=
  match cs with
  | [] => None
  | c :: rest =>
      if Ascii.eqb c dquote then Some (text acc, rest)
      else if Ascii.eqb c backslash then
        match rest with
        | [] => None
        | e :: rest1 =>
            if Ascii.eqb e dquote then scanstring rest1 (acc ++ [dquote])
            else
            match e with
            | "\"%char => scanstring rest1 (acc ++ [backslash])
            | "/"%char => scanstring rest1 (acc ++ ["/"%char])
            | "b"%char => scanstring rest1 (acc ++ [ascii_of_nat 8])
            | "f"%char => scanstring rest1 (acc ++ [ascii_of_nat 12])
            | "n"%char => scanstring rest1 (acc ++ [ascii_of_nat 10])
            | "r"%char => scanstring rest1 (acc ++ [ascii_of_nat 13])
            | "t"%char => scanstring rest1 (acc ++ [ascii_of_nat 9])
            | "u"%char =>
                match rest1 with
                | h1 :: h2 :: h3 :: h4 :: rest2 =>
                    match hex4 h1 h2 h3 h4 with
                    | None => None
                    | Some hi =>
                        match rest2 with
                        | b2 :: u2 :: l1 :: l2 :: l3 :: l4 :: rest3 =>
                            match hex4 l1 l2 l3 l4 with
                            | Some lo =>
                                if is_high_surrogate hi && Ascii.eqb b2 backslash
                                   && Ascii.eqb u2 "u"%char && is_low_surrogate lo
                                then scanstring rest3
                                       (acc ++ utf8 (65536 + (hi - 55296) * 1024
                                                     + (lo - 56320))%N)
                                else scanstring rest2 (acc ++ utf8 hi)
                            | None => scanstring rest2 (acc ++ utf8 hi)
                            end
                        | _ => scanstring rest2 (acc ++ utf8 hi)
                        end
                    end
                | _ => None
                end
            | _ => None
            end
        end
      else if nat_of_ascii c <? 32 then None
      else scanstring rest (acc ++ [c])
  end.

Fixpoint take_digits (cs : list ascii) : list ascii * list ascii :=
  match cs with
  | c :: cs' =>
      if is_digit c then let (d, r) := take_digits cs' in (c :: d, r)
      else ([], cs)
  | [] => ([], [])
  end.

(** The number written by a sequence of decimal digits. *)
Definition digits_value (ds : list ascii) : Z :=
  fold_left (fun n c => (10 * n + (Z.of_nat (nat_of_ascii c) - 48))%Z) ds 0%Z.

Fixpoint strip_zeros (ds : list ascii) : list ascii :=
  match ds with
  | "0"%char :: ds' => strip_zeros ds'
  | _ => ds
  end.

(** [sys.int_info.default_max_str_digits]: [int(text)] refuses a text with
    more digits. *)
Definition max_str_digits : nat := 4300.

(** [int(text)] for a sign and a sequence of digits. *)
Definition int_of_digits (negative : bool) (ds : list ascii) : reply value :=
  if max_str_digits <? List.length ds then
    Throws "ValueError: Exceeds the limit (4300 digits) for integer string conversion"
  else Returns (Int (if negative then - digits_value ds else digits_value ds)%Z).

(** [float(text)] for a sign, the digits before and after the point and
    the exponent. *)
Definition float_of_digits (negative : bool) (ds frac : list ascii) (exponent : Z) : value :=
  Float (Float.of_decimal negative (digits_value (ds ++ frac))
           (Z.of_nat (List.length (strip_zeros (ds ++ frac))))
           (exponent - Z.of_nat (List.length frac))%Z).

(** The number literal at the head of [cs]: an optional minus sign, then a
    single zero or a digit sequence not starting with zero, then optionally
    a dot and digits, then optionally e or E, a sign and digits.  A literal
    with neither fraction nor exponent is read by [int], any other by
    [float]. *)
Definition scan_number (cs : list ascii) : option (reply value * list ascii) :=
  let (negative, cs1) :=
    match cs with
    | "-"%char :: r => (true, r)
    | _ => (false, cs)
    end in
  let int_part :=
    match cs1 with
    | "0"%char :: r => Some (["0"%char], r)
    | _ => match take_digits cs1 with
           | ([], _) => None
           | (d, r) => Some (d, r)
           end
    end in
  match int_part with
  | None => None
  | Some (ds, cs2) =>
      let (frac, cs3) :=
        match cs2 with
        | "."%char :: r =>
            match take_digits r with
            | ([], _) => (None, cs2)
            | (d, r') => (Some d, r')
            end
        | _ => (None, cs2)
        end in
      let (expo, cs4) :=
        match cs3 with
        | e :: r =>
            if Ascii.eqb e "e"%char || Ascii.eqb e "E"%char then
              let (minus, r1) :=
                match r with
                | "+"%char :: r' => (false, r')
                | "-"%char :: r' => (true, r')
                | _ => (false, r)
                end in
              match take_digits r1 with
              | ([], _) => (None, cs3)
              | (d, r') => (Some (if minus then - digits_value d else digits_value d)%Z, r')
              end
            else (None, cs3)
        | [] => (None, cs3)
        end in
      match frac, expo with
      | None, None => Some (int_of_digits negative ds, cs4)
      | _, _ =>
          Some (Returns (float_of_digits negative ds
                           (match frac with Some d => d | None => [] end)
                           (match expo with Some x => x | None => 0%Z end)), cs4)
      end
  end.

(** [strip_prefix p cs]: what follows [p] at the head of [cs]. *)
Fixpoint strip_prefix (p cs : list ascii) : option (list ascii) :=
  match p, cs with
  | [], _ => Some cs
  | a :: p', c :: cs' => if Ascii.eqb a c then strip_prefix p' cs' else None
  | _ :: _, [] => None
  end.

(** The exception raised on a text that is not JSON. *)
Definition decode_error : string := "JSONDecodeError".

Definition scan_literal (cs : list ascii) : reply (value * list ascii) :=
  match strip_prefix (chars "null") cs with
  | Some r => Returns (Null, r)
  | None =>
  match strip_prefix (chars "true") cs with
  | Some r => Returns (Bool true, r)
  | None =>
  match strip_prefix (chars "false") cs with
  | Some r => Returns (Bool false, r)
  | None =>
  match strip_prefix (chars "NaN") cs with
  | Some r => Returns (Float Float.NaN, r)
  | None =>
  match strip_prefix (chars "Infinity") cs with
  | Some r => Returns (Float (Float.Infinity false), r)
  | None =>
  match strip_prefix (chars "-Infinity") cs with
  | Some r => Returns (Float (Float.Infinity true), r)
  | None =>
  match scan_number cs with
  | Some (Returns v, r) => Returns (v, r)
  | Some (Throws msg, _) => Throws msg
  | None => Throws decode_error
  end end end end end end end.

(** The exception raised when the recursion limit is reached on entering
    an array or an object. *)
Definition recursion_error (what : string) : string :=
  ("RecursionError: maximum recursion depth exceeded while decoding a JSON " ++ what
   ++ " from a unicode string")%string.

(** The value starting at the head of [cs].  [room] is the number of
    nested arrays and objects the interpreter can still enter: each one
    entered takes one level of its recursion limit.  [fuel] makes the
    recursion structural; [loads] starts it above twice the length of the
    text, one unit for each value and one for each separator. *)
Fixpoint scan_once (fuel room : nat) (cs : list ascii) : reply (value * list ascii) :=
  match fuel with
  | 0 => Throws decode_error
  | S fuel' =>
      match cs with
      | [] => Throws decode_error
      | c :: rest =>
          if Ascii.eqb c dquote then
            match scanstring rest [] with
            | Some (s, r) => Returns (Str s, r)
            | None => Throws decode_error
            end
          else if Ascii.eqb c "{"%char then
            match room with
            | 0 => Throws (recursion_error "object")
            | S room' =>
                match skip_ws rest with
                | "}"%char :: r => Returns (Object [], r)
                | rest' => scan_members fuel' room' rest' []
                end
            end
          else if Ascii.eqb c "["%char then
            match room with
            | 0 => Throws (recursion_error "array")
            | S room' =>
                match skip_ws rest with
                | "]"%char :: r => Returns (Array [], r)
                | rest' => scan_elements fuel' room' rest' []
                end
            end
          else scan_literal cs
      end
  end
with scan_elements (fuel room : nat) (cs : list ascii) (acc : list value)
  : reply (value * list ascii) :=
  match fuel with
  | 0 => Throws decode_error
  | S fuel' =>
      match scan_once fuel' room cs with
      | Throws msg => Throws msg
      | Returns (v, rest) =>
          match skip_ws rest with
          | "]"%char :: r => Returns (Array (acc ++ [v]), r)
          | ","%char :: r => scan_elements fuel' room (skip_ws r) (acc ++ [v])
          | _ => Throws decode_error
          end
      end
  end
with scan_members (fuel room : nat) (cs : list ascii) (acc : list (string * value))
  : reply (value * list ascii) :=
  match fuel with
  | 0 => Throws decode_error
  | S fuel' =>
      match cs with
      | [] => Throws decode_error
      | c :: rest =>
          if Ascii.eqb c dquote then
            match scanstring rest [] with
            | None => Throws decode_error
            | Some (k, rest1) =>
                match skip_ws rest1 with
                | ":"%char :: rest2 =>
                    match scan_once fuel' room (skip_ws rest2) with
                    | Throws msg => Throws msg
                    | Returns (v, rest3) =>
                        match skip_ws rest3 with
                        | "}"%char :: r => Returns (Object (dict_set k v acc), r)
                        | ","%char :: r =>
                            scan_members fuel' room (skip_ws r) (dict_set k v acc)
                        | _ => Throws decode_error
                        end
                    end
                | _ => Throws decode_error
                end
            end
          else Throws decode_error
      end
  end.

(** [json.loads(s)] in an interpreter with [room] levels of recursion
    left.  [Throws] names the class of the exception raised:
    [JSONDecodeError] for a text that is not JSON, [ValueError] for an
    integer literal of more than 4300 digits, [RecursionError] for arrays
    and objects nested deeper than [room]. *)
Definition loads (room : nat) (s : string) : reply value :=
  let cs := skip_ws (chars s) in
  match scan_once (2 * List.length cs + 2) room cs with
  | Returns (v, rest) =>
      match skip_ws rest with
      | [] => Returns v
      | _ => Throws "JSONDecodeError: Extra data"
      end
  | Throws msg => Throws msg
  end.

Definition hex_char (n : nat) : ascii :=
  if n <? 10 then ascii_of_nat (48 + n) else ascii_of_nat (87 + n).

(** One character of a string, as [json.dumps] writes it. *)
Definition escape (c : ascii) : list ascii :=
  let n := nat_of_ascii c in
  if Ascii.eqb c dquote then [backslash; dquote]
  else if Ascii.eqb c backslash then [backslash; backslash]
  else if n =? 10 then [backslash; "n"%char]
  else if n =? 13 then [backslash; "r"%char]
  else if n =? 9 then [backslash; "t"%char]
  else if n =? 8 then [backslash; "b"%char]
  else if n =? 12 then [backslash; "f"%char]
  else if (32 <=? n) && (n <=? 126) then [c]
  else [backslash; "u"%char; "0"%char; "0"%char; hex_char (n / 16); hex_char (n mod 16)].

Definition dumps_string (s : string) : list ascii :=
  dquote :: flat_map escape (chars s) ++ [dquote].

Definition dumps_float (x : Float.float) : string :=
  match x with
  | Float.NaN => "NaN"
  | Float.Infinity false => "Infinity"
  | Float.Infinity true => "-Infinity"
  | _ => Float.repr x
  end.

Fixpoint dumps_chars (v : value) : list ascii :=
  match v with
  | Null => chars "null"
  | Bool true => chars "true"
  | Bool false => chars "false"
  | Int n => chars (Float.digits_of n)
  | Float x => chars (dumps_float x)
  | Str s => dumps_string s
  | Array l =>
      let fix items (l : list value) : list ascii :=
        match l with
        | [] => []
        | [x] => dumps_chars x
        | x :: l' => dumps_chars x ++ chars ", " ++ items l'
        end in
      "["%char :: items l ++ ["]"%char]
  | Object m =>
      let fix items (m : list (string * value)) : list ascii :=
        match m with
        | [] => []
        | [(k, x)] => dumps_string k ++ chars ": " ++ dumps_chars x
        | (k, x) :: m' =>
            dumps_string k ++ chars ": " ++ dumps_chars x ++ chars ", " ++ items m'
        end in
      "{"%char :: items m ++ ["}"%char]
  end.

(** [json.dumps(v)] with the default separators. *)
Definition dumps (v : value) : string := text (dumps_chars v).

End Json.

(** ** Formatting a decoded value inside an f-string

    [str(v)] for the values [json.loads] builds: a string is itself, every
    other value is printed by [repr], a number as Python prints the [int]
    or the [float].  [repr] of a string escapes byte by byte: it is exact on
    text whose characters outside ASCII are printable. *)
Module Py.
Local Open Scope nat_scope.
Local Open Scope list_scope.

Definition quote : ascii := "'"%char.

Definition repr_char (q c : ascii) : list ascii :=
  let n := nat_of_ascii c in
  if Ascii.eqb c q || Ascii.eqb c Json.backslash then [Json.backslash; c]
  else if n =? 10 then [Json.backslash; "n"%char]
  else if n =? 13 then [Json.backslash; "r"%char]
  else if n =? 9 then [Json.backslash; "t"%char]
  else if (n <? 32) || (n =? 127) then
    [Json.backslash; "x"%char; Json.hex_char (n / 16); Json.hex_char (n mod 16)]
  else [c].

(** [repr] of a str: single quotes, unless the text has a single quote and
    no double quote. *)
Definition repr_str (s : string) : list ascii :=
  let cs := Json.chars s in
  let q := if existsb (Ascii.eqb quote) cs && negb (existsb (Ascii.eqb Json.dquote) cs)
           then Json.dquote else quote in
  q :: flat_map (repr_char q) cs ++ [q].

Fixpoint repr (v : Json.value) : list ascii :=
  match v with
  | Json.Null => Json.chars "None"
  | Json.Bool true => Json.chars "True"
  | Json.Bool false => Json.chars "False"
  | Json.Int n => Json.chars (Float.digits_of n)
  | Json.Float x => Json.chars (Float.repr x)
  | Json.Str s => repr_str s
  | Json.Array l =>
      let fix items (l : list Json.value) : list ascii :=
        match l with
        | [] => []
        | [x] => repr x
        | x :: l' => repr x ++ Json.chars ", " ++ items l'
        end in
      "["%char :: items l ++ ["]"%char]
  | Json.Object m =>
      let fix items (m : list (string * Json.value)) : list ascii :=
        match m with
        | [] => []
        | [(k, x)] => repr_str k ++ Json.chars ": " ++ repr x
        | (k, x) :: m' => repr_str k ++ Json.chars ": " ++ repr x ++ Json.chars ", " ++ items m'
        end in
      "{"%char :: items m ++ ["}"%char]
  end.

Definition str (v : Json.value) : string :=
  match v with
  | Json.Str s => s
  | _ => Json.text (repr v)
  end.




(** [str(n)] for a length. *)
Definition str_nat (n : nat) : string := NilZero.string_of_uint (Nat.to_uint n).

(** Truth value of an optional string: [None] and the empty string are
    false. *)
Definition truthy (o : option string) : bool :=
  match o with
  | None => false
  | Some s => negb (String.eqb s "")
  end.

End Py.

(** ** The program *)

Definition AZURE_DEPLOYMENT_NAME_FALLBACK : string := "gpt-4o".
Definition AZURE_ASSISTANT_ID_FALLBACK : string := "assistant_id_fallback".

(** What the widgets return in one run of the script. *)
Record inputs := {
  uploaded_files : list uploaded_file;   (* st.file_uploader(...) *)
  upload_clicked : bool;                 (* st.button("Upload and Analyze") *)
  chat_input : option string;            (* st.chat_input(...) *)
  reset_clicked : bool                   (* st.button("Start New Analysis") *)
}.

(** The full response returned by [st.write_stream]: a string when only text
    was streamed, otherwise the list of streamed objects. *)
Inductive written :=
| WStr (s : string)
| WList (l : list item).

(** The fragments yielded, in order. *)
Fixpoint yielded (t : list effect) : list item :=
  match t with
  | [] => []
  | Yield x :: t' => x :: yielded t'
  | _ :: t' => yielded t'
  end.

Definition flush (streamed : string) (written_content : list item) : list item :=
  if String.eqb streamed "" then written_content
  else written_content ++ [TextItem streamed].

(** [st.write_stream] gathers consecutive text chunks into one string and
    keeps every other object as it is. *)
Fixpoint gather (chunks : list item) (streamed : string) (written_content : list item)
  : list item :=
  match chunks with
  | [] => flush streamed written_content
  | TextItem s :: rest => gather rest (streamed ++ s)%string written_content
  | x :: rest => gather rest "" (flush streamed written_content ++ [x])
  end.

(** [st.write_stream(g)]: drives the generator [g] to its end. *)
Definition st_write_stream (g : M unit) : M written :=
  r <- listen g ;;
  match gather (yielded (snd r)) "" [] with
  | [] => ret (WStr "")
  | [TextItem s] => ret (WStr s)
  | l => ret (WList l)
  end.

(** [analyze_data(dataset_name, question)] *)
Definition analyze_data (dataset_name question : string) : M string :=
  emit (Sleep 2) ;;
  ret ("Analysis of " ++ dataset_name ++ " complete. The answer to '" ++ question
       ++ "' is in the generated visualizations and data.")%string.

(** [analyze_data] called with [function_arguments] unpacked as keyword
    arguments: the mapping must give exactly the two parameters; the
    f-string then formats each value with [str]. *)
Definition analyze_data_kwargs (function_arguments : Json.value) : M string :=
  match function_arguments with
  | Json.Object d =>
      match Json.dict_get "dataset_name" d, Json.dict_get "question" d with
      | Some dataset_name, Some question =>
          if Nat.eqb (List.length d) 2 then analyze_data (Py.str dataset_name) (Py.str question)
          else raise (Error "TypeError: analyze_data() got an unexpected keyword argument")
      | _, _ =>
          raise (Error "TypeError: analyze_data() missing required positional arguments")
      end
  | _ => raise (Error "TypeError: argument after ** must be a mapping")
  end.

Definition lift {A} (r : reply A) : M A :=
  match r with
  | Returns a => ret a
  | Throws msg => raise (Error msg)
  end.

Definition ret_val : Json.value :=
  Json.Object
    [("status", Json.Str "error");
     ("message",
      Json.Str "Function name is not recognized. Please check your request structure.")].

Section Program.

Variable e : env.

(** The body of the loop of [handle_requires_action] for one tool call. *)
Definition handle_tool_call (tool : tool_call) (tool_outputs : list tool_output)
  : M (list tool_output) :=
  function_arguments <-
    (if String.eqb (function_arguments tool) "" then ret (Json.Object [])
     else lift (Json.loads (recursion_room e) (function_arguments tool))) ;;
  if String.eqb (function_name tool) "analyze_data" then
    logger_info "Calling analyze_data function" ;;
    answer <- analyze_data_kwargs function_arguments ;;
    ret (tool_outputs ++ [{| out_tool_call_id := tool_call_id tool; output := answer |}])
  else
    emit (Log ERROR ("Unrecognized function name: " ++ function_name tool ++ ". Tool: ")%string
              (Some (LTool tool))) ;;
    ret (tool_outputs ++ [{| out_tool_call_id := tool_call_id tool;
                             output := Json.dumps ret_val |}]).

Fixpoint handle_tool_calls (calls : list tool_call) (tool_outputs : list tool_output)
  : M (list tool_output) :=
  match calls with
  | [] => ret tool_outputs
  | tool :: calls' =>
      tool_outputs' <- handle_tool_call tool tool_outputs ;;
      handle_tool_calls calls' tool_outputs'
  end.

(** [handle_requires_action(tool_request)]: the outputs, [data.thread_id]
    and [data.id]. *)
Definition handle_requires_action (tool_request : response)
  : M (list tool_output * string * string) :=
  emit (UI (StToast "Running data analysis...")) ;;
  match data tool_request with
  | RunData d =>
      match required_action d with
      | Some calls =>
          tool_outputs <- handle_tool_calls calls [] ;;
          emit (UI (StToast "Analysis complete")) ;;
          ret (tool_outputs, run_thread_id d, run_id d)
      | None =>
          raise (Error "AttributeError: 'NoneType' object has no attribute 'submit_tool_outputs'")
      end
  | _ => raise (Error "AttributeError: required_action")
  end.

(** [moderation_endpoint(text)]; the reply of the remote call is the list of
    the [flagged] fields of [response.results]. *)
Definition moderation_endpoint (text : string) : M bool :=
  try_except
    (results <- call (moderations_create e text) (ModerationsCreate text) ;;
     match results with
     | flagged :: _ => ret flagged
     | [] => raise (Error "list index out of range")
     end)
    (fun msg => logger_error ("Error checking moderation: " ++ msg)%string ;; ret false).

Definition delete_files (file_id_list : list string) : M unit :=
  for_each file_id_list (fun file_id =>
    try_except
      (call (files_delete e file_id) (FilesDelete file_id) ;;
       logger_info ("Deleted file: " ++ file_id)%string)
      (fun msg => logger_error ("Error deleting file " ++ file_id ++ ": " ++ msg)%string)).

Definition delete_thread (thread : string) : M unit :=
  try_except
    (call (threads_delete e thread) (ThreadsDelete thread) ;;
     logger_info ("Deleted thread: " ++ thread)%string)
    (fun msg => logger_error ("Error deleting thread " ++ thread ++ ": " ++ msg)%string).

(** The loop of [retrieve_assistant_created_files] over the listed
    messages: the file ids gathered in [assistant_created_file_ids], in
    listing order, and the exception that ended the loop, if any.  Iterating
    over the attachments of a message that has none ([None]) raises. *)
Fixpoint gather_attachments (l : list thread_message) (assistant_created_file_ids : list string)
  : list string * option string :=
  match l with
  | [] => (assistant_created_file_ids, None)
  | m :: l' =>
      if String.eqb (tm_role m) "assistant" then
        match attachments m with
        | Some ids => gather_attachments l' (assistant_created_file_ids ++ ids)
        | None => (assistant_created_file_ids, Some "'NoneType' object is not iterable")
        end
      else gather_attachments l' assistant_created_file_ids
  end.

(** The list is filled inside the [try] and returned after it, so that the
    identifiers gathered before an exception are returned. *)
Definition retrieve_assistant_created_files (thread : option string) : M (list string) :=
  let report msg := logger_error ("Error retrieving assistant files: " ++ msg)%string in
  try_except
    (msgs <- call (messages_list e thread) (MessagesList thread) ;;
     match gather_attachments msgs [] with
     | (assistant_created_file_ids, None) => ret assistant_created_file_ids
     | (assistant_created_file_ids, Some msg) => report msg ;; ret assistant_created_file_ids
     end)
    (fun msg => report msg ;; ret []).

(** [st.download_button(...)] for the file at [position]: the button is
    rendered, or the call raises and nothing is rendered. *)
Definition st_download_button_at (position : nat) (file file_name : string) : M unit :=
  let label := ("Download " ++ file_name)%string in
  match st_download_button e position label file file_name with
  | Returns _ => emit (UI (StDownloadButton label file file_name))
  | Throws msg => raise (Error msg)
  end.

(** The loop of [render_download_files], from the file at [position] on.
    The two lists are appended to before the button is rendered, so a file
    whose button fails is in them all the same. *)
Fixpoint render_each (file_id_list : list string) (position : nat)
  (downloaded_files file_names : list string) : M (list string * list string) :=
  match file_id_list with
  | [] => ret (downloaded_files, file_names)
  | file_id :: rest =>
      let report msg :=
        logger_error ("Error downloading file " ++ file_id ++ ": " ++ msg)%string in
      r <- try_except
             (file <- call (files_content e file_id) (FilesContent file_id) ;;
              file_name <- call (files_retrieve_filename e file_id) (FilesRetrieve file_id) ;;
              let appended := (downloaded_files ++ [file], file_names ++ [file_name]) in
              try_except
                (st_download_button_at position file file_name ;; ret appended)
                (fun msg => report msg ;; ret appended))
             (fun msg => report msg ;; ret (downloaded_files, file_names)) ;;
      render_each rest (S position) (fst r) (snd r)
  end.

Definition render_download_files (file_id_list : list string)
  : M (list string * list string) :=
  match file_id_list with
  | [] => ret ([], [])
  | _ =>
      emit (UI (StMarkdown "### 📂 Generated Files")) ;;
      render_each file_id_list 0 [] []
  end.

(** The loop of [data_streamer] over the events still to come;
    [ss.stream] always holds the events not yet taken from the stream. *)
Fixpoint data_streamer_loop (events : event_stream) (content_produced : bool) : M unit :=
  match events with
  | [] =>
      emit (UI (StToast "Analysis complete")) ;;
      s <- gets stream ;;
      emit (Log INFO "Finished data streamer on " (Some (LStream s)))
  | StreamError msg :: rest =>
      modify (set_stream rest) ;;
      raise (Error msg)
  | Event response :: rest =>
      modify (set_stream rest) ;;
      if String.eqb (event response) "thread.message.delta" then
        match data response with
        | MessageDeltaData (content :: _) =>
            match content with
            | TextDeltaBlock value =>
                emit (Yield (TextItem value)) ;;
                data_streamer_loop rest true
            | ImageFileDeltaBlock file_id =>
                emit (Log INFO "Image file: " (Some (LContent content))) ;;
                bytes <- call (files_content e file_id) (FilesContent file_id) ;;
                modify (fun s => set_assistant_created_file_ids
                                   (assistant_created_file_ids s ++ [file_id]) s) ;;
                img <- call (image_open e bytes) (ImageOpen bytes) ;;
                emit (Yield (ImageItem img)) ;;
                data_streamer_loop rest true
            | OtherDeltaBlock _ => data_streamer_loop rest content_produced
            end
        | MessageDeltaData [] => raise (Error "IndexError: list index out of range")
        | _ => raise (Error "AttributeError: delta")
        end
      else if String.eqb (event response) "thread.run.requires_action" then
        emit (Log INFO "Run requires action: " (Some (LResponse response))) ;;
        queue_put response ;;
        (if content_produced then ret tt
         else emit (Yield (TextItem "[Running data analysis...]")))
      else if String.eqb (event response) "thread.run.failed" then
        emit (Log ERROR "Run failed: " (Some (LResponse response))) ;;
        emit (Yield (TextItem "[Analysis failed. Please try again.]"))
      else data_streamer_loop rest content_produced
  end.

(** [data_streamer()], a generator: each [yield] is a [Yield] effect. *)
Definition data_streamer : M unit :=
  s <- gets stream ;;
  emit (Log INFO "Starting data streamer on " (Some (LStream s))) ;;
  emit (UI (StToast "Analyzing data...")) ;;
  data_streamer_loop s false.

Definition add_message_to_state_session (message : item) : M unit :=
  match message with
  | TextItem "" => ret tt
  | _ =>
      modify (fun s => set_messages
                         (messages s ++ [{| role := "assistant"; msg_content := message |}]) s)
  end.

Definition display_stream (content_stream : event_stream) (create_context : bool) : M unit :=
  modify (set_stream content_stream) ;;
  response <-
    (if create_context then
       emit (UI (StChatMessage "assistant")) ;; st_write_stream data_streamer
     else st_write_stream data_streamer) ;;
  match response with
  | WList l => for_each l add_message_to_state_session
  | WStr s => add_message_to_state_session (TextItem s)
  end.

(** Lines 273-315: the assistant is looked up once per session and
    created when the lookup fails. *)
Definition init_assistant : M assistant_obj :=
  stored <- gets assistant ;;
  match stored with
  | Some a => ret a
  | None =>
      a <- try_except
             (let assistant_id :=
                match AZURE_ASSISTANT_ID e with
                | Some v => v
                | None => AZURE_ASSISTANT_ID_FALLBACK
                end in
              a <- call (assistants_retrieve e assistant_id) (AssistantsRetrieve assistant_id) ;;
              logger_info ("Located assistant: " ++ asst_name a)%string ;;
              ret a)
             (fun msg =>
                logger_info ("Creating new assistant: " ++ msg)%string ;;
                let deployment_name :=
                  match AZURE_DEPLOYMENT_NAME e with
                  | Some v => v
                  | None => AZURE_DEPLOYMENT_NAME_FALLBACK
                  end in
                a <- call (assistants_create e deployment_name)
                          (AssistantsCreate deployment_name) ;;
                logger_info ("Created new assistant: " ++ asst_id a)%string ;;
                ret a) ;;
      modify (set_assistant (Some a)) ;;
      ret a
  end.

(** Lines 318-346: the upload step. *)
Definition upload_section (i : inputs) : M unit :=
  uploaded <- gets file_uploaded ;;
  if uploaded then ret tt
  else
    emit (UI (StSubheader "Step 1: Upload Your Dataset")) ;;
    match uploaded_files i with
    | [] => ret tt
    | _ =>
        if upload_clicked i then
          modify (set_file_ids []) ;;
          emit (UI (StSpinner "Uploading files...")) ;;
          for_each (uploaded_files i) (fun file =>
            try_except
              (oai_file_id <- call (files_create e file) (FilesCreate file) ;;
               modify (fun s => set_file_ids (file_ids s ++ [oai_file_id]) s) ;;
               logger_info ("Uploaded file: " ++ upload_name file ++ " with ID: "
                            ++ oai_file_id)%string)
              (fun msg =>
                 st_error ("Error uploading " ++ upload_name file ++ ": " ++ msg)%string)) ;;
          ids <- gets file_ids ;;
          match ids with
          | [] => ret tt
          | _ =>
              emit (UI (StSuccess ("✅ Successfully uploaded " ++ Py.str_nat (List.length ids)
                                   ++ " file(s)")%string)) ;;
              modify (set_file_uploaded true) ;;
              raise RerunException
          end
        else ret tt
    end.

(** Lines 355-365: the thread is created, and the uploaded files attached
    to it, when the session has no thread yet. *)
Definition ensure_thread : M unit :=
  t <- gets thread_id ;;
  if Py.truthy t then ret tt
  else
    new_id <- call (threads_create e) ThreadsCreate ;;
    modify (set_thread_id (Some new_id)) ;;
    logger_info ("Created new thread: " ++ new_id)%string ;;
    t' <- gets thread_id ;;
    ids <- gets file_ids ;;
    call (threads_update e t' ids) (ThreadsUpdate t' ids).

(** Lines 367-374: the transcript is rendered. *)
Definition display_history : M unit :=
  history <- gets messages ;;
  for_each history (fun message =>
    emit (UI (StChatMessage (role message))) ;;
    match msg_content message with
    | TextItem s => emit (UI (StMarkdown s))
    | ImageItem img => emit (UI (StImage img))
    end).

(** Lines 408-417: pending tool requests are dispatched one by one; each
    submission opens a follow-up stream, answered by the next of
    [replies]. *)
Fixpoint handle_tool_requests (replies : list (reply event_stream)) : M unit :=
  empty <- queue_empty ;;
  if empty then ret tt
  else
    logger_info "Handling tool requests" ;;
    emit (UI (StChatMessage "assistant")) ;;
    request <- queue_get ;;
    r <- handle_requires_action request ;;
    let '(tool_outputs, thread, run_) := r in
    match replies with
    | [] => raise Blocked
    | reply_ :: replies' =>
        tool_stream <- call reply_ (SubmitToolOutputsStream thread run_ tool_outputs) ;;
        display_stream tool_stream false ;;
        handle_tool_requests replies'
    end.

(** Lines 385-397: the question is shown, appended to the transcript and
    sent to the thread. *)
Definition submit_question (question : string) : M unit :=
  emit (UI (StChatMessage "user")) ;;
  emit (UI (StMarkdown question)) ;;
  modify (fun s => set_messages
                     (messages s ++ [{| role := "user"; msg_content := TextItem question |}]) s) ;;
  t <- gets thread_id ;;
  call (messages_create e t question) (MessagesCreate t question).

(** Lines 399-417: the run is streamed and pending tool requests are
    served, each by a follow-up stream. *)
Definition run_assistant (assistant_ : assistant_obj) : M unit :=
  t <- gets thread_id ;;
  run_stream <- call (runs_stream e t (asst_id assistant_))
                     (RunsStream t (asst_id assistant_)) ;;
  display_stream run_stream true ;;
  handle_tool_requests (submit_tool_outputs_stream e).

(** Lines 419-424: the files attached to the assistant's messages replace
    the recorded list and are offered for download. *)
Definition offer_created_files : M unit :=
  t <- gets thread_id ;;
  created <- retrieve_assistant_created_files t ;;
  modify (set_assistant_created_file_ids created) ;;
  match created with
  | [] => ret tt
  | _ => render_download_files created ;; ret tt
  end.

(** Lines 385-424: the turn for an accepted question. *)
Definition answer_question (assistant_ : assistant_obj) (question : string) : M unit :=
  submit_question question ;;
  run_assistant assistant_ ;;
  offer_created_files.

(** Lines 427-443: the reset button. *)
Definition reset_section (i : inputs) : M unit :=
  if reset_clicked i then
    t <- gets thread_id ;;
    match t with
    | Some thread => if Py.truthy t then delete_thread thread else ret tt
    | None => ret tt
    end ;;
    uploaded <- gets file_ids ;;
    match uploaded with
    | [] => ret tt
    | _ => delete_files uploaded
    end ;;
    created <- gets assistant_created_file_ids ;;
    match created with
    | [] => ret tt
    | _ => delete_files created
    end ;;
    modify (set_file_uploaded false) ;;
    modify (set_messages []) ;;
    modify (set_thread_id None) ;;
    modify (set_file_ids []) ;;
    modify (set_assistant_created_file_ids []) ;;
    raise RerunException
  else ret tt.

(** Lines 376-424: the chat input.  The result tells whether [main]
    returns at once (the flagged case) instead of going on to the reset
    button. *)
Definition question_section (assistant_ : assistant_obj) (i : inputs) : M bool :=
  match chat_input i with
  | None => ret false
  | Some question =>
      if String.eqb question "" then ret false
      else
        flagged <- moderation_endpoint question ;;
        if flagged then
          st_error "⚠️ Your question has been flagged. Please try a different question." ;;
          ret true
        else
          answer_question assistant_ question ;;
          ret false
  end.

(** Lines 349-443: the analysis step. *)
Definition analysis_section (assistant_ : assistant_obj) (i : inputs) : M unit :=
  emit (UI (StSubheader "Step 2: Ask Questions About Your Data")) ;;
  ids <- gets file_ids ;;
  emit (UI (StInfo ("📁 " ++ Py.str_nat (List.length ids)
                    ++ " file(s) uploaded and ready for analysis")%string)) ;;
  ensure_thread ;;
  display_history ;;
  returned <- question_section assistant_ i ;;
  if returned then ret tt else reset_section i.

(** [main()]: one run of the script. *)
Definition main (i : inputs) : M unit :=
  emit (UI (StTitle "📊 Data Analysis Assistant")) ;;
  emit (UI (StMarkdown "Upload your dataset and ask questions to analyze it.")) ;;
  assistant_ <- init_assistant ;;
  upload_section i ;;
  uploaded <- gets file_uploaded ;;
  if uploaded then analysis_section assistant_ i else ret tt.

End Program.

(** ** A session: successive runs of the script *)

(** Each run has its own widget values and its own view of the outside;
    the session state is carried from one run to the next, whatever way the
    run ended. *)
Fixpoint session (runs : list (env * inputs)) (s : session_state)
  : session_state * list effect :=
  match runs with
  | [] => (s, [])
  | (e, i) :: runs' =>
      match main e i s with
      | (_, s1, t1) =>
          match session runs' s1 with
          | (s2, t2) => (s2, t1 ++ t2)
          end
      end
  end.

(** ** Vocabulary of the statements *)

(** [sub] occurs in [s]. *)
Definition contains (sub s : string) : Prop :=
  exists pre post, s = (pre ++ sub ++ post)%string.

(** Seconds slept. *)
Fixpoint elapsed (t : list effect) : nat :=
  match t with
  | [] => 0
  | Sleep n :: t' => n + elapsed t'
  | _ :: t' => elapsed t'
  end.

(** The requests put on the queue, and those taken from it, in order. *)
Fixpoint puts (t : list effect) : list response :=
  match t with
  | [] => []
  | QueuePut r :: t' => r :: puts t'
  | _ :: t' => puts t'
  end.

Fixpoint takes (t : list effect) : list response :=
  match t with
  | [] => []
  | QueueGet r :: t' => r :: takes t'
  | _ :: t' => takes t'
  end.

(** The file ids offered by a download button: the buttons rendered. *)
Fixpoint download_buttons (t : list effect) : list widget :=
  match t with
  | [] => []
  | UI (StDownloadButton l d n) :: t' => StDownloadButton l d n :: download_buttons t'
  | _ :: t' => download_buttons t'
  end.

(** Event names that [data_streamer] has a case for. *)
Definition recognized (name : string) : bool :=
  String.eqb name "thread.message.delta"
  || String.eqb name "thread.run.requires_action"
  || String.eqb name "thread.run.failed".

(** Effects on the conversation: a message sent, a run started or resumed,
    a thread created, a queue operation. *)
Definition quiet (x : effect) : Prop :=
  match x with
  | MessagesCreate _ _ _ | RunsStream _ _ _ | SubmitToolOutputsStream _ _ _ _
  | ThreadsCreate _ | QueuePut _ | QueueGet _ => False
  | _ => True
  end.

(** The part of the state that belongs to the conversation is the same. *)
Definition same_conversation (s s' : session_state) : Prop :=
  tool_requests s' = tool_requests s /\ messages s' = messages s
  /\ thread_id s' = thread_id s.

(** [m] performs only effects in [P] and moves the state along [R],
    whether it returns or raises. *)
Definition respects (P : effect -> Prop) (R : session_state -> session_state -> Prop)
  {A} (m : M A) : Prop :=
  forall s, Forall P (snd (m s)) /\ R s (snd (fst (m s))).

(** What a relation between states needs, to be followed along a
    computation. *)
Class Frame (R : session_state -> session_state -> Prop) : Prop := {
  frame_refl : forall s, R s s;
  frame_trans : forall a b c, R a b -> R b c -> R a c
}.

(** ** Inputs named by the statements *)

(** A [thread.message.delta] event carrying one text block. *)
Definition text_delta (value : string) : response :=
  {| event := "thread.message.delta"; data := MessageDeltaData [TextDeltaBlock value] |}.

(** A [thread.message.delta] event carrying one image block. *)
Definition image_delta (file_id : string) : response :=
  {| event := "thread.message.delta"; data := MessageDeltaData [ImageFileDeltaBlock file_id] |}.

(** A [thread.run.requires_action] event. *)
Definition requires_action_event (d : event_data) : response :=
  {| event := "thread.run.requires_action"; data := d |}.

Definition placeholder : item := TextItem "[Running data analysis...]".

(** An outside where every remote call fails. *)
Definition unreachable : env :=
  {| AZURE_ASSISTANT_ID := None;
     AZURE_DEPLOYMENT_NAME := None;
     assistants_retrieve := fun _ => Throws "connection error";
     assistants_create := fun _ => Throws "connection error";
     files_create := fun _ => Throws "connection error";
     files_content := fun _ => Throws "connection error";
     files_retrieve_filename := fun _ => Throws "connection error";
     files_delete := fun _ => Throws "connection error";
     threads_create := Throws "connection error";
     threads_update := fun _ _ => Throws "connection error";
     threads_delete := fun _ => Throws "connection error";
     messages_create := fun _ _ => Throws "connection error";
     messages_list := fun _ => Throws "connection error";
     runs_stream := fun _ _ => Throws "connection error";
     submit_tool_outputs_stream := [];
     moderations_create := fun _ => Throws "connection error";
     image_open := fun _ => Throws "cannot identify image file";
     st_download_button := fun _ _ _ _ => Returns tt;
     recursion_room := 900 |}.

(** An event the consumer has no case for. *)
Definition step_created : response :=
  {| event := "thread.run.step.created"; data := OtherData |}.

(** A message delta whose first block is neither a text nor an image
    file. *)
Definition refusal_delta : response :=
  {| event := "thread.message.delta"; data := MessageDeltaData [OtherDeltaBlock "refusal"] |}.

(** An event that the consumer passes over, yielding nothing: an event
    whose name it has no case for, or a message delta whose first block is
    neither a text nor an image file. *)
Definition passed_over (x : response) : bool :=
  if String.eqb (event x) "thread.message.delta" then
    match data x with
    | MessageDeltaData (OtherDeltaBlock _ :: _) => true
    | _ => false
    end
  else negb (recognized (event x)).

(** The files and threads whose deletion was requested, in order. *)
Fixpoint files_deleted (t : list effect) : list string :=
  match t with
  | [] => []
  | FilesDelete file_id _ :: t' => file_id :: files_deleted t'
  | _ :: t' => files_deleted t'
  end.

Fixpoint threads_deleted (t : list effect) : list string :=
  match t with
  | [] => []
  | ThreadsDelete thread _ :: t' => thread :: threads_deleted t'
  | _ :: t' => threads_deleted t'
  end.

(** The session after the reset: only the queue, the assistant and the last
    stream object are kept. *)
Definition cleared (s : session_state) : session_state :=
  {| tool_requests := tool_requests s; file_uploaded := false; messages := [];
     thread_id := None; file_ids := []; assistant_created_file_ids := [];
     assistant := assistant s; stream := stream s |}.

(** A session in the middle of an analysis. *)
Definition busy_state : session_state :=
  {| tool_requests := []; file_uploaded := true;
     messages := [{| role := "user"; msg_content := TextItem "plot the sales" |}];
     thread_id := Some "thread_1"; file_ids := ["file-in"];
     assistant_created_file_ids := ["file-out"];
     assistant := Some {| asst_id := "asst_1"; asst_name := "Data Analysis Assistant" |};
     stream := [] |}.

Definition press_reset : inputs :=
  {| uploaded_files := []; upload_clicked := false; chat_input := None;
     reset_clicked := true |}.

(** The pair appended for a call whose function name is not registered. *)
Definition error_output (tool : tool_call) : tool_output :=
  {| out_tool_call_id := tool_call_id tool; output := Json.dumps ret_val |}.

(** The arguments of a call are absent or [json.loads] decodes them. *)
Definition decodable (e : env) (tool : tool_call) : Prop :=
  function_arguments tool = ""
  \/ exists v, Json.loads (recursion_room e) (function_arguments tool) = Returns v.

(** The function name is the registered one. *)
Definition registered (tool : tool_call) : Prop := function_name tool = "analyze_data".

(** A call to an unknown function with arguments that are not JSON, and the
    request that carries it. *)
Definition foo_call_bad_arguments : tool_call :=
  {| tool_call_id := "call_1"; function_name := "foo"; function_arguments := "{" |}.

Definition foo_call : tool_call :=
  {| tool_call_id := "call_2"; function_name := "foo"; function_arguments := "{}" |}.

Definition bar_call : tool_call :=
  {| tool_call_id := "call_3"; function_name := "bar"; function_arguments := "" |}.

Definition request_for (calls : list tool_call) : response :=
  requires_action_event
    (RunData {| run_id := "run_1"; run_thread_id := "thread_1";
                required_action := Some calls |}).

(** Effects that submit something to the remote conversation: a message
    sent, a run started, tool outputs submitted. *)
Definition submits (x : effect) : Prop :=
  match x with
  | MessagesCreate _ _ _ | RunsStream _ _ _ | SubmitToolOutputsStream _ _ _ _ => True
  | _ => False
  end.

Definition same_transcript (s s' : session_state) : Prop := messages s' = messages s.

(** Effects that may occur while a run is streamed and its tool requests
    are served: anything but sending a message or creating a thread. *)
Definition in_turn (x : effect) : Prop :=
  match x with
  | MessagesCreate _ _ _ | ThreadsCreate _ => False
  | _ => True
  end.

(** The thread is the same and the transcript has only grown. *)
Definition turn_progress (s s' : session_state) : Prop :=
  thread_id s' = thread_id s /\ exists more, messages s' = messages s ++ more.

Definition flag_warning : string :=
  "⚠️ Your question has been flagged. Please try a different question.".

Definition user_message (question : string) : message :=
  {| role := "user"; msg_content := TextItem question |}.

(** The same outside, except that the moderation call answers [results]. *)
Definition with_moderation (results : string -> reply (list bool)) (e : env) : env :=
  {| AZURE_ASSISTANT_ID := AZURE_ASSISTANT_ID e;
     AZURE_DEPLOYMENT_NAME := AZURE_DEPLOYMENT_NAME e;
     assistants_retrieve := assistants_retrieve e;
     assistants_create := assistants_create e;
     files_create := files_create e;
     files_content := files_content e;
     files_retrieve_filename := files_retrieve_filename e;
     files_delete := files_delete e;
     threads_create := threads_create e;
     threads_update := threads_update e;
     threads_delete := threads_delete e;
     messages_create := messages_create e;
     messages_list := messages_list e;
     runs_stream := runs_stream e;
     submit_tool_outputs_stream := submit_tool_outputs_stream e;
     moderations_create := results;
     image_open := image_open e;
     st_download_button := st_download_button e;
     recursion_room := recursion_room e |}.

(** What [question_section] returns when the turn [run_] was taken. *)
Definition after_turn (run_ : result unit * session_state * list effect)
  (before : list effect) : result bool * session_state * list effect :=
  (match fst (fst run_) with
   | Ok _ => Ok false
   | Raise x => Raise x
   end, snd (fst run_), before ++ snd run_).

Definition ask (question : string) : inputs :=
  {| uploaded_files := []; upload_clicked := false; chat_input := Some question;
     reset_clicked := false |}.

Definition assistant_1 : assistant_obj :=
  {| asst_id := "asst_1"; asst_name := "Data Analysis Assistant" |}.

(** An outside whose moderation flags everything. *)
Definition flagging : env := with_moderation (fun _ => Returns [true]) unreachable.

(** [m] relates the state it starts in, the effects it performs and the
    state it ends in by [J], whether it returns or raises. *)
Definition follows (J : session_state -> list effect -> session_state -> Prop)
  {A} (m : M A) : Prop :=
  forall s, J s (snd (m s)) (snd (fst (m s))).

(** What such a relation needs, to be followed along a computation. *)
Class Track (J : session_state -> list effect -> session_state -> Prop) : Prop := {
  track_nil : forall s, J s [] s;
  track_app : forall s t1 s1 t2 s2, J s t1 s1 -> J s1 t2 s2 -> J s (t1 ++ t2) s2
}.

(** The relation behind [respects P R]. *)
Definition footprint_of (P : effect -> Prop) (R : session_state -> session_state -> Prop)
  (s : session_state) (t : list effect) (s' : session_state) : Prop :=
  Forall P t /\ R s s'.

(** The queue holds what it held, then what was put on it, and nothing was
    taken from it. *)
Definition queue_grows (s : session_state) (t : list effect) (s' : session_state) : Prop :=
  tool_requests s' = tool_requests s ++ puts t /\ takes t = [].

(** The queue is untouched. *)
Definition queue_idle (s : session_state) (t : list effect) (s' : session_state) : Prop :=
  tool_requests s' = tool_requests s /\ puts t = [] /\ takes t = [].

(** Every request taken from the queue is dispatched at once by
    [handle_requires_action], and the outputs, thread and run identifiers it
    returns are submitted to the remote run, which answers. *)
Inductive served (e : env) : list effect -> Prop :=
| served_done t : takes t = [] -> served e t
| served_next pre r s0 s1 outs thread run_ dispatch out post :
    takes pre = [] ->
    handle_requires_action e r s0 = (Ok (outs, thread, run_), s1, dispatch) ->
    served e post ->
    served e (pre ++ QueueGet r :: dispatch
              ++ SubmitToolOutputsStream thread run_ outs (Returns out) :: post).

(** The effects [pre], then the computation. *)
Definition prepend {A} (pre : list effect) (r : result A * session_state * list effect)
  : result A * session_state * list effect :=
  (fst (fst r), snd (fst r), pre ++ snd r).

(** A tool call the assistant may send for the registered function. *)
Definition analyze_call : tool_call :=
  {| tool_call_id := "call_a"; function_name := "analyze_data";
     function_arguments :=
       Json.dumps (Json.Object [("dataset_name", Json.Str "sales");
                                ("question", Json.Str "what are the top products?")]) |}.

(** An outside that accepts the question, asks for one tool call during the
    run and finishes the answer in the follow-up stream. *)
Definition tooling : env :=
  {| AZURE_ASSISTANT_ID := None;
     AZURE_DEPLOYMENT_NAME := None;
     assistants_retrieve := fun _ => Returns assistant_1;
     assistants_create := fun _ => Returns assistant_1;
     files_create := fun _ => Returns "file-in";
     files_content := fun _ => Returns "bytes";
     files_retrieve_filename := fun _ => Returns "chart.png";
     files_delete := fun _ => Returns tt;
     threads_create := Returns "thread_1";
     threads_update := fun _ _ => Returns tt;
     threads_delete := fun _ => Returns tt;
     messages_create := fun _ _ => Returns tt;
     messages_list := fun _ => Returns [];
     runs_stream := fun _ _ =>
       Returns [Event (text_delta "Let me look."); Event (request_for [analyze_call]);
                Event (text_delta "never read")];
     submit_tool_outputs_stream := [Returns [Event (text_delta "Done.")]];
     moderations_create := fun _ => Returns [false];
     image_open := fun _ => Returns "image";
     st_download_button := fun _ _ _ _ => Returns tt;
     recursion_room := 900 |}.

(** An outside that answers the question with a text and a generated image,
    and whose thread lists no attachment. *)
Definition plotting : env :=
  {| AZURE_ASSISTANT_ID := None;
     AZURE_DEPLOYMENT_NAME := None;
     assistants_retrieve := fun _ => Returns assistant_1;
     assistants_create := fun _ => Returns assistant_1;
     files_create := fun _ => Returns "file-in";
     files_content := fun _ => Returns "PNG bytes";
     files_retrieve_filename := fun _ => Returns "chart.png";
     files_delete := fun _ => Returns tt;
     threads_create := Returns "thread_1";
     threads_update := fun _ _ => Returns tt;
     threads_delete := fun _ => Returns tt;
     messages_create := fun _ _ => Returns tt;
     messages_list := fun _ =>
       Returns [{| tm_role := "user"; attachments := Some [] |};
                {| tm_role := "assistant"; attachments := Some [] |}];
     runs_stream := fun _ _ =>
       Returns [Event (text_delta "Here is the chart."); Event (image_delta "file-img")];
     submit_tool_outputs_stream := [];
     moderations_create := fun _ => Returns [false];
     image_open := fun _ => Returns "chart";
     st_download_button := fun _ _ _ _ => Returns tt;
     recursion_room := 900 |}.

(** The thread identifiers returned by thread creations, in order. *)
Fixpoint threads_created (t : list effect) : list string :=
  match t with
  | [] => []
  | ThreadsCreate (Returns id) :: t' => id :: threads_created t'
  | _ :: t' => threads_created t'
  end.

(** Every message of [t] is sent to a thread identifier that is present and
    is one of [known] or was returned by a thread creation earlier in
    [t]. *)
Fixpoint messages_to_known_threads (known : list string) (t : list effect) : Prop :=
  match t with
  | [] => True
  | MessagesCreate thread _ _ :: t' =>
      (exists id, thread = Some id /\ In id known)
      /\ messages_to_known_threads known t'
  | ThreadsCreate (Returns id) :: t' => messages_to_known_threads (known ++ [id]) t'
  | _ :: t' => messages_to_known_threads known t'
  end.

(** Along a computation: if the thread the session holds is known, the
    messages go to known threads and the thread held at the end is known
    too. *)
Definition thread_known (s : session_state) (t : list effect) (s' : session_state) : Prop :=
  forall known,
    (forall id, thread_id s = Some id -> In id known) ->
    messages_to_known_threads known t
    /\ (forall id, thread_id s' = Some id -> In id (known ++ threads_created t)).

(** What [ensure_thread] does in a state without a usable thread
    identifier. *)
Definition thread_creation (e : env) (s : session_state)
  : result unit * session_state * list effect :=
  match threads_create e with
  | Throws msg => (Raise (Error msg), s, [ThreadsCreate (Throws msg)])
  | Returns id =>
      (match threads_update e (Some id) (file_ids s) with
       | Returns _ => Ok tt
       | Throws msg => Raise (Error msg)
       end,
       set_thread_id (Some id) s,
       [ThreadsCreate (Returns id);
        Log INFO ("Created new thread: " ++ id)%string None;
        ThreadsUpdate (Some id) (file_ids s) (threads_update e (Some id) (file_ids s))])
  end.

(** A first run that uploads a file, then a run that asks a question. *)
Definition upload_sales : inputs :=
  {| uploaded_files := [{| upload_name := "sales.csv"; upload_bytes := "a,b" |}];
     upload_clicked := true; chat_input := None; reset_clicked := false |}.

(** ** Vocabulary of the further properties *)

Definition failure_notice : item := TextItem "[Analysis failed. Please try again.]".

(** A stream of text deltas, one per value. *)
Definition text_events (values : list string) : event_stream :=
  map (fun v => Event (text_delta v)) values.

(** The files whose content was fetched, in order. *)
Fixpoint fetched (t : list effect) : list string :=
  match t with
  | [] => []
  | FilesContent file_id (Returns _) :: t' => file_id :: fetched t'
  | _ :: t' => fetched t'
  end.

(** The images among yielded fragments. *)
Fixpoint images (l : list item) : list string :=
  match l with
  | [] => []
  | ImageItem img :: l' => img :: images l'
  | _ :: l' => images l'
  end.

Definition yields (l : list item) : list effect := map Yield l.

(** A [thread.run.failed] event. *)
Definition failed_event (d : event_data) : response :=
  {| event := "thread.run.failed"; data := d |}.

(** The transcript entry for a fragment of the assistant. *)
Definition assistant_message (x : item) : message :=
  {| role := "assistant"; msg_content := x |}.

(** A fragment that [add_message_to_state_session] keeps: anything but the
    empty text. *)
Definition kept (x : item) : bool :=
  match x with
  | TextItem s => negb (String.eqb s "")
  | ImageItem _ => true
  end.

(** Effects that stay inside the process: interface calls, log records and
    sleeps. *)
Definition local_effect (x : effect) : Prop :=
  match x with
  | UI _ | Log _ _ _ | Sleep _ => True
  | _ => False
  end.

(** The texts of a list, put end to end. *)
Definition joined (texts : list string) : string := fold_right String.append "" texts.

(** The mapping the dispatcher builds from the arguments of a call: empty
    when they are absent, decoded otherwise. *)
Definition decoded_arguments (e : env) (tool : tool_call) : reply Json.value :=
  if String.eqb (function_arguments tool) "" then Returns (Json.Object [])
  else Json.loads (recursion_room e) (function_arguments tool).

(** The value gives exactly the two parameters of [analyze_data]. *)
Definition binds_parameters (v : Json.value) : bool :=
  match v with
  | Json.Object d =>
      match Json.dict_get "dataset_name" d, Json.dict_get "question" d with
      | Some _, Some _ => Nat.eqb (List.length d) 2
      | _, _ => false
      end
  | _ => false
  end.

(** The number of calls to the registered function. *)
Definition registered_count (calls : list tool_call) : nat :=
  List.length (filter (fun tool => String.eqb (function_name tool) "analyze_data") calls).

(** A call to the registered function without arguments. *)
Definition analyze_call_no_arguments : tool_call :=
  {| tool_call_id := "call_b"; function_name := "analyze_data"; function_arguments := "" |}.



(** A call to the registered function whose arguments are an integer
    literal of 4301 digits. *)
Definition analyze_call_long_integer : tool_call :=
  {| tool_call_id := "call_l"; function_name := "analyze_data";
     function_arguments := Json.text (repeat "7"%char 4301) |}.

(** The answer of [moderation_endpoint] to a reply of the moderation
    call: the first result when there is one, [False] otherwise. *)
Definition moderation_verdict (r : reply (list bool)) : bool :=
  match r with
  | Returns (flagged :: _) => flagged
  | _ => false
  end.

(** What [delete_files] does for one file: the remote call, then one log
    record, of its success or of its failure. *)
Definition delete_file_trace (e : env) (file_id : string) : list effect :=
  [FilesDelete file_id (files_delete e file_id);
   match files_delete e file_id with
   | Returns _ => Log INFO ("Deleted file: " ++ file_id)%string None
   | Throws msg => Log ERROR ("Error deleting file " ++ file_id ++ ": " ++ msg)%string None
   end].

(** The download button of a file. *)
Definition download_button (file : string * string) : widget :=
  StDownloadButton ("Download " ++ snd file)%string (fst file) (snd file).

(** The identifiers the remote service returns for the files it accepts,
    in upload order; the files it refuses are left out. *)
Fixpoint uploaded_ids (e : env) (files : list uploaded_file) : list string :=
  match files with
  | [] => []
  | file :: files' =>
      match files_create e file with
      | Returns id => id :: uploaded_ids e files'
      | Throws _ => uploaded_ids e files'
      end
  end.

(** The state after an upload attempt that got the identifiers [ids]. *)
Definition after_upload (ids : list string) (s : session_state) : session_state :=
  match ids with
  | [] => set_file_ids [] s
  | _ :: _ => set_file_uploaded true (set_file_ids ids s)
  end.

(** Effects of the steps that come before the analysis: interface calls,
    log records, the lookup or creation of the assistant, file uploads. *)
Definition pre_analysis (x : effect) : Prop :=
  match x with
  | UI _ | Log _ _ _ | AssistantsRetrieve _ _ | AssistantsCreate _ _ | FilesCreate _ _ => True
  | _ => False
  end.

(** The conversation and the uploaded flag are the same. *)
Definition same_step (s s' : session_state) : Prop :=
  file_uploaded s' = file_uploaded s /\ same_conversation s s'.

(** An outside that creates the thread but fails to attach the files. *)
Definition attach_fails : env :=
  {| AZURE_ASSISTANT_ID := None;
     AZURE_DEPLOYMENT_NAME := None;
     assistants_retrieve := fun _ => Returns assistant_1;
     assistants_create := fun _ => Returns assistant_1;
     files_create := fun _ => Returns "file-in";
     files_content := fun _ => Returns "bytes";
     files_retrieve_filename := fun _ => Returns "chart.png";
     files_delete := fun _ => Returns tt;
     threads_create := Returns "thread_1";
     threads_update := fun _ _ => Throws "invalid file";
     threads_delete := fun _ => Returns tt;
     messages_create := fun _ _ => Returns tt;
     messages_list := fun _ => Returns [];
     runs_stream := fun _ _ => Returns [];
     submit_tool_outputs_stream := [];
     moderations_create := fun _ => Returns [false];
     image_open := fun _ => Returns "image";
     st_download_button := fun _ _ _ _ => Returns tt;
     recursion_room := 900 |}.

(** A session just after the upload. *)
Definition uploaded_state : session_state :=
  {| tool_requests := []; file_uploaded := true; messages := [];
     thread_id := None; file_ids := ["file-in"]; assistant_created_file_ids := [];
     assistant := Some assistant_1; stream := [] |}.

(** The queue is the same. *)
Definition same_queue (s s' : session_state) : Prop := tool_requests s' = tool_requests s.

(** A queue that was empty is empty again. *)
Definition queue_cleared (s : session_state) (t : list effect) (s' : session_state) : Prop :=
  tool_requests s = [] -> tool_requests s' = [].

(** The identifiers the remote service returned for uploaded files, in
    order. *)
Fixpoint files_created (t : list effect) : list string :=
  match t with
  | [] => []
  | FilesCreate _ (Returns id) :: t' => id :: files_created t'
  | _ :: t' => files_created t'
  end.

(** Every attachment of files to a thread in [t] carries at least one file,
    and only files that are in [known] or whose identifier was returned by
    an upload earlier in [t]. *)
Fixpoint attaches_known_files (known : list string) (t : list effect) : Prop :=
  match t with
  | [] => True
  | ThreadsUpdate _ files _ :: t' =>
      (files <> [] /\ incl files known) /\ attaches_known_files known t'
  | FilesCreate _ (Returns id) :: t' => attaches_known_files (known ++ [id]) t'
  | _ :: t' => attaches_known_files known t'
  end.

(** The uploaded flag is set only when the session holds file
    identifiers. *)
Definition upload_complete (s : session_state) : Prop :=
  file_uploaded s = true -> file_ids s <> [].

(** Effects other than uploading a file and attaching files to a thread. *)
Definition apart_from_uploads (x : effect) : Prop :=
  match x with
  | FilesCreate _ _ | ThreadsUpdate _ _ _ => False
  | _ => True
  end.

(** The uploaded flag and the file identifiers are the same. *)
Definition same_uploads (s s' : session_state) : Prop :=
  file_uploaded s' = file_uploaded s /\ file_ids s' = file_ids s.

(** Along a computation: if the identifiers the session holds are known and
    the uploaded flag is justified, the same is true at the end and the
    attachments made carry known files. *)
Definition uploads_known (s : session_state) (t : list effect) (s' : session_state) : Prop :=
  forall known,
    incl (file_ids s) known -> upload_complete s ->
    attaches_known_files known t
    /\ incl (file_ids s') (known ++ files_created t)
    /\ upload_complete s'.

(** An assistant's message whose [attachments] field is [None]. *)
Definition lacks_attachments (m : thread_message) : bool :=
  String.eqb (tm_role m) "assistant"
  && match attachments m with None => true | Some _ => false end.

(** The files attached to the assistant's messages, in listing order. *)
Definition assistant_attachments (msgs : list thread_message) : list string :=
  flat_map (fun m =>
              if String.eqb (tm_role m) "assistant" then
                match attachments m with Some ids => ids | None => [] end
              else []) msgs.

(** The same outside, except that the thread lists [msgs]. *)
Definition with_listing (msgs : list thread_message) (e : env) : env :=
  {| AZURE_ASSISTANT_ID := AZURE_ASSISTANT_ID e;
     AZURE_DEPLOYMENT_NAME := AZURE_DEPLOYMENT_NAME e;
     assistants_retrieve := assistants_retrieve e;
     assistants_create := assistants_create e;
     files_create := files_create e;
     files_content := files_content e;
     files_retrieve_filename := files_retrieve_filename e;
     files_delete := files_delete e;
     threads_create := threads_create e;
     threads_update := threads_update e;
     threads_delete := threads_delete e;
     messages_create := messages_create e;
     messages_list := fun _ => Returns msgs;
     runs_stream := runs_stream e;
     submit_tool_outputs_stream := submit_tool_outputs_stream e;
     moderations_create := moderations_create e;
     image_open := image_open e;
     st_download_button := st_download_button e;
     recursion_room := recursion_room e |}.

(** The files that [render_download_files] keeps: those whose content and
    name the remote service gives, each with its position in the list, its
    content and its name. *)
Fixpoint downloads (e : env) (file_id_list : list string) (position : nat)
  : list (nat * string * string) :=
  match file_id_list with
  | [] => []
  | file_id :: rest =>
      match files_content e file_id, files_retrieve_filename e file_id with
      | Returns file, Returns file_name =>
          (position, file, file_name) :: downloads e rest (S position)
      | _, _ => downloads e rest (S position)
      end
  end.

(** Streamlit accepts the download button of a kept file. *)
Definition button_accepted (e : env) (d : nat * string * string) : bool :=
  let '(position, file, file_name) := d in
  match st_download_button e position ("Download " ++ file_name)%string file file_name with
  | Returns _ => true
  | Throws _ => false
  end.

(** The number of records written at error level. *)
Fixpoint error_records (t : list effect) : nat :=
  match t with
  | [] => 0
  | Log ERROR _ _ :: t' => S (error_records t')
  | _ :: t' => error_records t'
  end.

(** An outside where Streamlit refuses the download button of the second
    file of the list. *)
Definition second_button_refused : env :=
  {| AZURE_ASSISTANT_ID := None;
     AZURE_DEPLOYMENT_NAME := None;
     assistants_retrieve := fun _ => Returns assistant_1;
     assistants_create := fun _ => Returns assistant_1;
     files_create := fun _ => Returns "file-in";
     files_content := fun _ => Returns "bytes";
     files_retrieve_filename := fun _ => Returns "chart.png";
     files_delete := fun _ => Returns tt;
     threads_create := Returns "thread_1";
     threads_update := fun _ _ => Returns tt;
     threads_delete := fun _ => Returns tt;
     messages_create := fun _ _ => Returns tt;
     messages_list := fun _ => Returns [];
     runs_stream := fun _ _ => Returns [];
     submit_tool_outputs_stream := [];
     moderations_create := fun _ => Returns [false];
     image_open := fun _ => Returns "image";
     st_download_button := fun position _ _ _ =>
       match position with
       | 1 => Throws "DuplicateWidgetID"
       | _ => Returns tt
       end;
     recursion_room := 900 |}.

(** * Properties *)

(** ** Reasoning rules *)

Lemma bind_run {A B} (m : M A) (k : A -> M B) s :
  bind m k s =
  match m s with
  | (Ok a, s1, t1) => (fst (fst (k a s1)), snd (fst (k a s1)), t1 ++ snd (k a s1))
  | (Raise x, s1, t1) => (Raise x, s1, t1)
  end.
Proof.
  unfold bind. destruct (m s) as [[[a|x] s1] t1]; [|reflexivity].
  destruct (k a s1) as [[r s2] t2]. reflexivity.
Qed.

Lemma bind_inv {A B} (m : M A) (k : A -> M B) s r s' t :
  bind m k s = (r, s', t) ->
  (exists a s1 t1 t2, m s = (Ok a, s1, t1) /\ k a s1 = (r, s', t2) /\ t = t1 ++ t2)
  \/ (exists x, m s = (Raise x, s', t) /\ r = Raise x).
Proof.
  rewrite bind_run. destruct (m s) as [[[a|x] s1] t1]; intros H.
  - left. exists a, s1, t1, (snd (k a s1)).
    destruct (k a s1) as [[r2 s2] t2]. simpl in *. inversion H; subst. auto.
  - right. exists x. inversion H; subst. auto.
Qed.

Section Tracking.

Variable J : session_state -> list effect -> session_state -> Prop.
Context {T : Track J}.

Lemma follows_ret {A} (a : A) : follows J (ret a).
Proof. intros s. apply track_nil. Qed.

Lemma follows_raise {A} x : follows J (@raise A x).
Proof. intros s. apply track_nil. Qed.

Lemma follows_gets {A} (f : session_state -> A) : follows J (gets f).
Proof. intros s. apply track_nil. Qed.

Lemma follows_lift {A} (r : reply A) : follows J (lift r).
Proof. destruct r; [apply follows_ret | apply follows_raise]. Qed.

Lemma follows_emit x : (forall s, J s [x] s) -> follows J (emit x).
Proof. intros H s. apply H. Qed.

Lemma follows_modify f : (forall s, J s [] (f s)) -> follows J (modify f).
Proof. intros H s. apply H. Qed.

(** Sequencing; what follows needs to be known only for the values and
    states the first part can end in. *)
Lemma follows_bind_run {A B} (m : M A) (k : A -> M B) :
  follows J m ->
  (forall s a s1 t1, m s = (Ok a, s1, t1) -> J s1 (snd (k a s1)) (snd (fst (k a s1)))) ->
  follows J (bind m k).
Proof.
  intros Hm Hk s. rewrite bind_run. specialize (Hm s). specialize (Hk s).
  destruct (m s) as [[[a|x] s1] t1]; cbn [fst snd] in *; [|exact Hm].
  eapply track_app; [exact Hm | exact (Hk a s1 t1 eq_refl)].
Qed.

Lemma follows_bind {A B} (m : M A) (k : A -> M B) :
  follows J m -> (forall a, follows J (k a)) -> follows J (bind m k).
Proof. intros Hm Hk. apply follows_bind_run; [exact Hm|]. intros s a s1 t1 _. apply Hk. Qed.

Lemma follows_try_except {A} (m : M A) (h : string -> M A) :
  follows J m -> (forall msg, follows J (h msg)) -> follows J (try_except m h).
Proof.
  intros Hm Hh s. unfold try_except. specialize (Hm s).
  destruct (m s) as [[[a|[msg| | |]] s1] t1]; cbn [fst snd] in *; try exact Hm.
  specialize (Hh msg s1). destruct (h msg s1) as [[r s2] t2]. cbn [fst snd] in *.
  eapply track_app; eassumption.
Qed.

Lemma follows_listen {A} (m : M A) : follows J m -> follows J (listen m).
Proof.
  intros Hm s. unfold listen. specialize (Hm s).
  destruct (m s) as [[[a|x] s1] t1]; exact Hm.
Qed.

Lemma follows_call {A} (r : reply A) (record : reply A -> effect) :
  (forall s, J s [record r] s) -> follows J (call r record).
Proof.
  intros H. unfold call. apply follows_bind.
  - apply follows_emit. exact H.
  - intros _. destruct r; [apply follows_ret | apply follows_raise].
Qed.

Lemma follows_for_each {A} (l : list A) (body : A -> M unit) :
  (forall x, follows J (body x)) -> follows J (for_each l body).
Proof.
  intros H. induction l as [|x l IH]; cbn [for_each].
  - apply follows_ret.
  - apply follows_bind; auto.
Qed.

Lemma follows_st_write_stream (g : M unit) :
  follows J g -> follows J (st_write_stream g).
Proof.
  intros H. unfold st_write_stream. apply follows_bind.
  - apply follows_listen, H.
  - intros [u t]. destruct (gather (yielded (snd (u, t))) "" []) as [|[x|x] [|y l]];
      apply follows_ret.
Qed.

End Tracking.

Lemma follows_weaken (J J' : session_state -> list effect -> session_state -> Prop)
  {A} (m : M A) :
  (forall s t s', J s t s' -> J' s t s') -> follows J m -> follows J' m.
Proof. intros H Hm s. apply H, Hm. Qed.

(** The footprint [respects P R] is the relation "every effect is in [P]
    and the states are related by [R]". *)
#[local] Instance footprint_track (P : effect -> Prop)
  (R : session_state -> session_state -> Prop) {F : Frame R} :
  Track (footprint_of P R).
Proof.
  split.
  - intros s. split; [constructor | apply frame_refl].
  - intros s t1 s1 t2 s2 [H1 H2] [H3 H4]. split.
    + apply Forall_app. auto.
    + eapply frame_trans; eassumption.
Qed.

Section Footprint.

Variable P : effect -> Prop.
Variable R : session_state -> session_state -> Prop.
Context {F : Frame R}.

Lemma respects_ret {A} (a : A) : respects P R (ret a).
Proof. exact (follows_ret (footprint_of P R) a). Qed.

Lemma respects_raise {A} x : respects P R (@raise A x).
Proof. exact (follows_raise (footprint_of P R) x). Qed.

Lemma respects_gets {A} (f : session_state -> A) : respects P R (gets f).
Proof. exact (follows_gets (footprint_of P R) f). Qed.

Lemma respects_lift {A} (r : reply A) : respects P R (lift r).
Proof. exact (follows_lift (footprint_of P R) r). Qed.

Lemma respects_emit x : P x -> respects P R (emit x).
Proof.
  intros H. apply (follows_emit (footprint_of P R)). intros s. split; [auto | apply frame_refl].
Qed.

Lemma respects_modify f : (forall s, R s (f s)) -> respects P R (modify f).
Proof.
  intros H. apply (follows_modify (footprint_of P R)). intros s.
  split; [constructor | apply H].
Qed.

Lemma respects_bind {A B} (m : M A) (k : A -> M B) :
  respects P R m -> (forall a, respects P R (k a)) -> respects P R (bind m k).
Proof. exact (follows_bind (footprint_of P R) m k). Qed.

Lemma respects_bind_run {A B} (m : M A) (k : A -> M B) :
  respects P R m ->
  (forall s a s1 t1, m s = (Ok a, s1, t1) ->
                     Forall P (snd (k a s1)) /\ R s1 (snd (fst (k a s1)))) ->
  respects P R (bind m k).
Proof. exact (follows_bind_run (footprint_of P R) m k). Qed.

Lemma respects_try_except {A} (m : M A) (h : string -> M A) :
  respects P R m -> (forall msg, respects P R (h msg)) -> respects P R (try_except m h).
Proof. exact (follows_try_except (footprint_of P R) m h). Qed.

Lemma respects_listen {A} (m : M A) : respects P R m -> respects P R (listen m).
Proof. exact (follows_listen (footprint_of P R) m). Qed.

Lemma respects_call {A} (r : reply A) (record : reply A -> effect) :
  P (record r) -> respects P R (call r record).
Proof.
  intros H. apply (follows_call (footprint_of P R)). intros s. split; [auto | apply frame_refl].
Qed.

Lemma respects_for_each {A} (l : list A) (body : A -> M unit) :
  (forall x, respects P R (body x)) -> respects P R (for_each l body).
Proof. exact (follows_for_each (footprint_of P R) l body). Qed.

Lemma respects_st_write_stream (g : M unit) :
  respects P R g -> respects P R (st_write_stream g).
Proof. exact (follows_st_write_stream (footprint_of P R) g). Qed.

End Footprint.

Lemma respects_weaken (P P' : effect -> Prop) (R R' : session_state -> session_state -> Prop)
  {A} (m : M A) :
  (forall x, P x -> P' x) -> (forall s s', R s s' -> R' s s') ->
  respects P R m -> respects P' R' m.
Proof.
  intros HP HR H s. destruct (H s) as [Ht Hs]. split; [|auto].
  eapply Forall_impl; eauto.
Qed.

(** Walks through a computation built from the combinators; what is left
    are the calls to functions of the program. *)
Ltac footprint_step :=
  match goal with
  | |- Frame _ => typeclasses eauto
  | H : respects ?P ?R ?m |- respects ?P ?R ?m => exact H
  | H : forall _, respects _ _ _ |- respects _ _ _ => apply H
  | H : forall _ _, respects _ _ _ |- respects _ _ _ => apply H
  | |- respects _ _ (ret _) => apply respects_ret
  | |- respects _ _ (raise _) => apply respects_raise
  | |- respects _ _ (gets _) => apply respects_gets
  | |- respects _ _ (lift _) => apply respects_lift
  | |- respects _ _ (bind _ _) => apply respects_bind
  | |- respects _ _ (try_except _ _) => apply respects_try_except
  | |- respects _ _ (for_each _ _) => apply respects_for_each
  | |- respects _ _ (st_write_stream _) => apply respects_st_write_stream
  | |- respects _ _ (call _ _) => apply respects_call
  | |- respects _ _ (emit _) => apply respects_emit
  | |- respects _ _ (modify _) => apply respects_modify
  | |- respects _ _ (match ?x with _ => _ end) => destruct x
  | |- respects _ _ _ => fail 1
  | |- forall _, _ => intro
  | |- _ => solve [ exact I | simpl; tauto | hnf; simpl; intuition (auto; congruence) ]
  end.

Ltac footprint := repeat footprint_step.

#[local] Instance same_conversation_frame : Frame same_conversation.
Proof.
  split.
  - intros s. hnf. auto.
  - intros a b c (H1 & H2 & H3) (H4 & H5 & H6). hnf.
    repeat split; congruence.
Qed.

(** ** Functions that leave the conversation alone *)

Lemma quiet_analyze_data d q : respects quiet same_conversation (analyze_data d q).
Proof. unfold analyze_data. footprint. Qed.

Lemma quiet_handle_tool_call e tool outs :
  respects quiet same_conversation (handle_tool_call e tool outs).
Proof.
  unfold handle_tool_call, analyze_data_kwargs, logger_info. footprint;
    apply quiet_analyze_data.
Qed.

Lemma quiet_handle_tool_calls e calls outs :
  respects quiet same_conversation (handle_tool_calls e calls outs).
Proof.
  revert outs. induction calls as [|tool calls IH]; intros outs; simpl.
  - footprint.
  - footprint. apply quiet_handle_tool_call.
Qed.

Lemma quiet_handle_requires_action e request :
  respects quiet same_conversation (handle_requires_action e request).
Proof.
  unfold handle_requires_action. footprint. apply quiet_handle_tool_calls.
Qed.

Lemma quiet_moderation_endpoint e q :
  respects quiet same_conversation (moderation_endpoint e q).
Proof. unfold moderation_endpoint, logger_error. footprint. Qed.

Lemma quiet_delete_files e l : respects quiet same_conversation (delete_files e l).
Proof. unfold delete_files, logger_info, logger_error. footprint. Qed.

Lemma quiet_delete_thread e t : respects quiet same_conversation (delete_thread e t).
Proof. unfold delete_thread, logger_info, logger_error. footprint. Qed.

Lemma quiet_retrieve_assistant_created_files e t :
  respects quiet same_conversation (retrieve_assistant_created_files e t).
Proof. unfold retrieve_assistant_created_files, logger_error. footprint. Qed.

Lemma quiet_render_each e l : forall n a b,
  respects quiet same_conversation (render_each e l n a b).
Proof.
  induction l as [|x l IH]; intros n a b; simpl.
  - footprint.
  - unfold logger_error, st_download_button_at. footprint. apply IH.
Qed.

Lemma quiet_render_download_files e l :
  respects quiet same_conversation (render_download_files e l).
Proof. unfold render_download_files. footprint; apply quiet_render_each. Qed.

Lemma quiet_init_assistant e : respects quiet same_conversation (init_assistant e).
Proof. unfold init_assistant, logger_info. footprint. Qed.

Lemma quiet_upload_section e i : respects quiet same_conversation (upload_section e i).
Proof. unfold upload_section, logger_info, st_error. footprint. Qed.

Lemma quiet_display_history : respects quiet same_conversation display_history.
Proof. unfold display_history. footprint. Qed.

(** ** The event stream consumer *)

(** C1.  On the events [message.delta "A"], [message.delta "B"],
    [run.requires_action], the consumer returns normally having yielded
    exactly the fragments "A" and "B", in this order, and having put exactly
    one request, the requires-action event, at the back of the queue; the
    stream is used up and no placeholder is yielded. *)
Theorem data_streamer_two_deltas_then_action (e : env) (s : session_state) (d : event_data) :
  let ev := requires_action_event d in
  let run_ := data_streamer e
                (set_stream [Event (text_delta "A"); Event (text_delta "B"); Event ev] s) in
  fst (fst run_) = Ok tt
  /\ yielded (snd run_) = [TextItem "A"; TextItem "B"]
  /\ puts (snd run_) = [ev]
  /\ tool_requests (snd (fst run_)) = tool_requests s ++ [ev]
  /\ stream (snd (fst run_)) = [].
Proof.
  cbv zeta. repeat split.
Qed.

(** An event that is passed over leaves no trace: the loop goes on with the
    next event and the same [content_produced]. *)
Lemma data_streamer_loop_passes_over e x rest cp s :
  passed_over x = true ->
  data_streamer_loop e (Event x :: rest) cp s
  = data_streamer_loop e rest cp (set_stream rest s).
Proof.
  unfold passed_over, recognized. intros H. cbn [data_streamer_loop].
  destruct (String.eqb (event x) "thread.message.delta").
  - destruct (data x) as [[|[v|f|ty] more]| |]; try discriminate.
    rewrite bind_run. cbn.
    destruct (data_streamer_loop e rest cp (set_stream rest s)) as [[r s'] t].
    reflexivity.
  - cbn [orb] in H. apply negb_true_iff in H. apply orb_false_elim in H as [H2 H3].
    rewrite H2, H3, bind_run. cbn.
    destruct (data_streamer_loop e rest cp (set_stream rest s)) as [[r s'] t].
    reflexivity.
Qed.

(** A requires-action event met before any content was produced. *)
Lemma data_streamer_loop_requires_action e r rest s :
  event r = "thread.run.requires_action" ->
  data_streamer_loop e (Event r :: rest) false s
  = (Ok tt, set_tool_requests (tool_requests s ++ [r]) (set_stream rest s),
     [Log INFO "Run requires action: " (Some (LResponse r)); QueuePut r; Yield placeholder]).
Proof.
  intros H. cbn [data_streamer_loop]. rewrite H. reflexivity.
Qed.

Lemma data_streamer_loop_skips e ignored r rest s :
  Forall (fun x => passed_over x = true) ignored ->
  event r = "thread.run.requires_action" ->
  data_streamer_loop e (map Event ignored ++ Event r :: rest) false s
  = (Ok tt, set_tool_requests (tool_requests s ++ [r]) (set_stream rest s),
     [Log INFO "Run requires action: " (Some (LResponse r)); QueuePut r; Yield placeholder]).
Proof.
  intros Hi Hr. revert s. induction Hi as [|x ignored Hx Hi IH]; intros s.
  - apply data_streamer_loop_requires_action, Hr.
  - cbn [map app]. rewrite data_streamer_loop_passes_over by exact Hx.
    rewrite IH. reflexivity.
Qed.

(** C7.  When the requires-action event [r] comes before any text or image
    was yielded, that is after events that were all passed over (events of
    unrecognized names, and message deltas whose first block is neither a
    text nor an image file), the consumer puts [r] on the queue, yields the
    placeholder and nothing else, and returns with the events after [r]
    still in the stream.  An event that is passed over, in particular any
    event of unrecognized name, is skipped: the loop continues with the
    events that follow it, in the same state and with the same
    [content_produced]. *)
Theorem data_streamer_requires_action_without_content
  (e : env) (s : session_state) (ignored : list response) (r x : response)
  (rest : event_stream) (content_produced : bool) :
  Forall (fun y => passed_over y = true) ignored ->
  event r = "thread.run.requires_action" ->
  passed_over x = true ->
  (let run_ := data_streamer e (set_stream (map Event ignored ++ Event r :: rest) s) in
   fst (fst run_) = Ok tt
   /\ yielded (snd run_) = [placeholder]
   /\ puts (snd run_) = [r]
   /\ snd (fst run_) = set_tool_requests (tool_requests s ++ [r]) (set_stream rest s))
  /\ data_streamer_loop e (Event x :: rest) content_produced s
     = data_streamer_loop e rest content_produced (set_stream rest s)
  /\ (forall y, recognized (event y) = false -> passed_over y = true).
Proof.
  intros Hi Hr Hx. split; [|split].
  - unfold data_streamer, bind, gets, emit. cbn [stream set_stream].
    rewrite (data_streamer_loop_skips e ignored r rest _ Hi Hr). cbn. auto.
  - apply data_streamer_loop_passes_over, Hx.
  - intros y Hy. unfold passed_over, recognized in *.
    apply orb_false_elim in Hy as [Hy H3]. apply orb_false_elim in Hy as [H1 H2].
    rewrite H1, H2, H3. reflexivity.
Qed.

Lemma data_streamer_requires_action_without_content_witness :
  (let run_ := data_streamer unreachable
                 (set_stream (map Event [step_created; refusal_delta; step_created]
                              ++ Event (requires_action_event OtherData)
                                 :: [Event (text_delta "late")]) initial_state) in
   fst (fst run_) = Ok tt
   /\ yielded (snd run_) = [placeholder]
   /\ puts (snd run_) = [requires_action_event OtherData]
   /\ snd (fst run_)
      = set_tool_requests (tool_requests initial_state ++ [requires_action_event OtherData])
          (set_stream [Event (text_delta "late")] initial_state))
  /\ data_streamer_loop unreachable (Event refusal_delta :: [Event (text_delta "late")])
       true initial_state
     = data_streamer_loop unreachable [Event (text_delta "late")] true
         (set_stream [Event (text_delta "late")] initial_state)
  /\ (forall y, recognized (event y) = false -> passed_over y = true).
Proof.
  apply (data_streamer_requires_action_without_content unreachable initial_state
           [step_created; refusal_delta; step_created] (requires_action_event OtherData)
           refusal_delta [Event (text_delta "late")] true).
  - repeat constructor.
  - reflexivity.
  - reflexivity.
Defined.

(** ** The placeholder tool *)

(** C8.  Called on "sales" and "what are the top products?", [analyze_data]
    returns, in every state and leaving the state as it was, one and the
    same string, which contains both arguments, after sleeping two
    seconds. *)
Theorem analyze_data_sales_top_products (s : session_state) :
  let out := "Analysis of sales complete. The answer to 'what are the top products?' is in the generated visualizations and data." in
  analyze_data "sales" "what are the top products?" s = (Ok out, s, [Sleep 2])
  /\ contains "sales" out
  /\ contains "what are the top products?" out
  /\ 0 < elapsed (snd (analyze_data "sales" "what are the top products?" s)).
Proof.
  cbv zeta. split; [reflexivity|]. split; [|split].
  - exists "Analysis of ", " complete. The answer to 'what are the top products?' is in the generated visualizations and data.". reflexivity.
  - exists "Analysis of sales complete. The answer to '", "' is in the generated visualizations and data.". reflexivity.
  - cbn. lia.
Qed.

(** ** Running a computation step by step *)

Lemma bind_ok {A B} (m : M A) (k : A -> M B) s a s1 t1 :
  m s = (Ok a, s1, t1) ->
  bind m k s = (fst (fst (k a s1)), snd (fst (k a s1)), t1 ++ snd (k a s1)).
Proof. intros H. rewrite bind_run, H. reflexivity. Qed.

Lemma bind_raises {A B} (m : M A) (k : A -> M B) s x s1 t1 :
  m s = (Raise x, s1, t1) -> bind m k s = (Raise x, s1, t1).
Proof. intros H. rewrite bind_run, H. reflexivity. Qed.

Lemma bind_gets {A B} (f : session_state -> A) (k : A -> M B) s :
  bind (gets f) k s = k (f s) s.
Proof. rewrite bind_run. cbn. destruct (k (f s) s) as [[r s2] t2]. reflexivity. Qed.

Lemma bind_modify {B} f (k : unit -> M B) s :
  bind (modify f) k s = k tt (f s).
Proof. rewrite bind_run. cbn. destruct (k tt (f s)) as [[r s2] t2]. reflexivity. Qed.

Lemma bind_emit {B} x (k : unit -> M B) s :
  bind (emit x) k s = (fst (fst (k tt s)), snd (fst (k tt s)), x :: snd (k tt s)).
Proof. rewrite bind_run. reflexivity. Qed.

Lemma bind_ret {A B} (a : A) (k : A -> M B) s :
  bind (ret a) k s = k a s.
Proof. rewrite bind_run. cbn. destruct (k a s) as [[r s2] t2]. reflexivity. Qed.

(** ** The reset action *)

Lemma files_deleted_app t1 t2 : files_deleted (t1 ++ t2) = files_deleted t1 ++ files_deleted t2.
Proof.
  induction t1 as [|x t1 IH]; [reflexivity|].
  destruct x; simpl; rewrite ?IH; reflexivity.
Qed.

Lemma threads_deleted_app t1 t2 :
  threads_deleted (t1 ++ t2) = threads_deleted t1 ++ threads_deleted t2.
Proof.
  induction t1 as [|x t1 IH]; [reflexivity|].
  destruct x; simpl; rewrite ?IH; reflexivity.
Qed.

(** [delete_thread] returns whatever the remote call does, and keeps the
    state. *)
Lemma delete_thread_run e thread s :
  exists t, delete_thread e thread s = (Ok tt, s, t)
            /\ threads_deleted t = [thread] /\ files_deleted t = [].
Proof.
  unfold delete_thread, try_except, call, bind, emit, logger_info, logger_error.
  destruct (threads_delete e thread); cbn; eexists; repeat split.
Qed.

(** [delete_files] goes through the whole list whatever the remote calls
    do, and keeps the state. *)
Lemma delete_files_run e l s :
  exists t, delete_files e l s = (Ok tt, s, t)
            /\ files_deleted t = l /\ threads_deleted t = [].
Proof.
  unfold delete_files. induction l as [|x l IH]; cbn [for_each].
  - exists []. repeat split.
  - destruct IH as (t & Ht & Hf & Hd).
    match goal with
    | |- context [bind ?b _] =>
        assert (Hb : exists tb, b s = (Ok tt, s, tb)
                                /\ files_deleted tb = [x] /\ threads_deleted tb = [])
    end.
    { unfold try_except, call, bind, emit, logger_info, logger_error.
      destruct (files_delete e x); cbn; eexists; repeat split. }
    destruct Hb as (tb & Hb & Hfb & Hdb).
    rewrite bind_run, Hb. cbn [fst snd]. rewrite Ht. cbn [fst snd].
    eexists. split; [reflexivity|].
    rewrite files_deleted_app, threads_deleted_app, Hf, Hd, Hfb, Hdb. auto.
Qed.

(** C5.  The reset action always ends, by asking for a rerun, in the
    cleared session: empty transcript, no thread identifier, no uploaded and
    no generated file identifier, uploaded flag false.  This holds in every
    state and for every behaviour of the remote delete calls; the deletion
    of the thread (when its identifier is non-empty) and of every tracked
    file was requested. *)
Theorem reset_clears_session (e : env) (i : inputs) (s : session_state) :
  reset_clicked i = true ->
  let run_ := reset_section e i s in
  fst (fst run_) = Raise RerunException
  /\ snd (fst run_) = cleared s
  /\ files_deleted (snd run_) = file_ids s ++ assistant_created_file_ids s
  /\ threads_deleted (snd run_)
     = match thread_id s with
       | Some thread => if Py.truthy (Some thread) then [thread] else []
       | None => []
       end.
Proof.
  intros Hi. unfold reset_section. rewrite Hi. cbv zeta.
  rewrite bind_gets.
  assert (Ht : exists t,
             (match thread_id s with
              | Some thread =>
                  if Py.truthy (thread_id s) then delete_thread e thread else ret tt
              | None => ret tt
              end) s = (Ok tt, s, t)
             /\ files_deleted t = []
             /\ threads_deleted t
                = match thread_id s with
                  | Some thread => if Py.truthy (Some thread) then [thread] else []
                  | None => []
                  end).
  { destruct (thread_id s) as [thread|]; [|exists []; auto].
    destruct (Py.truthy (Some thread)); [|exists []; auto].
    destruct (delete_thread_run e thread s) as (t & H1 & H2 & H3). exists t. auto. }
  destruct Ht as (t0 & Ht0 & Hf0 & Hd0).
  assert (Hdel : forall l, exists t,
             (match l with [] => ret tt | _ :: _ => delete_files e l end) s = (Ok tt, s, t)
             /\ files_deleted t = l /\ threads_deleted t = []).
  { intros l. destruct l as [|x l]; [exists []; auto|]. apply delete_files_run. }
  destruct (Hdel (file_ids s)) as (t1 & Ht1 & Hf1 & Hd1).
  destruct (Hdel (assistant_created_file_ids s)) as (t2 & Ht2 & Hf2 & Hd2).
  rewrite (bind_ok _ _ _ _ _ _ Ht0), bind_gets.
  rewrite (bind_ok _ _ _ _ _ _ Ht1), bind_gets.
  rewrite (bind_ok _ _ _ _ _ _ Ht2).
  cbn. rewrite !app_nil_r. repeat split.
  - rewrite !files_deleted_app, Hf0, Hf1, Hf2. reflexivity.
  - rewrite !threads_deleted_app, Hd0, Hd1, Hd2, !app_nil_r. reflexivity.
Qed.

Lemma reset_clears_session_witness :
  let run_ := reset_section unreachable press_reset busy_state in
  fst (fst run_) = Raise RerunException
  /\ snd (fst run_) = cleared busy_state
  /\ files_deleted (snd run_) = ["file-in"; "file-out"]
  /\ threads_deleted (snd run_) = ["thread_1"].
Proof.
  apply (reset_clears_session unreachable press_reset busy_state). reflexivity.
Defined.

(** ** The tool dispatcher *)

(** The payload built for an unknown function decodes to an object whose
    [status] is "error" and which has a [message]. *)
Lemma ret_val_roundtrip room : Json.loads (S room) (Json.dumps ret_val) = Returns ret_val.
Proof. vm_compute. reflexivity. Qed.

(** The decoder at the limits of the interpreter: an integer literal of
    4300 digits is read and one of 4301 digits is refused; with room for
    three levels, arrays nested three deep are read and arrays nested four
    deep are refused, closed or not. *)
Lemma loads_limits (room : nat) :
  (exists n, Json.loads room (Json.text (repeat "7"%char 4300)) = Returns (Json.Int n))
  /\ Json.loads room (Json.text (repeat "7"%char 4301))
     = Throws "ValueError: Exceeds the limit (4300 digits) for integer string conversion"
  /\ Json.loads 3 "[[[]]]" = Returns (Json.Array [Json.Array [Json.Array []]])
  /\ Json.loads 3 "[[[[]]]]" = Throws (Json.recursion_error "array")
  /\ Json.loads 3 "[[[[" = Throws (Json.recursion_error "array").
Proof.
  split; [eexists; vm_compute; reflexivity|]. repeat split; vm_compute; reflexivity.
Qed.

Lemma handle_tool_call_unknown e tool outs s :
  ~ registered tool -> decodable e tool ->
  handle_tool_call e tool outs s
  = (Ok (outs ++ [error_output tool]), s,
     [Log ERROR ("Unrecognized function name: " ++ function_name tool ++ ". Tool: ")%string
          (Some (LTool tool))]).
Proof.
  unfold registered, decodable, handle_tool_call. intros Hn Hd.
  destruct (String.eqb_spec (function_name tool) "analyze_data") as [E|_]; [contradiction|].
  destruct (String.eqb_spec (function_arguments tool) "") as [_|Hne].
  - reflexivity.
  - destruct Hd as [Hd|[v Hd]]; [contradiction|]. rewrite Hd. reflexivity.
Qed.

(** Whatever the call, when its step returns it has appended one pair
    carrying the call's identifier, the error payload if the function is
    unknown. *)
Lemma handle_tool_call_appends e tool outs s outs' s' t :
  handle_tool_call e tool outs s = (Ok outs', s', t) ->
  exists o, outs' = outs ++ [o] /\ out_tool_call_id o = tool_call_id tool
            /\ (~ registered tool -> o = error_output tool).
Proof.
  unfold handle_tool_call, registered. intros H.
  apply bind_inv in H as [(v & s1 & t1 & t2 & _ & H & _)|(x & _ & Hx)]; [|discriminate].
  destruct (String.eqb_spec (function_name tool) "analyze_data") as [E|Hn].
  - apply bind_inv in H as [(u & s2 & t3 & t4 & _ & H & _)|(x & _ & Hx)]; [|discriminate].
    apply bind_inv in H as [(a & s3 & t5 & t6 & _ & H & _)|(x & _ & Hx)]; [|discriminate].
    inversion H; subst. eexists. repeat split. intros Hc. contradiction.
  - apply bind_inv in H as [(u & s2 & t3 & t4 & _ & H & _)|(x & _ & Hx)]; [|discriminate].
    inversion H; subst. eexists. repeat split.
Qed.

Lemma handle_tool_calls_appends e calls : forall outs s outs' s' t,
  handle_tool_calls e calls outs s = (Ok outs', s', t) ->
  exists new, outs' = outs ++ new
              /\ map out_tool_call_id new = map tool_call_id calls
              /\ Forall2 (fun tool o => ~ registered tool -> o = error_output tool) calls new.
Proof.
  induction calls as [|tool calls IH]; intros outs s outs' s' t H; cbn [handle_tool_calls] in H.
  - inversion H; subst. exists []. rewrite app_nil_r. repeat split. constructor.
  - apply bind_inv in H as [(o1 & s1 & t1 & t2 & H1 & H2 & _)|(x & _ & Hx)]; [|discriminate].
    apply handle_tool_call_appends in H1 as (o & -> & Hid & Ho).
    apply IH in H2 as (new & -> & Hids & Hall).
    exists (o :: new). rewrite <- app_assoc. repeat split.
    + cbn. congruence.
    + constructor; assumption.
Qed.

Lemma handle_tool_calls_unknown e calls : forall outs s,
  Forall (fun tool => ~ registered tool /\ decodable e tool) calls ->
  exists t, handle_tool_calls e calls outs s = (Ok (outs ++ map error_output calls), s, t).
Proof.
  induction calls as [|tool calls IH]; intros outs s H; cbn [handle_tool_calls].
  - exists []. cbn. rewrite app_nil_r. reflexivity.
  - inversion H as [|? ? [Hn Hd] Hrest]; subst.
    destruct (IH (outs ++ [error_output tool]) s Hrest) as (t & Ht).
    rewrite (bind_ok _ _ _ _ _ _ (handle_tool_call_unknown e tool outs s Hn Hd)), Ht.
    cbn. rewrite <- app_assoc. eexists. reflexivity.
Qed.

(** C6 as stated fails: an unknown function name with arguments that
    are not JSON makes the dispatcher raise, because the arguments are
    decoded before the name is looked up. *)
Lemma unknown_function_bad_arguments_raises :
  ~ registered foo_call_bad_arguments
  /\ handle_requires_action tooling (request_for [foo_call_bad_arguments]) initial_state
     = (Raise (Error "JSONDecodeError"), initial_state,
        [UI (StToast "Running data analysis...")]).
Proof. split; [discriminate | vm_compute; reflexivity]. Qed.

(** C6, amended.  A call to a function that is not registered and whose
    arguments are absent or decode does not raise: its step appends the pair
    of the call's identifier and of the error payload, and this payload
    decodes to an object with [status] equal to "error" and a [message].
    Whenever the dispatcher returns, it returns the thread and run
    identifiers of the request and one pair per call, in call order, the
    error pair for every unregistered call; it does return when all the
    calls of the request are of the kind above. *)
Theorem unknown_function_gets_error_payload
  (e : env) (request : response) (d : run) (calls : list tool_call) (tool : tool_call)
  (outs : list tool_output) (s : session_state) :
  ~ registered tool -> decodable e tool ->
  data request = RunData d -> required_action d = Some calls ->
  (exists t, handle_tool_call e tool outs s = (Ok (outs ++ [error_output tool]), s, t))
  /\ (exists members,
        (forall room, Json.loads (S room) (output (error_output tool))
                      = Returns (Json.Object members))
        /\ Json.dict_get "status" members = Some (Json.Str "error")
        /\ Json.dict_get "message" members <> None)
  /\ (forall r thread run_ s' t,
        handle_requires_action e request s = (Ok (r, thread, run_), s', t) ->
        thread = run_thread_id d /\ run_ = run_id d
        /\ map out_tool_call_id r = map tool_call_id calls
        /\ Forall2 (fun c o => ~ registered c -> o = error_output c) calls r)
  /\ (Forall (fun c => ~ registered c /\ decodable e c) calls ->
      exists t, handle_requires_action e request s
                = (Ok (map error_output calls, run_thread_id d, run_id d), s, t)).
Proof.
  intros Hn Hd Hdata Hcalls. split; [|split; [|split]].
  - eexists. apply handle_tool_call_unknown; assumption.
  - cbn [error_output output]. eexists. split; [intros room; apply ret_val_roundtrip|].
    split; [reflexivity | discriminate].
  - intros r thread run_ s' t H. unfold handle_requires_action in H.
    rewrite bind_emit, Hdata, Hcalls in H.
    destruct (bind _ _ s) as [[res s2] t2] eqn:E in H. cbn [fst snd] in H.
    inversion H; subst. clear H.
    apply bind_inv in E as [(o1 & s1 & t1 & t3 & H1 & H2 & _)|(x & _ & Hx)]; [|discriminate].
    apply handle_tool_calls_appends in H1 as (new & -> & Hids & Hall).
    rewrite bind_emit in H2. cbn in H2. inversion H2; subst. auto.
  - intros Hall. unfold handle_requires_action.
    rewrite bind_emit, Hdata, Hcalls.
    destruct (handle_tool_calls_unknown e calls [] s Hall) as (t & Ht).
    rewrite (bind_ok _ _ _ _ _ _ Ht). cbn. eexists. reflexivity.
Qed.

Lemma unknown_function_gets_error_payload_witness :
  exists t, handle_requires_action tooling (request_for [foo_call; bar_call]) initial_state
            = (Ok ([error_output foo_call; error_output bar_call], "thread_1", "run_1"),
               initial_state, t).
Proof.
  assert (Hfoo : ~ registered foo_call) by discriminate.
  assert (Hbar : ~ registered bar_call) by discriminate.
  assert (Dfoo : decodable tooling foo_call) by (right; exists (Json.Object []); reflexivity).
  assert (Dbar : decodable tooling bar_call) by (left; reflexivity).
  apply (unknown_function_gets_error_payload tooling (request_for [foo_call; bar_call])
           {| run_id := "run_1"; run_thread_id := "thread_1";
              required_action := Some [foo_call; bar_call] |}
           [foo_call; bar_call] foo_call [] initial_state Hfoo Dfoo eq_refl eq_refl).
  constructor; [split; assumption|]. constructor; [split; assumption|]. constructor.
Defined.

(** ** Moderation *)

#[local] Instance same_transcript_frame : Frame same_transcript.
Proof. split; unfold same_transcript; intros; congruence. Qed.

#[local] Instance turn_progress_frame : Frame turn_progress.
Proof.
  split.
  - intros s. split; [reflexivity|]. exists []. symmetry. apply app_nil_r.
  - intros a b c [H1 [m1 H2]] [H3 [m2 H4]]. split; [congruence|].
    exists (m1 ++ m2). rewrite H4, H2. symmetry. apply app_assoc.
Qed.

Lemma quiet_not_submits x : quiet x -> ~ submits x.
Proof. destruct x; simpl; tauto. Qed.

Lemma quiet_in_turn x : quiet x -> in_turn x.
Proof. destruct x; simpl; tauto. Qed.

Lemma same_conversation_transcript s s' : same_conversation s s' -> same_transcript s s'.
Proof. intros (_ & H & _). exact H. Qed.

Lemma same_conversation_progress s s' : same_conversation s s' -> turn_progress s s'.
Proof.
  intros (_ & H & H'). split; [exact H'|]. exists []. rewrite H. symmetry. apply app_nil_r.
Qed.

Lemma no_submit_of_quiet {A} (m : M A) :
  respects quiet same_conversation m -> respects (fun x => ~ submits x) same_transcript m.
Proof.
  apply respects_weaken; [apply quiet_not_submits | apply same_conversation_transcript].
Qed.

Lemma in_turn_of_quiet {A} (m : M A) :
  respects quiet same_conversation m -> respects in_turn turn_progress m.
Proof.
  apply respects_weaken; [apply quiet_in_turn | apply same_conversation_progress].
Qed.

Lemma ensure_thread_no_submit e :
  respects (fun x => ~ submits x) same_transcript (ensure_thread e).
Proof. unfold ensure_thread, logger_info. footprint. Qed.

(** The moderation check on a flagged question. *)
Lemma moderation_endpoint_flagged e q more s :
  moderations_create e q = Returns (true :: more) ->
  moderation_endpoint e q s = (Ok true, s, [ModerationsCreate q (Returns (true :: more))]).
Proof.
  intros H. unfold moderation_endpoint, try_except, call, bind, emit. rewrite H. reflexivity.
Qed.

Lemma question_section_flagged e a i q more s :
  chat_input i = Some q -> q <> "" ->
  moderations_create e q = Returns (true :: more) ->
  question_section e a i s
  = (Ok true, s, [ModerationsCreate q (Returns (true :: more)); UI (StError flag_warning)]).
Proof.
  intros Hi Hq H. unfold question_section. rewrite Hi.
  destruct (String.eqb_spec q "") as [E|_]; [contradiction|].
  rewrite (bind_ok _ _ _ _ _ _ (moderation_endpoint_flagged e q more s H)). reflexivity.
Qed.

(** C4.  When the moderation check flags the question, the chat step
    changes nothing in the session and performs, after the moderation call,
    only the warning shown to the user, and [main] returns there.  Over the
    whole run of [main] the transcript is the one the run started with, and
    no message is created, no run stream opened and no tool output
    submitted. *)
Theorem flagged_question_is_dropped
  (e : env) (i : inputs) (q : string) (more : list bool) (a : assistant_obj)
  (s : session_state) :
  chat_input i = Some q -> q <> "" ->
  moderations_create e q = Returns (true :: more) ->
  question_section e a i s
  = (Ok true, s, [ModerationsCreate q (Returns (true :: more)); UI (StError flag_warning)])
  /\ messages (snd (fst (main e i s))) = messages s
  /\ Forall (fun x => ~ submits x) (snd (main e i s)).
Proof.
  intros Hi Hq H. split; [apply question_section_flagged; assumption|].
  assert (Htail : forall a',
             respects (fun x => ~ submits x) same_transcript
               (returned <- question_section e a' i ;;
                if returned then ret tt else reset_section e i)).
  { intros a'. apply respects_bind_run.
    - typeclasses eauto.
    - intros s0. rewrite (question_section_flagged e a' i q more s0 Hi Hq H). cbn.
      split; [|reflexivity]. repeat constructor; simpl; tauto.
    - intros s0 r s1 t1 E.
      rewrite (question_section_flagged e a' i q more s0 Hi Hq H) in E.
      inversion E; subst. cbn. split; [constructor | reflexivity]. }
  assert (Hmain : respects (fun x => ~ submits x) same_transcript (main e i)).
  { unfold main, analysis_section. footprint.
    - apply no_submit_of_quiet, quiet_init_assistant.
    - apply no_submit_of_quiet, quiet_upload_section.
    - apply ensure_thread_no_submit.
    - apply no_submit_of_quiet, quiet_display_history. }
  destruct (Hmain s) as [Ht Hs]. split; [exact Hs | exact Ht].
Qed.

Lemma flagged_question_is_dropped_witness :
  question_section flagging assistant_1 (ask "something harmful") busy_state
  = (Ok true, busy_state,
     [ModerationsCreate "something harmful" (Returns [true]); UI (StError flag_warning)])
  /\ messages (snd (fst (main flagging (ask "something harmful") busy_state)))
     = messages busy_state
  /\ Forall (fun x => ~ submits x) (snd (main flagging (ask "something harmful") busy_state)).
Proof.
  apply (flagged_question_is_dropped flagging (ask "something harmful")
           "something harmful" [] assistant_1 busy_state).
  - reflexivity.
  - discriminate.
  - reflexivity.
Defined.

(** ** What a turn can touch *)

Lemma turn_progress_same s s' :
  thread_id s' = thread_id s -> messages s' = messages s -> turn_progress s s'.
Proof. intros H1 H2. split; [exact H1|]. exists []. rewrite H2. symmetry. apply app_nil_r. Qed.

Lemma data_streamer_loop_in_turn e events : forall cp,
  respects in_turn turn_progress (data_streamer_loop e events cp).
Proof.
  induction events as [|x events IH]; intros cp; cbn [data_streamer_loop];
    unfold queue_put.
  - footprint.
  - destruct x as [r|msg]; footprint; apply turn_progress_same; reflexivity.
Qed.

Lemma data_streamer_in_turn e : respects in_turn turn_progress (data_streamer e).
Proof. unfold data_streamer. footprint. apply data_streamer_loop_in_turn. Qed.

Lemma add_message_in_turn x :
  respects in_turn turn_progress (add_message_to_state_session x).
Proof.
  unfold add_message_to_state_session. footprint;
    (split; [reflexivity | eexists; reflexivity]).
Qed.

Lemma display_stream_in_turn e content_stream create_context :
  respects in_turn turn_progress (display_stream e content_stream create_context).
Proof.
  unfold display_stream. footprint;
    try apply data_streamer_in_turn; try apply add_message_in_turn;
    apply turn_progress_same; reflexivity.
Qed.

Lemma handle_tool_requests_in_turn e replies :
  respects in_turn turn_progress (handle_tool_requests e replies).
Proof.
  induction replies as [|r replies IH]; cbn [handle_tool_requests];
    unfold logger_info, queue_empty, queue_get;
    footprint;
    try (apply in_turn_of_quiet, quiet_handle_requires_action);
    try apply display_stream_in_turn;
    apply turn_progress_same; reflexivity.
Qed.

Lemma run_assistant_in_turn e a : respects in_turn turn_progress (run_assistant e a).
Proof.
  unfold run_assistant. footprint;
    try apply display_stream_in_turn; apply handle_tool_requests_in_turn.
Qed.

Lemma offer_created_files_in_turn e : respects in_turn turn_progress (offer_created_files e).
Proof.
  unfold offer_created_files. footprint;
    try (apply in_turn_of_quiet, quiet_retrieve_assistant_created_files);
    try (apply in_turn_of_quiet, quiet_render_download_files);
    apply turn_progress_same; reflexivity.
Qed.

Lemma after_question_in_turn e a :
  respects in_turn turn_progress (run_assistant e a ;; offer_created_files e).
Proof.
  footprint; [apply run_assistant_in_turn | apply offer_created_files_in_turn].
Qed.

(** The first part of a turn: the question enters the transcript and is
    sent to the thread the session holds. *)
Lemma submit_question_run e q s :
  submit_question e q s
  = (match messages_create e (thread_id s) q with
     | Returns _ => Ok tt
     | Throws msg => Raise (Error msg)
     end,
     set_messages (messages s ++ [user_message q]) s,
     [UI (StChatMessage "user"); UI (StMarkdown q);
      MessagesCreate (thread_id s) q (messages_create e (thread_id s) q)]).
Proof.
  unfold submit_question. rewrite !bind_emit, bind_modify, bind_gets.
  unfold call. rewrite bind_emit. cbn [thread_id set_messages].
  destruct (messages_create e (thread_id s) q) as [[]|msg]; reflexivity.
Qed.

Lemma answer_question_run e a q s :
  exists more t,
    messages (snd (fst (answer_question e a q s))) = messages s ++ user_message q :: more
    /\ thread_id (snd (fst (answer_question e a q s))) = thread_id s
    /\ snd (answer_question e a q s)
       = UI (StChatMessage "user") :: UI (StMarkdown q)
         :: MessagesCreate (thread_id s) q (messages_create e (thread_id s) q) :: t
    /\ Forall in_turn t.
Proof.
  unfold answer_question. rewrite bind_run, submit_question_run.
  destruct (messages_create e (thread_id s) q) as [u|msg].
  - destruct (after_question_in_turn e a (set_messages (messages s ++ [user_message q]) s))
      as [Ht [Hth [more Hm]]].
    exists more, (snd ((run_assistant e a ;; offer_created_files e)
                         (set_messages (messages s ++ [user_message q]) s))).
    cbn [fst snd]. repeat split; try assumption.
    rewrite Hm. cbn. rewrite <- app_assoc. reflexivity.
  - exists [], []. cbn. repeat split. constructor.
Qed.

(** The moderation check when the remote call raises. *)
Lemma moderation_endpoint_raises e q msg s :
  moderations_create e q = Throws msg ->
  moderation_endpoint e q s
  = (Ok false, s,
     [ModerationsCreate q (Throws msg);
      Log ERROR ("Error checking moderation: " ++ msg)%string None]).
Proof.
  intros H. unfold moderation_endpoint, try_except, call, bind, emit, logger_error.
  rewrite H. reflexivity.
Qed.

Lemma moderation_endpoint_unflagged e q more s :
  moderations_create e q = Returns (false :: more) ->
  moderation_endpoint e q s = (Ok false, s, [ModerationsCreate q (Returns (false :: more))]).
Proof.
  intros H. unfold moderation_endpoint, try_except, call, bind, emit. rewrite H. reflexivity.
Qed.

(** The chat step once the moderation check has returned [False]. *)
Lemma question_section_accepted e a i q s before :
  chat_input i = Some q -> q <> "" ->
  moderation_endpoint e q s = (Ok false, s, before) ->
  question_section e a i s = after_turn (answer_question e a q s) before.
Proof.
  intros Hi Hq H. unfold question_section, after_turn. rewrite Hi.
  destruct (String.eqb_spec q "") as [E|_]; [contradiction|].
  rewrite (bind_ok _ _ _ _ _ _ H). rewrite bind_run.
  destruct (answer_question e a q s) as [[[u|x] s1] t1]; cbn; rewrite ?app_nil_r;
    reflexivity.
Qed.

(** C10.  When the remote moderation call raises, [moderation_endpoint]
    logs the error and returns [False] without raising, and the chat step
    goes on with the turn: the question is appended to the transcript and
    sent to the thread.  The turn taken is the one taken when the
    moderation call answers "not flagged": same result, same final state,
    same effects after the moderation step. *)
Theorem moderation_fails_open
  (e : env) (i : inputs) (q msg : string) (a : assistant_obj) (s : session_state) :
  chat_input i = Some q -> q <> "" ->
  moderations_create e q = Throws msg ->
  moderation_endpoint e q s
  = (Ok false, s,
     [ModerationsCreate q (Throws msg);
      Log ERROR ("Error checking moderation: " ++ msg)%string None])
  /\ question_section e a i s
     = after_turn (answer_question e a q s)
         [ModerationsCreate q (Throws msg);
          Log ERROR ("Error checking moderation: " ++ msg)%string None]
  /\ question_section (with_moderation (fun _ => Returns [false]) e) a i s
     = after_turn (answer_question e a q s) [ModerationsCreate q (Returns [false])]
  /\ exists more t,
       messages (snd (fst (answer_question e a q s))) = messages s ++ user_message q :: more
       /\ snd (answer_question e a q s)
          = UI (StChatMessage "user") :: UI (StMarkdown q)
            :: MessagesCreate (thread_id s) q (messages_create e (thread_id s) q) :: t.
Proof.
  intros Hi Hq H. split; [|split; [|split]].
  - apply moderation_endpoint_raises, H.
  - apply question_section_accepted; try assumption. apply moderation_endpoint_raises, H.
  - change (answer_question e a q s)
      with (answer_question (with_moderation (fun _ => Returns [false]) e) a q s).
    apply question_section_accepted; try assumption.
    apply moderation_endpoint_unflagged. reflexivity.
  - destruct (answer_question_run e a q s) as (more & t & Hm & _ & Ht & _).
    exists more, t. auto.
Qed.

Lemma moderation_fails_open_witness :
  moderation_endpoint unreachable "what sold best?" busy_state
  = (Ok false, busy_state,
     [ModerationsCreate "what sold best?" (Throws "connection error");
      Log ERROR "Error checking moderation: connection error" None])
  /\ question_section unreachable assistant_1 (ask "what sold best?") busy_state
     = after_turn (answer_question unreachable assistant_1 "what sold best?" busy_state)
         [ModerationsCreate "what sold best?" (Throws "connection error");
          Log ERROR "Error checking moderation: connection error" None].
Proof.
  destruct (moderation_fails_open unreachable (ask "what sold best?") "what sold best?"
              "connection error" assistant_1 busy_state eq_refl) as (H1 & H2 & _).
  - discriminate.
  - reflexivity.
  - split; [exact H1 | exact H2].
Defined.

(** ** The tool-request queue *)

Lemma puts_app t1 t2 : puts (t1 ++ t2) = puts t1 ++ puts t2.
Proof.
  induction t1 as [|x t1 IH]; [reflexivity|].
  destruct x; cbn; rewrite ?IH; reflexivity.
Qed.

Lemma takes_app t1 t2 : takes (t1 ++ t2) = takes t1 ++ takes t2.
Proof.
  induction t1 as [|x t1 IH]; [reflexivity|].
  destruct x; cbn; rewrite ?IH; reflexivity.
Qed.

Lemma quiet_no_queue t : Forall quiet t -> puts t = [] /\ takes t = [].
Proof.
  induction 1 as [|x t Hx _ [IH1 IH2]]; [auto|].
  destruct x; cbn in *; try contradiction; auto.
Qed.

#[local] Instance queue_grows_track : Track queue_grows.
Proof.
  split.
  - intros s. split; [cbn; symmetry; apply app_nil_r | reflexivity].
  - intros s t1 s1 t2 s2 [H1 H2] [H3 H4]. split.
    + rewrite H3, H1, puts_app. symmetry. apply app_assoc.
    + rewrite takes_app, H2, H4. reflexivity.
Qed.

#[local] Instance queue_idle_track : Track queue_idle.
Proof.
  split.
  - intros s. repeat split.
  - intros s t1 s1 t2 s2 (H1 & H2 & H3) (H4 & H5 & H6). repeat split.
    + congruence.
    + rewrite puts_app, H2, H5. reflexivity.
    + rewrite takes_app, H3, H6. reflexivity.
Qed.

Lemma queue_idle_of_quiet {A} (m : M A) :
  respects quiet same_conversation m -> follows queue_idle m.
Proof.
  intros H s. destruct (H s) as [Ht (Hq & _)].
  destruct (quiet_no_queue _ Ht). repeat split; assumption.
Qed.

Lemma queue_grows_of_idle {A} (m : M A) : follows queue_idle m -> follows queue_grows m.
Proof.
  apply follows_weaken. intros s t s' (H1 & H2 & H3). split; [|exact H3].
  rewrite H1, H2. symmetry. apply app_nil_r.
Qed.

(** Walks through a computation as [footprint] does, for a tracked
    relation. *)
Ltac track_step :=
  match goal with
  | |- Track _ => typeclasses eauto
  | H : follows ?J ?m |- follows ?J ?m => exact H
  | H : forall _, follows _ _ |- follows _ _ => apply H
  | |- follows _ (ret _) => apply follows_ret
  | |- follows _ (raise _) => apply follows_raise
  | |- follows _ (gets _) => apply follows_gets
  | |- follows _ (lift _) => apply follows_lift
  | |- follows _ (bind _ _) => apply follows_bind
  | |- follows _ (try_except _ _) => apply follows_try_except
  | |- follows _ (for_each _ _) => apply follows_for_each
  | |- follows _ (st_write_stream _) => apply follows_st_write_stream
  | |- follows _ (call _ _) => apply follows_call
  | |- follows _ (emit _) => apply follows_emit
  | |- follows _ (modify _) => apply follows_modify
  | |- follows _ (match ?x with _ => _ end) => destruct x
  | |- follows _ _ => fail 1
  | |- forall _, _ => intro
  | |- _ => solve [ hnf; cbn; rewrite ?app_nil_r; auto ]
  end.

Ltac track := repeat track_step.

Lemma queue_put_grows r : follows queue_grows (queue_put r).
Proof. intros s. split; reflexivity. Qed.

Lemma data_streamer_loop_queue e events : forall cp,
  follows queue_grows (data_streamer_loop e events cp).
Proof.
  induction events as [|x events IH]; intros cp; cbn [data_streamer_loop].
  - track.
  - destruct x as [r|msg]; track; apply queue_put_grows.
Qed.

Lemma display_stream_queue e content_stream create_context :
  follows queue_grows (display_stream e content_stream create_context).
Proof.
  unfold display_stream, data_streamer, add_message_to_state_session.
  track; apply data_streamer_loop_queue.
Qed.

Lemma offer_created_files_queue e : follows queue_idle (offer_created_files e).
Proof.
  unfold offer_created_files. track.
  - apply queue_idle_of_quiet, quiet_retrieve_assistant_created_files.
  - apply queue_idle_of_quiet, quiet_render_download_files.
Qed.

Lemma served_prepend e pre t : takes pre = [] -> served e t -> served e (pre ++ t).
Proof.
  intros Hpre H. destruct H as [t Ht|pre' r s0 s1 outs thread run_ dispatch out post Hp Hd Hs].
  - apply served_done. rewrite takes_app, Hpre, Ht. reflexivity.
  - rewrite app_assoc. eapply served_next; eauto.
    rewrite takes_app, Hpre, Hp. reflexivity.
Qed.

Lemma served_append e t post : served e t -> takes post = [] -> served e (t ++ post).
Proof.
  intros H Hpost.
  induction H as [t Ht|pre r s0 s1 outs thread run_ dispatch out post' Hp Hd Hs IH].
  - apply served_done. rewrite takes_app, Ht, Hpost. reflexivity.
  - rewrite <- app_assoc. cbn [app]. rewrite <- app_assoc. cbn [app].
    eapply served_next; eauto.
Qed.

Lemma call_returns {A} (r : reply A) (record : reply A -> effect) s a s' t :
  call r record s = (Ok a, s', t) -> r = Returns a /\ s' = s /\ t = [record (Returns a)].
Proof.
  unfold call. rewrite bind_emit. destruct r as [a'|msg]; cbn; intros H; inversion H; auto.
Qed.

Lemma queue_get_run s r pending :
  tool_requests s = r :: pending ->
  queue_get s = (Ok r, set_tool_requests pending s, [QueueGet r]).
Proof. intros E. unfold queue_get. rewrite bind_gets, E. reflexivity. Qed.

(** One round of the loop of [main] over the queue. *)
Lemma handle_tool_requests_round e replies s :
  handle_tool_requests e replies s
  = match tool_requests s with
    | [] => (Ok tt, s, [])
    | request :: pending =>
        prepend [Log INFO "Handling tool requests" None; UI (StChatMessage "assistant");
                 QueueGet request]
          ((r <- handle_requires_action e request ;;
            let '(tool_outputs, thread, run_) := r in
            match replies with
            | [] => raise Blocked
            | reply_ :: replies' =>
                tool_stream <- call reply_ (SubmitToolOutputsStream thread run_ tool_outputs) ;;
                display_stream e tool_stream false ;;
                handle_tool_requests e replies'
            end) (set_tool_requests pending s))
    end.
Proof.
  destruct replies as [|reply_ replies']; cbn [handle_tool_requests];
    unfold queue_empty, logger_info;
    rewrite bind_gets; destruct (tool_requests s) as [|request pending] eqn:E;
    try reflexivity;
    rewrite !bind_emit, (bind_ok _ _ _ _ _ _ (queue_get_run s request pending E));
    reflexivity.
Qed.

(** When the loop returns, the queue is empty, what was taken from it is
    what it held followed by what was put on it meanwhile, and every
    request taken was served. *)
Lemma handle_tool_requests_drains e replies : forall s s' t,
  handle_tool_requests e replies s = (Ok tt, s', t) ->
  tool_requests s' = [] /\ takes t = tool_requests s ++ puts t /\ served e t.
Proof.
  induction replies as [|reply_ replies IH]; intros s s' t H;
    rewrite handle_tool_requests_round in H;
    destruct (tool_requests s) as [|request pending] eqn:E.
  - inversion H; subst. rewrite E. repeat split. apply served_done. reflexivity.
  - unfold prepend in H. inversion H as [[Hr Hs Ht]]. exfalso.
    destruct (bind _ _ _) as [[r0 s0] t0] eqn:Hb in Hr. cbn in Hr. subst r0.
    apply bind_inv in Hb as [(r & s1 & t1 & t2 & _ & Hk & _)|(x & _ & Hx)]; [|discriminate].
    destruct r as [[outs thread] run_]. discriminate.
  - inversion H; subst. rewrite E. repeat split. apply served_done. reflexivity.
  - unfold prepend in H.
    destruct (bind _ _ _) as [[r0 s0] t0] eqn:Hb in H. cbn [fst snd] in H.
    inversion H; subst. clear H.
    apply bind_inv in Hb as [(r & s1 & t1 & t2 & Hd & Hk & ->)|(x & _ & Hx)]; [|discriminate].
    destruct r as [[outs thread] run_].
    destruct (quiet_handle_requires_action e request (set_tool_requests pending s))
      as [Hquiet (Hq & _)].
    rewrite Hd in Hquiet, Hq. cbn [fst snd tool_requests set_tool_requests] in Hquiet, Hq.
    destruct (quiet_no_queue _ Hquiet) as [Hp1 Ht1].
    apply bind_inv in Hk as [(st & s2 & t3 & t4 & Hc & Hk & ->)|(x & _ & Hx)]; [|discriminate].
    apply call_returns in Hc as (-> & -> & ->).
    apply bind_inv in Hk as [(u & s3 & t5 & t6 & Hds & Hl & ->)|(x & _ & Hx)]; [|discriminate].
    destruct (display_stream_queue e st false s1) as [Hg Hg'].
    rewrite Hds in Hg, Hg'. cbn [fst snd] in Hg, Hg'.
    apply IH in Hl as (Hempty & Htakes & Hserved).
    split; [exact Hempty|]. split.
    + cbn [takes puts app]. rewrite !takes_app, !puts_app. cbn [takes puts app].
      rewrite !takes_app, !puts_app, Ht1, Hp1, Hg', Htakes, Hg, Hq. cbn [app].
      rewrite <- app_assoc. reflexivity.
    + change (served e ([Log INFO "Handling tool requests" None; UI (StChatMessage "assistant")]
                      ++ QueueGet request :: t1
                      ++ SubmitToolOutputsStream thread run_ outs (Returns st) :: (t5 ++ t6))).
      eapply served_next; [reflexivity | exact Hd |].
      apply served_prepend; assumption.
Qed.

(** C2.  When the handling of a question completes, the queue is empty;
    the requests taken from the queue during the turn are, in order, those
    it held at the start followed by all those put on it during the turn,
    by the first stream or by a follow-up stream; and every request taken
    was dispatched by [handle_requires_action] and its outputs submitted to
    the remote run, which answered with the next stream. *)
Theorem turn_serves_every_tool_request
  (e : env) (a : assistant_obj) (q : string) (s s' : session_state) (t : list effect) :
  answer_question e a q s = (Ok tt, s', t) ->
  tool_requests s' = []
  /\ takes t = tool_requests s ++ puts t
  /\ served e t.
Proof.
  intros H. unfold answer_question in H.
  apply bind_inv in H as [(u & s1 & t1 & t2 & Hs & H & ->)|(x & _ & Hx)]; [|discriminate].
  rewrite submit_question_run in Hs. inversion Hs as [[Hr Hs1 Ht1]]. clear Hs Hr.
  apply bind_inv in H as [(u' & s2 & t3 & t4 & Hrun & Hoffer & ->)|(x & _ & Hx)];
    [|discriminate].
  unfold run_assistant in Hrun. rewrite bind_gets in Hrun.
  apply bind_inv in Hrun as [(st & s1' & tc & t5 & Hc & Hrun & ->)|(x & _ & Hx)];
    [|discriminate].
  apply call_returns in Hc as (Hst & -> & ->).
  apply bind_inv in Hrun as [(u2 & s3 & t6 & t7 & Hds & Hloop & ->)|(x & _ & Hx)];
    [|discriminate].
  destruct (display_stream_queue e st true s1) as [Hg Hg'].
  rewrite Hds in Hg, Hg'. cbn [fst snd] in Hg, Hg'.
  destruct u'. apply handle_tool_requests_drains in Hloop as (Hempty & Htakes & Hserved).
  destruct (offer_created_files_queue e s2) as (Ho1 & Ho2 & Ho3).
  rewrite Hoffer in Ho1, Ho2, Ho3. cbn [fst snd] in Ho1, Ho2, Ho3.
  assert (Hq1 : tool_requests s1 = tool_requests s) by (subst s1; reflexivity).
  split; [congruence|]. split.
  - rewrite !takes_app, !puts_app. cbn [takes puts app].
    rewrite ?takes_app, ?puts_app, Hg', Htakes, Hg, Hq1, Ho2, Ho3. cbn [takes puts app].
    rewrite ?app_nil_r, <- ?app_assoc. reflexivity.
  - apply (served_prepend e
             [UI (StChatMessage "user"); UI (StMarkdown q);
              MessagesCreate (thread_id s) q (messages_create e (thread_id s) q)]);
      [reflexivity|].
    apply served_append; [|exact Ho3].
    apply (served_prepend e [RunsStream (thread_id s1) (asst_id a) (Returns st)]);
      [reflexivity|].
    apply served_prepend; assumption.
Qed.

Lemma turn_serves_every_tool_request_witness :
  let run_ := answer_question tooling assistant_1 "what sold best?" busy_state in
  puts (snd run_) = [request_for [analyze_call]]
  /\ tool_requests (snd (fst run_)) = []
  /\ takes (snd run_) = tool_requests busy_state ++ puts (snd run_)
  /\ served tooling (snd run_).
Proof.
  cbv zeta. split; [vm_compute; reflexivity|].
  apply (turn_serves_every_tool_request tooling assistant_1 "what sold best?" busy_state).
  vm_compute. reflexivity.
Defined.

(** ** Generated images and the download listing *)

#[local] Instance eq_frame : Frame eq.
Proof. split; intros; congruence. Qed.

Lemma render_each_keeps_state e l : forall n a b,
  respects (fun _ => True) eq (render_each e l n a b).
Proof.
  induction l as [|x l IH]; intros n a b; cbn [render_each];
    unfold logger_error, st_download_button_at; footprint; apply IH.
Qed.

Lemma render_download_files_keeps_state e l :
  respects (fun _ => True) eq (render_download_files e l).
Proof. unfold render_download_files. footprint. apply render_each_keeps_state. Qed.

Lemma retrieve_assistant_created_files_run e thread attached s :
  messages_list e thread = Returns attached ->
  exists t,
    retrieve_assistant_created_files e thread s
    = (Ok (fst (gather_attachments attached [])), s, t).
Proof.
  intros H. unfold retrieve_assistant_created_files, try_except, call, bind, emit, logger_error.
  rewrite H. cbn. destruct (gather_attachments attached []) as [ids [msg|]]; cbn;
    eexists; reflexivity.
Qed.

(** After the turn, the recorded list is the list of the attachments of the
    assistant's messages, whatever was recorded while streaming. *)
Lemma offer_created_files_replaces e s attached :
  messages_list e (thread_id s) = Returns attached ->
  assistant_created_file_ids (snd (fst (offer_created_files e s)))
  = fst (gather_attachments attached []).
Proof.
  intros H. unfold offer_created_files. rewrite bind_gets.
  destruct (retrieve_assistant_created_files_run e _ attached s H) as (t & Ht).
  rewrite (bind_ok _ _ _ _ _ _ Ht).
  cbn [fst snd]. rewrite bind_modify.
  destruct (fst (gather_attachments attached [])) as [|x l] eqn:E; [reflexivity|].
  rewrite bind_run.
  destruct (render_download_files_keeps_state e (x :: l)
              (set_assistant_created_file_ids (x :: l) s)) as [_ Hs].
  destruct (render_download_files e (x :: l) (set_assistant_created_file_ids (x :: l) s))
    as [[[r|r] s2] t2]; cbn in *; subst s2; reflexivity.
Qed.

(** C3, on a failing input.  The run streams an image whose file is
    "file-img"; the consumer records the identifier, as the comment in
    [data_streamer] says, and yields the image.  Once the run has settled
    [main] replaces the recorded list by the attachments the thread lists,
    here none: the identifier is gone and no download is offered. *)
Theorem streamed_image_not_offered_for_download :
  let run_ := main plotting (ask "plot the sales") busy_state in
  let streamed := run_assistant plotting assistant_1 busy_state in
  fst (fst run_) = Ok tt
  /\ In (Yield (ImageItem "chart")) (snd run_)
  /\ In "file-img" (assistant_created_file_ids (snd (fst streamed)))
  /\ assistant_created_file_ids (snd (fst run_)) = []
  /\ download_buttons (snd run_) = [].
Proof.
  cbv zeta. split; [vm_compute; reflexivity|]. split; [vm_compute; tauto|].
  split; [vm_compute; tauto|]. split; vm_compute; reflexivity.
Qed.

(** ** Threads and messages *)

(** Sequencing at one state. *)
Lemma track_bind J {T : Track J} {A B} (m : M A) (k : A -> M B) s :
  J s (snd (m s)) (snd (fst (m s))) ->
  (forall a s1 t1, m s = (Ok a, s1, t1) -> J s1 (snd (k a s1)) (snd (fst (k a s1)))) ->
  J s (snd (bind m k s)) (snd (fst (bind m k s))).
Proof.
  intros Hm Hk. rewrite bind_run.
  destruct (m s) as [[[a|x] s1] t1]; cbn [fst snd] in *; [|exact Hm].
  eapply track_app; [exact Hm | exact (Hk a s1 t1 eq_refl)].
Qed.

Lemma threads_created_app t1 t2 :
  threads_created (t1 ++ t2) = threads_created t1 ++ threads_created t2.
Proof.
  induction t1 as [|x t1 IH]; [reflexivity|].
  destruct x as [| | | | | |[id|msg]| | | | | | | | | | | | | |]; cbn; rewrite ?IH; reflexivity.
Qed.

Lemma messages_to_known_threads_app t1 : forall known t2,
  messages_to_known_threads known (t1 ++ t2)
  <-> messages_to_known_threads known t1
      /\ messages_to_known_threads (known ++ threads_created t1) t2.
Proof.
  induction t1 as [|x t1 IH]; intros known t2.
  - cbn. rewrite app_nil_r. tauto.
  - destruct x as [| | | | | |[id|msg]| | | | | | | | | | | | | |]; cbn;
      rewrite ?IH, <- ?app_assoc; cbn; tauto.
Qed.

Lemma threads_created_In id t :
  In id (threads_created t) -> In (ThreadsCreate (Returns id)) t.
Proof.
  induction t as [|x t IH]; [contradiction|].
  destruct x as [| | | | | |[id'|msg]| | | | | | | | | | | | | |]; cbn; intros H; auto.
  destruct H as [->|H]; auto.
Qed.

(** A message found in a trace that sends to known threads only. *)
Lemma messages_to_known_threads_at known t1 thread q out t2 :
  messages_to_known_threads known (t1 ++ MessagesCreate thread q out :: t2) ->
  exists id, thread = Some id /\ In id (known ++ threads_created t1).
Proof.
  intros H. apply messages_to_known_threads_app in H as [_ H]. cbn in H.
  destruct H as [H _]. exact H.
Qed.

#[local] Instance thread_known_track : Track thread_known.
Proof.
  split.
  - intros s known Hk. split; [exact I|]. cbn. rewrite app_nil_r. exact Hk.
  - intros s t1 s1 t2 s2 H1 H2 known Hk.
    destruct (H1 known Hk) as [Ha Hb].
    destruct (H2 (known ++ threads_created t1) Hb) as [Hc Hd]. split.
    + apply messages_to_known_threads_app. auto.
    + intros id Hid. rewrite threads_created_app, app_assoc. auto.
Qed.

Lemma in_turn_known t :
  Forall in_turn t ->
  (forall known, messages_to_known_threads known t) /\ threads_created t = [].
Proof.
  induction 1 as [|x t Hx _ [IH1 IH2]]; [split; [intros; exact I | reflexivity]|].
  destruct x; cbn in *; try contradiction; auto.
Qed.

Lemma thread_known_of_in_turn {A} (m : M A) :
  respects in_turn turn_progress m -> follows thread_known m.
Proof.
  intros H s known Hk. destruct (H s) as [Ht [Hth _]].
  destruct (in_turn_known _ Ht) as [Hm Hc]. split; [apply Hm|].
  rewrite Hc, app_nil_r, Hth. exact Hk.
Qed.

Lemma thread_known_of_quiet {A} (m : M A) :
  respects quiet same_conversation m -> follows thread_known m.
Proof. intros H. apply thread_known_of_in_turn, in_turn_of_quiet, H. Qed.

(** [ensure_thread] does nothing when the session holds a non-empty thread
    identifier, and otherwise creates a thread, stores its identifier and
    attaches the uploaded files. *)
Lemma ensure_thread_run e s :
  ensure_thread e s
  = if Py.truthy (thread_id s) then (Ok tt, s, []) else thread_creation e s.
Proof.
  unfold ensure_thread, thread_creation. rewrite bind_gets.
  destruct (Py.truthy (thread_id s)); [reflexivity|].
  unfold call, logger_info. rewrite bind_run, bind_emit.
  destruct (threads_create e) as [id|msg]; [|reflexivity].
  cbn [ret fst snd]. rewrite bind_modify, bind_emit, bind_gets, bind_gets, bind_emit.
  cbn [thread_id file_ids set_thread_id].
  destruct (threads_update e (Some id) (file_ids s)) as [[]|msg]; reflexivity.
Qed.

Lemma ensure_thread_known e : follows thread_known (ensure_thread e).
Proof.
  intros s. rewrite ensure_thread_run.
  destruct (Py.truthy (thread_id s)); [apply track_nil|].
  unfold thread_creation. destruct (threads_create e) as [id|msg]; cbn [fst snd].
  - intros known Hk. split; [exact I|]. cbn. intros id' Hid. inversion Hid; subst.
    apply in_or_app. right. left. reflexivity.
  - intros known Hk. split; [exact I|]. cbn. rewrite app_nil_r. exact Hk.
Qed.

Lemma ensure_thread_ok e s a s1 t1 :
  ensure_thread e s = (Ok a, s1, t1) -> exists id, thread_id s1 = Some id.
Proof.
  rewrite ensure_thread_run. destruct (Py.truthy (thread_id s)) eqn:E.
  - intros H. inversion H; subst. destruct (thread_id s1) as [id|]; [eauto|discriminate].
  - unfold thread_creation. destruct (threads_create e) as [id|msg]; intros H;
      inversion H; subst. cbn. eauto.
Qed.

Lemma submit_question_known e q s id :
  thread_id s = Some id ->
  thread_known s (snd (submit_question e q s)) (snd (fst (submit_question e q s))).
Proof.
  intros Hid. rewrite submit_question_run. cbn [fst snd]. intros known Hk. split.
  - cbn. split; [|exact I]. exists id. auto.
  - cbn. rewrite app_nil_r. exact Hk.
Qed.

Lemma answer_question_known e a q s id :
  thread_id s = Some id ->
  thread_known s (snd (answer_question e a q s)) (snd (fst (answer_question e a q s))).
Proof.
  intros Hid. unfold answer_question. apply (track_bind thread_known).
  - eapply submit_question_known, Hid.
  - intros u s1 t1 _. apply thread_known_of_in_turn, after_question_in_turn.
Qed.

Lemma thread_known_step s s' :
  thread_id s' = thread_id s \/ thread_id s' = None -> thread_known s [] s'.
Proof.
  intros H known Hk. split; [exact I|].
  cbn. rewrite app_nil_r. intros id Hid. destruct H as [E|E]; rewrite E in Hid.
  - auto.
  - discriminate.
Qed.

Lemma reset_section_known e i : follows thread_known (reset_section e i).
Proof.
  unfold reset_section. track;
    try (apply thread_known_of_quiet, quiet_delete_thread);
    try (apply thread_known_of_quiet, quiet_delete_files);
    apply thread_known_step; cbn; auto.
Qed.

Lemma question_section_known e a i s id :
  thread_id s = Some id ->
  thread_known s (snd (question_section e a i s)) (snd (fst (question_section e a i s))).
Proof.
  intros Hid. unfold question_section.
  destruct (chat_input i) as [q|]; [|apply track_nil].
  destruct (String.eqb q ""); [apply track_nil|].
  apply (track_bind thread_known).
  - apply thread_known_of_quiet, quiet_moderation_endpoint.
  - intros flagged s1 t1 Hm.
    destruct (quiet_moderation_endpoint e q s) as [_ (_ & _ & Hth)].
    rewrite Hm in Hth. cbn in Hth.
    destruct flagged.
    + apply thread_known_of_quiet. unfold st_error. footprint.
    + apply (track_bind thread_known).
      * eapply answer_question_known. rewrite Hth. exact Hid.
      * intros u s2 t2 _. apply track_nil.
Qed.

Lemma analysis_section_known e a i : follows thread_known (analysis_section e a i).
Proof.
  unfold analysis_section.
  apply (follows_bind thread_known); [apply thread_known_of_quiet; footprint|]. intros _.
  apply (follows_bind thread_known); [apply (follows_gets thread_known)|]. intros ids.
  apply (follows_bind thread_known); [apply thread_known_of_quiet; footprint|]. intros _.
  apply (follows_bind_run thread_known); [apply ensure_thread_known|].
  intros s u s1 t1 He. apply ensure_thread_ok in He as [id Hid].
  apply (track_bind thread_known).
  - apply thread_known_of_quiet, quiet_display_history.
  - intros u' s2 t2 Hd.
    destruct (quiet_display_history s1) as [_ (_ & _ & Hth)].
    rewrite Hd in Hth. cbn in Hth.
    apply (track_bind thread_known).
    + eapply question_section_known. rewrite Hth. exact Hid.
    + intros returned s3 t3 _. destruct returned; [apply track_nil|].
      apply reset_section_known.
Qed.

Lemma main_known e i : follows thread_known (main e i).
Proof.
  unfold main.
  apply (follows_bind thread_known); [apply thread_known_of_quiet; footprint|]. intros _.
  apply (follows_bind thread_known); [apply thread_known_of_quiet; footprint|]. intros _.
  apply (follows_bind thread_known); [apply thread_known_of_quiet, quiet_init_assistant|]. intros a.
  apply (follows_bind thread_known); [apply thread_known_of_quiet, quiet_upload_section|]. intros _.
  apply (follows_bind thread_known); [apply (follows_gets thread_known)|]. intros uploaded.
  destruct uploaded; [apply analysis_section_known | apply (follows_ret thread_known)].
Qed.

Lemma session_known runs : forall s,
  thread_known s (snd (session runs s)) (fst (session runs s)).
Proof.
  induction runs as [|[e i] runs IH]; intros s; cbn [session].
  - apply track_nil.
  - pose proof (main_known e i s) as Hm.
    destruct (main e i s) as [[r s1] t1]. cbn [fst snd] in Hm.
    specialize (IH s1). destruct (session runs s1) as [s2 t2]. cbn [fst snd] in *.
    eapply track_app; eassumption.
Qed.

(** C9.  In every session, that is for every sequence of runs of the script
    from the initial state and every behaviour of the remote service, each
    message is sent with a thread identifier that is present and was
    returned by a thread creation earlier in the session.  In a state
    without a usable thread identifier, [ensure_thread], which [main] runs
    before it looks at the chat input, creates the thread, stores its
    identifier and attaches the uploaded files; and the message is sent to
    the identifier the session state holds. *)
Theorem message_only_to_created_thread (runs : list (env * inputs)) :
  (forall t1 thread q out t2,
     snd (session runs initial_state) = t1 ++ MessagesCreate thread q out :: t2 ->
     exists id, thread = Some id /\ In (ThreadsCreate (Returns id)) t1)
  /\ (forall e s, Py.truthy (thread_id s) = false -> ensure_thread e s = thread_creation e s)
  /\ (forall e q s,
        snd (submit_question e q s)
        = [UI (StChatMessage "user"); UI (StMarkdown q);
           MessagesCreate (thread_id s) q (messages_create e (thread_id s) q)]).
Proof.
  split; [|split].
  - intros t1 thread q out t2 H.
    destruct (session_known runs initial_state []) as [Hm _]; [discriminate|].
    rewrite H in Hm. apply messages_to_known_threads_at in Hm as (id & Hid & Hin).
    exists id. split; [exact Hid|]. apply threads_created_In. exact Hin.
  - intros e s H. rewrite ensure_thread_run, H. reflexivity.
  - intros e q s. rewrite submit_question_run. reflexivity.
Qed.

Lemma message_only_to_created_thread_witness :
  let runs := [(tooling, upload_sales); (tooling, ask "what sold best?")] in
  In (MessagesCreate (Some "thread_1") "what sold best?" (Returns tt))
     (snd (session runs initial_state))
  /\ forall t1 thread q out t2,
       snd (session runs initial_state) = t1 ++ MessagesCreate thread q out :: t2 ->
       exists id, thread = Some id /\ In (ThreadsCreate (Returns id)) t1.
Proof.
  cbv zeta. split.
  - vm_compute. repeat (first [left; reflexivity | right]).
  - apply (message_only_to_created_thread
             [(tooling, upload_sales); (tooling, ask "what sold best?")]).
Defined.

(** * Further properties *)

(** ** The consumer, event by event *)

(** The loop of [data_streamer] on its next event: the event is taken from
    the stream, then handled according to its name and payload. *)
Lemma data_streamer_loop_step e x rest cp s :
  data_streamer_loop e (x :: rest) cp s
  = match x with
    | StreamError msg => (Raise (Error msg), set_stream rest s, [])
    | Event r =>
        if String.eqb (event r) "thread.message.delta" then
          match data r with
          | MessageDeltaData (TextDeltaBlock v :: _) =>
              prepend [Yield (TextItem v)] (data_streamer_loop e rest true (set_stream rest s))
          | MessageDeltaData (ImageFileDeltaBlock f :: _) =>
              match files_content e f with
              | Throws msg =>
                  (Raise (Error msg), set_stream rest s,
                   [Log INFO "Image file: " (Some (LContent (ImageFileDeltaBlock f)));
                    FilesContent f (Throws msg)])
              | Returns bytes =>
                  let s2 := set_assistant_created_file_ids
                              (assistant_created_file_ids s ++ [f]) (set_stream rest s) in
                  match image_open e bytes with
                  | Throws msg =>
                      (Raise (Error msg), s2,
                       [Log INFO "Image file: " (Some (LContent (ImageFileDeltaBlock f)));
                        FilesContent f (Returns bytes); ImageOpen bytes (Throws msg)])
                  | Returns img =>
                      prepend
                        [Log INFO "Image file: " (Some (LContent (ImageFileDeltaBlock f)));
                         FilesContent f (Returns bytes); ImageOpen bytes (Returns img);
                         Yield (ImageItem img)]
                        (data_streamer_loop e rest true s2)
                  end
              end
          | MessageDeltaData (OtherDeltaBlock _ :: _) =>
              data_streamer_loop e rest cp (set_stream rest s)
          | MessageDeltaData [] =>
              (Raise (Error "IndexError: list index out of range"), set_stream rest s, [])
          | _ => (Raise (Error "AttributeError: delta"), set_stream rest s, [])
          end
        else if String.eqb (event r) "thread.run.requires_action" then
          (Ok tt, set_tool_requests (tool_requests s ++ [r]) (set_stream rest s),
           [Log INFO "Run requires action: " (Some (LResponse r)); QueuePut r]
           ++ (if cp then [] else [Yield placeholder]))
        else if String.eqb (event r) "thread.run.failed" then
          (Ok tt, set_stream rest s,
           [Log ERROR "Run failed: " (Some (LResponse r)); Yield failure_notice])
        else data_streamer_loop e rest cp (set_stream rest s)
    end.
Proof.
  cbn [data_streamer_loop]. destruct x as [r|msg]; [|reflexivity].
  rewrite bind_modify.
  destruct (String.eqb (event r) "thread.message.delta").
  - destruct (data r) as [[|[v|f|ty] more]| |]; try reflexivity.
    + rewrite bind_emit. reflexivity.
    + rewrite bind_emit. unfold call. rewrite bind_run, bind_emit.
      destruct (files_content e f) as [bytes|msg]; [|reflexivity].
      cbn [ret fst snd]. rewrite bind_modify, bind_run, bind_emit.
      destruct (image_open e bytes) as [img|msg]; [|reflexivity].
      cbn [ret fst snd]. rewrite bind_emit. reflexivity.
  - destruct (String.eqb (event r) "thread.run.requires_action").
    + destruct cp; reflexivity.
    + destruct (String.eqb (event r) "thread.run.failed"); reflexivity.
Qed.

(** What the loop leaves in the stream is a suffix of what it was given,
    and a request is put only by a requires-action event, at which the loop
    returns with the following events left in the stream. *)
Lemma data_streamer_loop_stops e events : forall cp s,
  stream s = events ->
  (exists consumed,
     events = consumed ++ stream (snd (fst (data_streamer_loop e events cp s))))
  /\ (puts (snd (data_streamer_loop e events cp s)) = []
      \/ exists consumed rq,
           puts (snd (data_streamer_loop e events cp s)) = [rq]
           /\ fst (fst (data_streamer_loop e events cp s)) = Ok tt
           /\ events
              = consumed ++ Event rq :: stream (snd (fst (data_streamer_loop e events cp s)))
           /\ event rq = "thread.run.requires_action").
Proof.
  induction events as [|x rest IH]; intros cp s Hs.
  - cbn [data_streamer_loop]. rewrite bind_emit, bind_gets. cbn. rewrite Hs.
    split; [exists []; reflexivity | left; reflexivity].
  - assert (Hrec : forall pre cp' s1,
               stream s1 = rest -> puts pre = [] ->
               (exists consumed,
                  x :: rest
                  = consumed
                    ++ stream (snd (fst (prepend pre (data_streamer_loop e rest cp' s1)))))
               /\ (puts (snd (prepend pre (data_streamer_loop e rest cp' s1))) = []
                   \/ exists consumed rq,
                        puts (snd (prepend pre (data_streamer_loop e rest cp' s1))) = [rq]
                        /\ fst (fst (prepend pre (data_streamer_loop e rest cp' s1))) = Ok tt
                        /\ x :: rest
                           = consumed
                             ++ Event rq
                                :: stream (snd (fst (prepend pre
                                                       (data_streamer_loop e rest cp' s1))))
                        /\ event rq = "thread.run.requires_action")).
    { intros pre cp' s1 Hs1 Hpre. destruct (IH cp' s1 Hs1) as [[c Hc] Hstop].
      cbn [prepend fst snd]. rewrite puts_app, Hpre. cbn [app]. split.
      - exists (x :: c). cbn [app]. rewrite <- Hc. reflexivity.
      - destruct Hstop as [Hn|(c' & rq & Hp & Hok & Hev & Hname)]; [left; exact Hn|].
        right. exists (x :: c'), rq. repeat split; try assumption.
        cbn [app]. rewrite <- Hev. reflexivity. }
    assert (Hplain : forall cp' s1,
               stream s1 = rest ->
               (exists consumed,
                  x :: rest = consumed ++ stream (snd (fst (data_streamer_loop e rest cp' s1))))
               /\ (puts (snd (data_streamer_loop e rest cp' s1)) = []
                   \/ exists consumed rq,
                        puts (snd (data_streamer_loop e rest cp' s1)) = [rq]
                        /\ fst (fst (data_streamer_loop e rest cp' s1)) = Ok tt
                        /\ x :: rest
                           = consumed
                             ++ Event rq :: stream (snd (fst (data_streamer_loop e rest cp' s1)))
                        /\ event rq = "thread.run.requires_action")).
    { intros cp' s1 Hs1. specialize (Hrec [] cp' s1 Hs1 eq_refl).
      unfold prepend in Hrec. cbn [fst snd app] in Hrec. exact Hrec. }
    assert (Hhalt : forall (r0 : result unit) s1 t0,
               stream s1 = rest -> puts t0 = [] ->
               (exists consumed, x :: rest = consumed ++ stream (snd (fst (r0, s1, t0))))
               /\ (puts (snd (r0, s1, t0)) = []
                   \/ exists consumed rq,
                        puts (snd (r0, s1, t0)) = [rq]
                        /\ fst (fst (r0, s1, t0)) = Ok tt
                        /\ x :: rest = consumed ++ Event rq :: stream (snd (fst (r0, s1, t0)))
                        /\ event rq = "thread.run.requires_action")).
    { intros r0 s1 t0 Hs1 Ht0. cbn [fst snd]. rewrite Hs1.
      split; [exists [x]; reflexivity | left; exact Ht0]. }
    rewrite data_streamer_loop_step. destruct x as [r|msg]; [|apply Hhalt; reflexivity].
    destruct (String.eqb (event r) "thread.message.delta").
    + destruct (data r) as [[|[v|f|ty] more]| |]; try (apply Hhalt; reflexivity).
      * apply Hrec; reflexivity.
      * destruct (files_content e f) as [bytes|msg]; [|apply Hhalt; reflexivity].
        cbv zeta. destruct (image_open e bytes) as [img|msg]; [|apply Hhalt; reflexivity].
        apply Hrec; reflexivity.
      * apply Hplain; reflexivity.
    + destruct (String.eqb_spec (event r) "thread.run.requires_action") as [Hname|_].
      * cbn [fst snd]. split; [exists [Event r]; reflexivity|].
        right. exists [], r. repeat split.
        -- destruct cp; reflexivity.
        -- exact Hname.
      * destruct (String.eqb (event r) "thread.run.failed");
          [apply Hhalt; reflexivity | apply Hplain; reflexivity].
Qed.

(** X1.  Whatever the stream and the remote service do, one call of the
    consumer takes nothing from the queue and puts at most one request on
    it; the events left in the stream are a suffix of those it was given;
    and when a request was put, it is a requires-action event, the consumer
    returned normally, and the events after that one are all left
    unconsumed. *)
Theorem data_streamer_stops_at_request (e : env) (s : session_state) :
  let run_ := data_streamer e s in
  takes (snd run_) = []
  /\ List.length (puts (snd run_)) <= 1
  /\ tool_requests (snd (fst run_)) = tool_requests s ++ puts (snd run_)
  /\ (exists consumed, stream s = consumed ++ stream (snd (fst run_)))
  /\ (forall rq, In rq (puts (snd run_)) ->
        fst (fst run_) = Ok tt
        /\ event rq = "thread.run.requires_action"
        /\ exists consumed, stream s = consumed ++ Event rq :: stream (snd (fst run_))).
Proof.
  cbv zeta. unfold data_streamer. rewrite bind_gets, !bind_emit. cbn [fst snd puts takes].
  destruct (data_streamer_loop_queue e (stream s) false s) as [Hq Ht].
  destruct (data_streamer_loop_stops e (stream s) false s eq_refl) as [Hsuffix Hstop].
  split; [exact Ht|]. split; [|split; [exact Hq|split; [exact Hsuffix|]]].
  - destruct Hstop as [Hn|(c & rq & Hp & _)]; [rewrite Hn|rewrite Hp]; cbn; lia.
  - intros rq Hin. destruct Hstop as [Hn|(c & rq' & Hp & Hok & Hev & Hname)].
    + rewrite Hn in Hin. contradiction.
    + rewrite Hp in Hin. destruct Hin as [<-|[]]. split; [exact Hok|]. split; [exact Hname|].
      exists c. exact Hev.
Qed.

(** ** Text fragments *)

Lemma prepend_nil {A} (r : result A * session_state * list effect) : prepend [] r = r.
Proof. destruct r as [[r0 s0] t0]. reflexivity. Qed.

Lemma prepend_prepend {A} pre1 pre2 (r : result A * session_state * list effect) :
  prepend pre1 (prepend pre2 r) = prepend (pre1 ++ pre2) r.
Proof. unfold prepend. cbn [fst snd]. rewrite app_assoc. reflexivity. Qed.

Lemma yielded_app t1 t2 : yielded (t1 ++ t2) = yielded t1 ++ yielded t2.
Proof.
  induction t1 as [|x t1 IH]; [reflexivity|].
  destruct x; cbn; rewrite ?IH; reflexivity.
Qed.

Lemma yielded_yields l : yielded (yields l) = l.
Proof.
  unfold yields. induction l as [|x l IH]; cbn; [reflexivity | f_equal; exact IH].
Qed.

Lemma puts_yields l : puts (yields l) = [].
Proof. unfold yields. induction l as [|x l IH]; cbn; [reflexivity | exact IH]. Qed.

(** Text deltas at the head of the stream are yielded one by one, unchanged
    and in order; after the first of them content has been produced. *)
Lemma data_streamer_loop_texts e texts tail : forall cp s,
  data_streamer_loop e (text_events texts ++ tail) cp
    (set_stream (text_events texts ++ tail) s)
  = prepend (yields (map TextItem texts))
      (data_streamer_loop e tail
         (cp || match texts with [] => false | _ :: _ => true end)
         (set_stream tail s)).
Proof.
  induction texts as [|v texts IH]; intros cp s.
  - cbn [text_events map app yields]. rewrite prepend_nil, orb_false_r. reflexivity.
  - cbn [text_events map app]. rewrite data_streamer_loop_step. cbn [text_delta event data].
    cbn [String.eqb Ascii.eqb Bool.eqb andb].
    change (set_stream (map (fun v0 => Event (text_delta v0)) texts ++ tail)
              (set_stream (Event (text_delta v)
                           :: map (fun v0 => Event (text_delta v0)) texts ++ tail) s))
      with (set_stream (text_events texts ++ tail) s).
    change (map (fun v0 => Event (text_delta v0)) texts) with (text_events texts).
    rewrite IH, prepend_prepend, orb_true_r. reflexivity.
Qed.

(** X2.  When text deltas, at least one, come before the requires-action
    event, the consumer yields exactly their texts, unchanged and in order,
    and no placeholder; it puts the event on the queue and returns, leaving
    the events after it in the stream. *)
Theorem data_streamer_no_placeholder_after_text
  (e : env) (s : session_state) (v : string) (texts : list string) (r : response)
  (rest : event_stream) :
  event r = "thread.run.requires_action" ->
  let run_ := data_streamer e (set_stream (text_events (v :: texts) ++ Event r :: rest) s) in
  fst (fst run_) = Ok tt
  /\ yielded (snd run_) = map TextItem (v :: texts)
  /\ puts (snd run_) = [r]
  /\ snd (fst run_) = set_tool_requests (tool_requests s ++ [r]) (set_stream rest s).
Proof.
  intros Hr. cbv zeta. unfold data_streamer. rewrite bind_gets, !bind_emit.
  cbn [stream set_stream]. rewrite data_streamer_loop_texts, data_streamer_loop_step, Hr.
  cbn [String.eqb Ascii.eqb Bool.eqb andb orb prepend fst snd].
  repeat split.
  - cbn [yielded]. rewrite yielded_app, yielded_yields. cbn [yielded]. apply app_nil_r.
  - cbn [puts]. rewrite puts_app, puts_yields. reflexivity.
Qed.

Lemma data_streamer_no_placeholder_after_text_witness :
  let run_ := data_streamer unreachable
                (set_stream (text_events ["Top "; "products"; ":"]
                             ++ Event (requires_action_event OtherData)
                                :: [Event (text_delta "late")]) initial_state) in
  fst (fst run_) = Ok tt
  /\ yielded (snd run_) = map TextItem ["Top "; "products"; ":"]
  /\ puts (snd run_) = [requires_action_event OtherData]
  /\ snd (fst run_)
     = set_tool_requests (tool_requests initial_state ++ [requires_action_event OtherData])
         (set_stream [Event (text_delta "late")] initial_state).
Proof.
  apply (data_streamer_no_placeholder_after_text unreachable initial_state "Top "
           ["products"; ":"] (requires_action_event OtherData) [Event (text_delta "late")]).
  reflexivity.
Defined.

(** The consumer on a stream of text deltas only. *)
Lemma data_streamer_texts_run e s texts :
  data_streamer e (set_stream (text_events texts) s)
  = (Ok tt, set_stream [] s,
     [Log INFO "Starting data streamer on " (Some (LStream (text_events texts)));
      UI (StToast "Analyzing data...")]
     ++ yields (map TextItem texts)
     ++ [UI (StToast "Analysis complete");
         Log INFO "Finished data streamer on " (Some (LStream []))]).
Proof.
  unfold data_streamer. rewrite bind_gets, !bind_emit. cbn [stream set_stream].
  pose proof (data_streamer_loop_texts e texts [] false s) as H.
  rewrite !app_nil_r in H. rewrite H. cbn [data_streamer_loop].
  rewrite bind_emit, bind_gets. reflexivity.
Qed.

(** X3.  A stream made of text deltas only is passed through: the consumer
    yields every text, unchanged and in order, puts nothing on the queue,
    uses up the stream and ends with the completion toast and log
    record. *)
Theorem data_streamer_passes_text_through (e : env) (s : session_state) (texts : list string) :
  let run_ := data_streamer e (set_stream (text_events texts) s) in
  fst (fst run_) = Ok tt
  /\ yielded (snd run_) = map TextItem texts
  /\ puts (snd run_) = []
  /\ snd (fst run_) = set_stream [] s
  /\ exists before,
       snd run_ = before ++ [UI (StToast "Analysis complete");
                             Log INFO "Finished data streamer on " (Some (LStream []))].
Proof.
  cbv zeta. rewrite data_streamer_texts_run. cbn [fst snd].
  split; [reflexivity|]. split; [|split; [|split; [reflexivity|]]].
  - cbn [app yielded]. rewrite yielded_app, yielded_yields. cbn. apply app_nil_r.
  - cbn [app puts]. rewrite puts_app, puts_yields. reflexivity.
  - exists ([Log INFO "Starting data streamer on " (Some (LStream (text_events texts)));
             UI (StToast "Analyzing data...")] ++ yields (map TextItem texts)).
    rewrite <- app_assoc. reflexivity.
Qed.

(** X4.  A failed run: after any text deltas, which are yielded as usual,
    the failure event makes the consumer yield the failure notice and
    return; nothing is put on the queue and the events after the failure are
    left in the stream. *)
Theorem data_streamer_failed_run
  (e : env) (s : session_state) (texts : list string) (r : response) (rest : event_stream) :
  event r = "thread.run.failed" ->
  let run_ := data_streamer e (set_stream (text_events texts ++ Event r :: rest) s) in
  fst (fst run_) = Ok tt
  /\ yielded (snd run_) = map TextItem texts ++ [failure_notice]
  /\ puts (snd run_) = []
  /\ snd (fst run_) = set_stream rest s.
Proof.
  intros Hr. cbv zeta. unfold data_streamer. rewrite bind_gets, !bind_emit.
  cbn [stream set_stream]. rewrite data_streamer_loop_texts, data_streamer_loop_step, Hr.
  cbn [String.eqb Ascii.eqb Bool.eqb andb orb prepend fst snd].
  repeat split.
  - cbn [yielded]. rewrite yielded_app, yielded_yields. reflexivity.
  - cbn [puts]. rewrite puts_app, puts_yields. reflexivity.
Qed.

Lemma data_streamer_failed_run_witness :
  let run_ := data_streamer unreachable
                (set_stream (text_events ["Working"]
                             ++ Event (failed_event OtherData) :: [Event (text_delta "late")])
                   initial_state) in
  fst (fst run_) = Ok tt
  /\ yielded (snd run_) = map TextItem ["Working"] ++ [failure_notice]
  /\ puts (snd run_) = []
  /\ snd (fst run_) = set_stream [Event (text_delta "late")] initial_state.
Proof.
  apply (data_streamer_failed_run unreachable initial_state ["Working"]
           (failed_event OtherData) [Event (text_delta "late")]).
  reflexivity.
Defined.

(** ** Recorded files and the transcript *)

Lemma fetched_app t1 t2 : fetched (t1 ++ t2) = fetched t1 ++ fetched t2.
Proof.
  induction t1 as [|x t1 IH]; [reflexivity|].
  destruct x as [| | |f [b|m]| | | | | | | | | | | | | | | | |]; cbn; rewrite ?IH; reflexivity.
Qed.

Lemma data_streamer_loop_records e events : forall cp s,
  assistant_created_file_ids (snd (fst (data_streamer_loop e events cp s)))
  = assistant_created_file_ids s ++ fetched (snd (data_streamer_loop e events cp s))
  /\ List.length (images (yielded (snd (data_streamer_loop e events cp s))))
     <= List.length (fetched (snd (data_streamer_loop e events cp s))).
Proof.
  induction events as [|x rest IH]; intros cp s.
  - cbn [data_streamer_loop]. rewrite bind_emit, bind_gets. cbn.
    rewrite app_nil_r. auto.
  - rewrite data_streamer_loop_step. destruct x as [r|msg]; [|cbn; rewrite app_nil_r; auto].
    destruct (String.eqb (event r) "thread.message.delta").
    + destruct (data r) as [[|[v|f|ty] more]| |]; try (cbn; rewrite app_nil_r; auto; fail).
      * destruct (IH true (set_stream rest s)) as [H1 H2].
        cbn [prepend fst snd app fetched yielded images]. split; [exact H1 | exact H2].
      * destruct (files_content e f) as [bytes|msg]; [|cbn; rewrite app_nil_r; auto].
        cbv zeta. destruct (image_open e bytes) as [img|msg]; [|cbn; auto].
        destruct (IH true (set_assistant_created_file_ids
                             (assistant_created_file_ids s ++ [f]) (set_stream rest s)))
          as [H1 H2].
        cbn [prepend fst snd app fetched yielded images List.length].
        rewrite H1. cbn [assistant_created_file_ids set_assistant_created_file_ids].
        rewrite <- app_assoc. split; [reflexivity | lia].
      * exact (IH cp (set_stream rest s)).
    + destruct (String.eqb (event r) "thread.run.requires_action").
      * destruct cp; cbn; rewrite app_nil_r; auto.
      * destruct (String.eqb (event r) "thread.run.failed");
          [cbn; rewrite app_nil_r; auto | exact (IH cp (set_stream rest s))].
Qed.

(** X5.  Whatever the stream and the remote service do, the consumer
    records a file identifier exactly when the content of that file was
    fetched: the recorded list grows by the fetched files, in order, so a
    file whose fetch raised is not recorded; and no image is yielded whose
    file was not fetched and recorded. *)
Theorem data_streamer_records_fetched_files (e : env) (s : session_state) :
  let run_ := data_streamer e s in
  assistant_created_file_ids (snd (fst run_))
  = assistant_created_file_ids s ++ fetched (snd run_)
  /\ List.length (images (yielded (snd run_))) <= List.length (fetched (snd run_)).
Proof.
  cbv zeta. unfold data_streamer. rewrite bind_gets, !bind_emit.
  cbn [fst snd fetched yielded images]. apply data_streamer_loop_records.
Qed.

Lemma data_streamer_loop_transcript e events : forall cp,
  respects (fun _ => True) same_transcript (data_streamer_loop e events cp).
Proof.
  induction events as [|x events IH]; intros cp; cbn [data_streamer_loop];
    unfold queue_put.
  - footprint.
  - destruct x as [r|msg]; footprint.
Qed.

Lemma data_streamer_transcript e :
  respects (fun _ => True) same_transcript (data_streamer e).
Proof.
  unfold data_streamer. footprint. apply data_streamer_loop_transcript.
Qed.

Lemma add_message_to_state_session_run x s :
  add_message_to_state_session x s
  = (Ok tt,
     if kept x then set_messages (messages s ++ [assistant_message x]) s else s,
     []).
Proof. destruct x as [[|c str]|img]; reflexivity. Qed.

Lemma add_messages_run l : forall s,
  fst (fst (for_each l add_message_to_state_session s)) = Ok tt
  /\ messages (snd (fst (for_each l add_message_to_state_session s)))
     = messages s ++ map assistant_message (filter kept l).
Proof.
  induction l as [|x l IH]; intros s; cbn [for_each].
  - cbn. rewrite app_nil_r. auto.
  - rewrite (bind_ok _ _ _ _ _ _ (add_message_to_state_session_run x s)).
    cbn [fst snd filter]. destruct (IH (if kept x
                                        then set_messages (messages s ++ [assistant_message x]) s
                                        else s)) as [H1 H2].
    split; [exact H1|]. rewrite H2. destruct (kept x); cbn [map messages set_messages].
    + rewrite <- app_assoc. reflexivity.
    + reflexivity.
Qed.

(** X6.  [display_stream] only ever appends to the transcript, and what it
    appends are messages of the assistant, none of them an empty text; when
    the stream aborts with an exception nothing at all is appended, not even
    the fragments already shown. *)
Theorem display_stream_transcript
  (e : env) (content_stream : event_stream) (create_context : bool) (s : session_state) :
  let run_ := display_stream e content_stream create_context s in
  (exists more,
     messages (snd (fst run_)) = messages s ++ more
     /\ Forall (fun m => role m = "assistant" /\ msg_content m <> TextItem "") more)
  /\ (forall x, fst (fst run_) = Raise x -> messages (snd (fst run_)) = messages s).
Proof.
  cbv zeta. unfold display_stream. rewrite bind_modify.
  set (s0 := set_stream content_stream s).
  set (w := if create_context
            then emit (UI (StChatMessage "assistant")) ;; st_write_stream (data_streamer e)
            else st_write_stream (data_streamer e)).
  assert (Hw : respects (fun _ => True) same_transcript w).
  { subst w. destruct create_context; footprint; apply data_streamer_transcript. }
  assert (Hkept : forall l,
             Forall (fun m => role m = "assistant" /\ msg_content m <> TextItem "")
               (map assistant_message (filter kept l))).
  { induction l as [|x l IH]; [constructor|]. cbn [filter].
    destruct (kept x) eqn:E; [|exact IH]. constructor; [|exact IH].
    split; [reflexivity|]. cbn. intros ->. discriminate. }
  rewrite bind_run. destruct (Hw s0) as [_ Hs0].
  destruct (w s0) as [[[response|x] s1] t1]; cbn [fst snd] in *.
  - unfold same_transcript in Hs0. cbn [messages set_stream s0] in Hs0.
    assert (Hadd : exists l,
               fst (fst (match response with
                         | WStr str => add_message_to_state_session (TextItem str)
                         | WList l => for_each l add_message_to_state_session
                         end s1)) = Ok tt
               /\ messages (snd (fst (match response with
                                      | WStr str => add_message_to_state_session (TextItem str)
                                      | WList l => for_each l add_message_to_state_session
                                      end s1)))
                  = messages s1 ++ map assistant_message (filter kept l)).
    { destruct response as [str|l].
      - exists [TextItem str]. rewrite add_message_to_state_session_run. cbn [fst snd filter].
        destruct (kept (TextItem str)); cbn; rewrite ?app_nil_r; auto.
      - exists l. apply add_messages_run. }
    destruct Hadd as (l & Hok & Hm). split.
    + exists (map assistant_message (filter kept l)). rewrite Hm, Hs0. auto.
    + intros x Hx. rewrite Hok in Hx. discriminate.
  - unfold same_transcript in Hs0. cbn [messages set_stream s0] in Hs0. split.
    + exists []. rewrite app_nil_r. split; [exact Hs0 | constructor].
    + intros _ _. exact Hs0.
Qed.

Lemma string_app_nil_r (a : string) : (a ++ "")%string = a.
Proof. induction a as [|c a IH]; cbn; [reflexivity | rewrite IH; reflexivity]. Qed.

Lemma string_app_assoc (a b c : string) : ((a ++ b) ++ c)%string = (a ++ b ++ c)%string.
Proof. induction a as [|x a IH]; cbn; [reflexivity | rewrite IH; reflexivity]. Qed.

Lemma gather_texts texts : forall streamed written_content,
  gather (map TextItem texts) streamed written_content
  = flush (streamed ++ joined texts)%string written_content.
Proof.
  induction texts as [|v texts IH]; intros streamed w; cbn [map gather joined fold_right].
  - rewrite string_app_nil_r. reflexivity.
  - rewrite IH, string_app_assoc. reflexivity.
Qed.

(** X7.  A run that streams text only leaves one message in the
    transcript: the texts put end to end, as a message of the assistant; or
    no message when that text is empty. *)
Theorem display_stream_merges_text
  (e : env) (texts : list string) (create_context : bool) (s : session_state) :
  let run_ := display_stream e (text_events texts) create_context s in
  fst (fst run_) = Ok tt
  /\ messages (snd (fst run_))
     = messages s
       ++ (if String.eqb (joined texts) "" then []
           else [assistant_message (TextItem (joined texts))]).
Proof.
  cbv zeta. unfold display_stream. rewrite bind_modify.
  assert (Hw : st_write_stream (data_streamer e) (set_stream (text_events texts) s)
               = (Ok (if String.eqb (joined texts) "" then WStr ""
                      else WStr (joined texts)),
                  set_stream [] s,
                  snd (data_streamer e (set_stream (text_events texts) s)))).
  { unfold st_write_stream, listen. rewrite bind_run, data_streamer_texts_run.
    cbn [fst snd app yielded]. rewrite yielded_app, yielded_yields. cbn [yielded].
    rewrite app_nil_r, gather_texts. cbn [String.append]. unfold flush.
    destruct (String.eqb (joined texts) ""); cbn; rewrite ?app_nil_r; reflexivity. }
  destruct create_context.
  - rewrite bind_run, bind_emit, Hw. cbn [fst snd].
    destruct (String.eqb_spec (joined texts) "") as [E|E].
    + cbn. rewrite app_nil_r. auto.
    + rewrite add_message_to_state_session_run. cbn [kept fst snd].
      apply String.eqb_neq in E. rewrite E. cbn. auto.
  - rewrite bind_run, Hw. cbn [fst snd].
    destruct (String.eqb_spec (joined texts) "") as [E|E].
    + cbn. rewrite app_nil_r. auto.
    + rewrite add_message_to_state_session_run. cbn [kept fst snd].
      apply String.eqb_neq in E. rewrite E. cbn. auto.
Qed.

(** ** More on the tool dispatcher *)

Lemma handle_tool_call_local e tool outs :
  respects local_effect eq (handle_tool_call e tool outs).
Proof. unfold handle_tool_call, analyze_data_kwargs, analyze_data, logger_info. footprint. Qed.

Lemma handle_tool_calls_local e calls : forall outs,
  respects local_effect eq (handle_tool_calls e calls outs).
Proof.
  induction calls as [|tool calls IH]; intros outs; cbn [handle_tool_calls]; footprint.
  apply handle_tool_call_local.
Qed.

(** X8.  The dispatcher works on the request alone: whether it returns or
    raises, it leaves the session state as it was, and all it does besides
    computing is to show toasts, write log records and sleep; it makes no
    remote call and does not touch the queue. *)
Theorem handle_requires_action_is_local
  (e : env) (request : response) (s : session_state) :
  snd (fst (handle_requires_action e request s)) = s
  /\ Forall local_effect (snd (handle_requires_action e request s)).
Proof.
  assert (H : respects local_effect eq (handle_requires_action e request)).
  { unfold handle_requires_action. footprint. apply handle_tool_calls_local. }
  destruct (H s) as [Ht Hs]. split; [symmetry; exact Hs | exact Ht].
Qed.

Lemma elapsed_app t1 t2 : elapsed (t1 ++ t2) = elapsed t1 + elapsed t2.
Proof.
  induction t1 as [|x t1 IH]; [reflexivity|].
  destruct x; cbn; rewrite ?IH; lia.
Qed.

Lemma analyze_data_kwargs_elapsed v s a s' t :
  analyze_data_kwargs v s = (Ok a, s', t) -> elapsed t = 2.
Proof.
  unfold analyze_data_kwargs. destruct v as [| | | | | |d]; try discriminate.
  destruct (Json.dict_get "dataset_name" d), (Json.dict_get "question" d); try discriminate.
  destruct (Nat.eqb (List.length d) 2); [|discriminate].
  intros H. inversion H; subst. reflexivity.
Qed.

Lemma handle_tool_call_elapsed e tool outs s outs' s' t :
  handle_tool_call e tool outs s = (Ok outs', s', t) ->
  elapsed t = if String.eqb (function_name tool) "analyze_data" then 2 else 0.
Proof.
  unfold handle_tool_call. intros H.
  apply bind_inv in H as [(v & s1 & t1 & t2 & Hv & H & ->)|(x & _ & Hx)]; [|discriminate].
  assert (Ht1 : t1 = []).
  { destruct (String.eqb (function_arguments tool) ""); [inversion Hv; reflexivity|].
    destruct (Json.loads (recursion_room e) (function_arguments tool)); inversion Hv; reflexivity. }
  subst t1. cbn [app].
  destruct (String.eqb (function_name tool) "analyze_data").
  - unfold logger_info in H. rewrite bind_emit in H.
    destruct (bind _ _ s1) as [[r0 s0] t0] eqn:Hb in H. cbn [fst snd] in H.
    inversion H; subst. clear H.
    apply bind_inv in Hb as [(a & s2 & t3 & t4 & Ha & Hr & ->)|(x & _ & Hx)]; [|discriminate].
    inversion Hr; subst. apply analyze_data_kwargs_elapsed in Ha.
    cbn [elapsed]. rewrite elapsed_app, Ha. reflexivity.
  - rewrite bind_emit in H. inversion H; subst. reflexivity.
Qed.

Lemma handle_tool_calls_elapsed e calls : forall outs s outs' s' t,
  handle_tool_calls e calls outs s = (Ok outs', s', t) ->
  elapsed t = 2 * registered_count calls.
Proof.
  induction calls as [|tool calls IH]; intros outs s outs' s' t H; cbn [handle_tool_calls] in H.
  - inversion H; subst. reflexivity.
  - apply bind_inv in H as [(o1 & s1 & t1 & t2 & H1 & H2 & ->)|(x & _ & Hx)]; [|discriminate].
    apply handle_tool_call_elapsed in H1. apply IH in H2.
    rewrite elapsed_app, H1, H2. unfold registered_count. cbn [filter].
    destruct (String.eqb (function_name tool) "analyze_data"); cbn [List.length]; lia.
Qed.

(** X9.  When the dispatcher returns, it has slept two seconds for each
    call to the registered function in the request, and not at all for the
    other calls. *)
Theorem handle_requires_action_sleeps_per_call
  (e : env) (request : response) (d : run) (calls : list tool_call) (s s' : session_state)
  (outs : list tool_output) (thread run_ : string) (t : list effect) :
  data request = RunData d -> required_action d = Some calls ->
  handle_requires_action e request s = (Ok (outs, thread, run_), s', t) ->
  elapsed t = 2 * registered_count calls.
Proof.
  intros Hd Hc H. unfold handle_requires_action in H. rewrite bind_emit, Hd, Hc in H.
  destruct (bind _ _ s) as [[r0 s0] t0] eqn:Hb in H. cbn [fst snd] in H.
  inversion H; subst. clear H.
  apply bind_inv in Hb as [(o & s1 & t1 & t2 & H1 & H2 & ->)|(x & _ & Hx)]; [|discriminate].
  apply handle_tool_calls_elapsed in H1. rewrite bind_emit in H2. inversion H2; subst.
  cbn [elapsed]. rewrite elapsed_app, H1. cbn. lia.
Qed.

Lemma handle_requires_action_sleeps_per_call_witness :
  elapsed (snd (handle_requires_action tooling
                  (request_for [analyze_call; foo_call; analyze_call]) initial_state))
  = 2 * registered_count [analyze_call; foo_call; analyze_call].
Proof.
  eapply (handle_requires_action_sleeps_per_call tooling
            (request_for [analyze_call; foo_call; analyze_call])
            {| run_id := "run_1"; run_thread_id := "thread_1";
               required_action := Some [analyze_call; foo_call; analyze_call] |}
            [analyze_call; foo_call; analyze_call] initial_state).
  - reflexivity.
  - reflexivity.
  - vm_compute. reflexivity.
Defined.



(** X11.  A call to the registered function whose arguments do not give
    exactly its two parameters (absent arguments, a missing or an extra
    key, a value that is not an object) makes the dispatcher raise after the
    log record of the call: no output is produced for it, the function is
    not run and the state is untouched.  Arguments that [json.loads]
    refuses (a text that is not JSON, an integer literal of more than 4300
    digits, nesting beyond the recursion limit) make it raise earlier, with
    no effect at all. *)
Theorem analyze_data_call_bad_parameters_raises
  (e : env) (tool : tool_call) (outs : list tool_output) (s : session_state) :
  function_name tool = "analyze_data" ->
  (forall v,
     decoded_arguments e tool = Returns v -> binds_parameters v = false ->
     exists msg,
       handle_tool_call e tool outs s
       = (Raise (Error msg), s, [Log INFO "Calling analyze_data function" None]))
  /\ (forall msg,
        decoded_arguments e tool = Throws msg ->
        handle_tool_call e tool outs s = (Raise (Error msg), s, [])).
Proof.
  intros Hn. split.
  - intros v Hd Hb. unfold handle_tool_call.
    assert (Hv : (if String.eqb (function_arguments tool) "" then ret (Json.Object [])
                  else lift (Json.loads (recursion_room e) (function_arguments tool))) s
                 = (Ok v, s, [])).
    { unfold decoded_arguments in Hd.
      destruct (String.eqb (function_arguments tool) "").
      - inversion Hd; subst. reflexivity.
      - rewrite Hd. reflexivity. }
    rewrite (bind_ok _ _ _ _ _ _ Hv), Hn. cbn [String.eqb Ascii.eqb Bool.eqb andb fst snd].
    unfold logger_info, analyze_data_kwargs, binds_parameters in *. rewrite bind_emit.
    destruct v as [| | | | | |d]; try (eexists; reflexivity).
    destruct (Json.dict_get "dataset_name" d), (Json.dict_get "question" d);
      try (eexists; reflexivity).
    rewrite Hb. eexists. reflexivity.
  - intros msg Hd. unfold handle_tool_call, decoded_arguments in *.
    destruct (String.eqb (function_arguments tool) ""); [discriminate|].
    rewrite bind_run, Hd. reflexivity.
Qed.

Lemma analyze_data_call_bad_parameters_raises_witness :
  (exists msg,
     handle_tool_call tooling analyze_call_no_arguments [] initial_state
     = (Raise (Error msg), initial_state, [Log INFO "Calling analyze_data function" None]))
  /\ handle_tool_call tooling analyze_call_long_integer [] initial_state
     = (Raise (Error "ValueError: Exceeds the limit (4300 digits) for integer string conversion"),
        initial_state, []).
Proof.
  split.
  - apply (proj1 (analyze_data_call_bad_parameters_raises tooling analyze_call_no_arguments []
                    initial_state eq_refl) (Json.Object [])); reflexivity.
  - apply (proj2 (analyze_data_call_bad_parameters_raises tooling analyze_call_long_integer []
                    initial_state eq_refl)). vm_compute. reflexivity.
Defined.

(** ** The helpers around the remote client *)

(** X12.  [moderation_endpoint] makes exactly one remote call, never
    raises and never changes the state.  When the call returns a non-empty
    list of results it answers the [flagged] field of the first one and
    does nothing else; when the call raises, or returns an empty list of
    results, it writes one error record, carrying the text of the
    exception, and answers [False].  So it answers [True] exactly when the
    first result is flagged. *)
Theorem moderation_endpoint_total (e : env) (q : string) (s : session_state) :
  moderation_endpoint e q s
  = (Ok (moderation_verdict (moderations_create e q)), s,
     ModerationsCreate q (moderations_create e q)
     :: match moderations_create e q with
        | Returns (_ :: _) => []
        | Returns [] =>
            [Log ERROR "Error checking moderation: list index out of range" None]
        | Throws msg => [Log ERROR ("Error checking moderation: " ++ msg)%string None]
        end)
  /\ (moderation_verdict (moderations_create e q) = true
      <-> exists more, moderations_create e q = Returns (true :: more)).
Proof.
  split.
  - unfold moderation_endpoint, try_except, call, bind, emit, logger_error.
    destruct (moderations_create e q) as [[|flagged more]|msg]; reflexivity.
  - destruct (moderations_create e q) as [[|[|] more]|msg]; cbn;
      (split; [try discriminate; eauto | intros [m H]; try discriminate; reflexivity]).
Qed.

Lemma delete_files_trace e l s :
  delete_files e l s = (Ok tt, s, flat_map (delete_file_trace e) l).
Proof.
  unfold delete_files. induction l as [|x l IH]; cbn [for_each flat_map]; [reflexivity|].
  match goal with
  | |- context [bind ?b _] =>
      assert (Hb : b s = (Ok tt, s, delete_file_trace e x))
  end.
  { unfold delete_file_trace, try_except, call, bind, emit, logger_info, logger_error.
    destruct (files_delete e x) as [[]|msg]; reflexivity. }
  rewrite (bind_ok _ _ _ _ _ _ Hb), IH. reflexivity.
Qed.

(** X13.  The deletion helpers never raise and never change the state.
    [delete_files] requests the deletion of every file of the list, in
    order, going on after a failure, and writes one log record per file:
    the success at info level or the failure at error level;
    [delete_thread] does the same for the thread. *)
Theorem deletion_helpers_go_through
  (e : env) (file_id_list : list string) (thread : string) (s : session_state) :
  delete_files e file_id_list s = (Ok tt, s, flat_map (delete_file_trace e) file_id_list)
  /\ files_deleted (flat_map (delete_file_trace e) file_id_list) = file_id_list
  /\ delete_thread e thread s
     = (Ok tt, s,
        [ThreadsDelete thread (threads_delete e thread);
         match threads_delete e thread with
         | Returns _ => Log INFO ("Deleted thread: " ++ thread)%string None
         | Throws msg =>
             Log ERROR ("Error deleting thread " ++ thread ++ ": " ++ msg)%string None
         end]).
Proof.
  split; [apply delete_files_trace|]. split.
  - induction file_id_list as [|x l IH]; [reflexivity|].
    cbn [flat_map delete_file_trace app files_deleted].
    destruct (files_delete e x); cbn [files_deleted]; rewrite IH; reflexivity.
  - unfold delete_thread, try_except, call, bind, emit, logger_info, logger_error.
    destruct (threads_delete e thread) as [[]|msg]; reflexivity.
Qed.

Lemma gather_attachments_all msgs : forall acc,
  existsb lacks_attachments msgs = false ->
  gather_attachments msgs acc = (acc ++ assistant_attachments msgs, None).
Proof.
  induction msgs as [|m msgs IH]; intros acc H; cbn [gather_attachments assistant_attachments flat_map].
  - rewrite app_nil_r. reflexivity.
  - cbn [existsb] in H. apply orb_false_elim in H as [Hm H]. unfold lacks_attachments in Hm.
    destruct (String.eqb (tm_role m) "assistant").
    + destruct (attachments m) as [ids|]; [|discriminate].
      rewrite (IH _ H), <- app_assoc. reflexivity.
    + rewrite (IH _ H). reflexivity.
Qed.

Lemma gather_attachments_stops before m after : forall acc,
  existsb lacks_attachments before = false -> lacks_attachments m = true ->
  gather_attachments (before ++ m :: after) acc
  = (acc ++ assistant_attachments before, Some "'NoneType' object is not iterable").
Proof.
  induction before as [|m' before IH]; intros acc H Hm;
    cbn [gather_attachments assistant_attachments flat_map app].
  - unfold lacks_attachments in Hm. apply andb_prop in Hm as [Hr Ha]. rewrite Hr.
    destruct (attachments m); [discriminate|]. rewrite app_nil_r. reflexivity.
  - cbn [existsb] in H. apply orb_false_elim in H as [Hm' H]. unfold lacks_attachments in Hm'.
    destruct (String.eqb (tm_role m') "assistant").
    + destruct (attachments m') as [ids|]; [|discriminate].
      rewrite (IH _ H Hm), <- app_assoc. reflexivity.
    + rewrite (IH _ H Hm). reflexivity.
Qed.

(** X14.  [retrieve_assistant_created_files] makes one remote call, never
    raises and never changes the state.  When the listing raises it writes
    an error record and returns the empty list.  When every assistant's
    message listed has its attachments, it returns exactly the files
    attached to the assistant's messages, in listing order (attachments of
    the user's messages are left out), and writes nothing.  When an
    assistant's message has no attachments field, iterating over it
    raises inside the [try]: the function writes an error record and
    returns the files gathered from the messages listed before that one. *)
Theorem retrieve_assistant_created_files_total
  (e : env) (thread : option string) (s : session_state) :
  (forall msg,
     messages_list e thread = Throws msg ->
     retrieve_assistant_created_files e thread s
     = (Ok [], s,
        [MessagesList thread (Throws msg);
         Log ERROR ("Error retrieving assistant files: " ++ msg)%string None]))
  /\ (forall msgs,
        messages_list e thread = Returns msgs ->
        existsb lacks_attachments msgs = false ->
        retrieve_assistant_created_files e thread s
        = (Ok (assistant_attachments msgs), s, [MessagesList thread (Returns msgs)]))
  /\ (forall before m after,
        messages_list e thread = Returns (before ++ m :: after) ->
        existsb lacks_attachments before = false -> lacks_attachments m = true ->
        retrieve_assistant_created_files e thread s
        = (Ok (assistant_attachments before), s,
           [MessagesList thread (Returns (before ++ m :: after));
            Log ERROR "Error retrieving assistant files: 'NoneType' object is not iterable"
                None])).
Proof.
  unfold retrieve_assistant_created_files, try_except, call, bind, emit, logger_error.
  split; [|split].
  - intros msg H. rewrite H. reflexivity.
  - intros msgs H Hall. rewrite H. cbn. rewrite (gather_attachments_all _ _ Hall). reflexivity.
  - intros before m after H Hb Hm. rewrite H. cbn.
    rewrite (gather_attachments_stops _ _ _ _ Hb Hm). reflexivity.
Qed.

Lemma retrieve_assistant_created_files_total_witness :
  let msgs := [{| tm_role := "user"; attachments := Some ["file-in"] |};
               {| tm_role := "assistant"; attachments := Some ["file-a"; "file-b"] |};
               {| tm_role := "assistant"; attachments := None |};
               {| tm_role := "assistant"; attachments := Some ["file-c"] |}] in
  retrieve_assistant_created_files (with_listing msgs tooling) (Some "thread_1") initial_state
  = (Ok ["file-a"; "file-b"], initial_state,
     [MessagesList (Some "thread_1") (Returns msgs);
      Log ERROR "Error retrieving assistant files: 'NoneType' object is not iterable" None]).
Proof.
  cbv zeta.
  apply (proj2 (proj2 (retrieve_assistant_created_files_total
                         (with_listing
                            [{| tm_role := "user"; attachments := Some ["file-in"] |};
                             {| tm_role := "assistant"; attachments := Some ["file-a"; "file-b"] |};
                             {| tm_role := "assistant"; attachments := None |};
                             {| tm_role := "assistant"; attachments := Some ["file-c"] |}]
                            tooling)
                         (Some "thread_1") initial_state))
           [{| tm_role := "user"; attachments := Some ["file-in"] |};
            {| tm_role := "assistant"; attachments := Some ["file-a"; "file-b"] |}]
           {| tm_role := "assistant"; attachments := None |}
           [{| tm_role := "assistant"; attachments := Some ["file-c"] |}]);
    reflexivity.
Defined.

Lemma download_buttons_app t1 t2 :
  download_buttons (t1 ++ t2) = download_buttons t1 ++ download_buttons t2.
Proof.
  induction t1 as [|x t1 IH]; [reflexivity|].
  destruct x as [| | | | | | | | | | | | | | | | | | | |[]]; cbn; rewrite ?IH; reflexivity.
Qed.

Lemma error_records_app t1 t2 :
  error_records (t1 ++ t2) = error_records t1 + error_records t2.
Proof.
  induction t1 as [|x t1 IH]; [reflexivity|].
  destruct x as [| | | | | | | | | | | | | | | | | | |[] ? ?|]; cbn; rewrite ?IH; reflexivity.
Qed.

(** One round of the loop: the file is kept when its content and its name
    are both given; it gets a button when Streamlit accepts it and an error
    record otherwise. *)
Lemma render_each_run e l : forall n a b s,
  exists t,
    render_each e l n a b s
    = (Ok (a ++ map (fun d => snd (fst d)) (downloads e l n),
           b ++ map snd (downloads e l n)), s, t)
    /\ download_buttons t
       = map (fun d => download_button (snd (fst d), snd d))
           (filter (button_accepted e) (downloads e l n))
    /\ error_records t + List.length (filter (button_accepted e) (downloads e l n))
       = List.length l.
Proof.
  induction l as [|x l IH]; intros n a b s; cbn [render_each downloads].
  - exists []. rewrite !app_nil_r. repeat split.
  - match goal with
    | |- context [bind ?m _] =>
        assert (Hm : exists t0,
                   m s
                   = (Ok (match files_content e x, files_retrieve_filename e x with
                          | Returns file, Returns name => (a ++ [file], b ++ [name])
                          | _, _ => (a, b)
                          end), s, t0)
                   /\ download_buttons t0
                      = match files_content e x, files_retrieve_filename e x with
                        | Returns file, Returns name =>
                            if button_accepted e (n, file, name)
                            then [download_button (file, name)] else []
                        | _, _ => []
                        end
                   /\ error_records t0
                      = match files_content e x, files_retrieve_filename e x with
                        | Returns file, Returns name =>
                            if button_accepted e (n, file, name) then 0 else 1
                        | _, _ => 1
                        end)
    end.
    { unfold try_except, call, bind, emit, logger_error, st_download_button_at,
        button_accepted, download_button.
      destruct (files_content e x) as [file|msg]; cbn.
      - destruct (files_retrieve_filename e x) as [name|msg]; cbn.
        + destruct (st_download_button e n _ file name) as [[]|msg]; cbn;
            eexists; repeat split.
        + eexists. repeat split.
      - eexists. repeat split. }
    destruct Hm as (t0 & Hm & Hb0 & He0). rewrite (bind_ok _ _ _ _ _ _ Hm).
    destruct (files_content e x) as [file|msg];
      [destruct (files_retrieve_filename e x) as [name|msg]|]; cbn [fst snd];
      match goal with
      | |- context [render_each e l (S n) ?a' ?b' s] =>
          destruct (IH (S n) a' b' s) as (t & Ht & Hb & He)
      end; rewrite Ht; cbn [fst snd]; exists (t0 ++ t);
      rewrite download_buttons_app, error_records_app, Hb0, He0, Hb.
    + cbn [map filter]. rewrite <- !app_assoc. cbn [app fst snd].
      destruct (button_accepted e (n, file, name)); cbn [map List.length app fst snd];
        repeat split; lia.
    + repeat split. cbn [List.length]. lia.
    + repeat split. cbn [List.length]. lia.
Qed.

(** X15.  [render_download_files] never raises and never changes the
    state.  It returns as many file contents as file names: one pair, in
    order, for each file whose content and name the remote service gave.
    The pair is stored before the button is rendered, so the buttons on
    the page are those of the pairs that Streamlit accepted, labelled with
    the name and carrying the content; a pair whose button Streamlit
    refused is returned without a button.  Every file of the list has
    either its button or one error record.  For the empty list the
    function does nothing at all. *)
Theorem render_download_files_total (e : env) (file_id_list : list string) (s : session_state) :
  exists t,
    render_download_files e file_id_list s
    = (Ok (map (fun d => snd (fst d)) (downloads e file_id_list 0),
           map snd (downloads e file_id_list 0)), s, t)
    /\ download_buttons t
       = map (fun d => download_button (snd (fst d), snd d))
           (filter (button_accepted e) (downloads e file_id_list 0))
    /\ error_records t + List.length (download_buttons t) = List.length file_id_list
    /\ (file_id_list = [] -> t = []).
Proof.
  unfold render_download_files. destruct file_id_list as [|x l].
  - exists []. repeat split.
  - rewrite bind_emit.
    destruct (render_each_run e (x :: l) 0 [] [] s) as (t & Ht & Hb & He).
    rewrite Ht. cbn [fst snd app]. eexists. split; [reflexivity|].
    cbn [download_buttons error_records]. rewrite Hb, length_map.
    repeat split; [exact He | discriminate].
Qed.

(** A file whose button Streamlit refuses is returned all the same. *)
Lemma render_download_files_total_witness :
  exists t,
    render_download_files second_button_refused ["file-a"; "file-b"] initial_state
    = (Ok (["bytes"; "bytes"], ["chart.png"; "chart.png"]), initial_state, t)
    /\ download_buttons t = [StDownloadButton "Download chart.png" "bytes" "chart.png"]
    /\ error_records t + List.length (download_buttons t) = 2
    /\ (["file-a"; "file-b"] = [] -> t = []).
Proof.
  apply (render_download_files_total second_button_refused ["file-a"; "file-b"] initial_state).
Defined.

(** ** The steps of [main] before the chat *)

Lemma set_assistant_same s a : assistant s = Some a -> set_assistant (Some a) s = s.
Proof. destruct s. cbn. intros ->. reflexivity. Qed.

(** X16.  The assistant is looked up at most once per session: when
    [init_assistant] returns an assistant, it is stored in the session and
    nothing else of the state has changed, and from then on
    [init_assistant] returns the stored assistant without any remote call,
    whatever the remote service would answer. *)
Theorem init_assistant_once
  (e : env) (s s1 : session_state) (a : assistant_obj) (t1 : list effect) :
  init_assistant e s = (Ok a, s1, t1) ->
  s1 = set_assistant (Some a) s
  /\ forall e', init_assistant e' s1 = (Ok a, s1, []).
Proof.
  unfold init_assistant. rewrite bind_gets. destruct (assistant s) as [a0|] eqn:Hs.
  - intros H. inversion H; subst. split.
    + symmetry. apply set_assistant_same. exact Hs.
    + intros e'. rewrite bind_gets, Hs. reflexivity.
  - intros H.
    apply bind_inv in H as [(a' & s2 & t2 & t3 & Hl & H & ->)|(x & _ & Hx)]; [|discriminate].
    match type of Hl with
    | ?m s = _ =>
        assert (Hk : respects pre_analysis eq m)
          by (unfold logger_info; cbv zeta; footprint);
        destruct (Hk s) as [_ Heq]; rewrite Hl in Heq
    end.
    cbn [fst snd] in Heq. subst s2. rewrite bind_modify in H. inversion H; subst.
    split; [reflexivity|]. intros e'. rewrite bind_gets. reflexivity.
Qed.

Lemma init_assistant_once_witness :
  init_assistant tooling initial_state
  = (Ok assistant_1, set_assistant (Some assistant_1) initial_state,
     [AssistantsRetrieve "assistant_id_fallback" (Returns assistant_1);
      Log INFO "Located assistant: Data Analysis Assistant" None])
  /\ init_assistant unreachable (set_assistant (Some assistant_1) initial_state)
     = (Ok assistant_1, set_assistant (Some assistant_1) initial_state, []).
Proof.
  assert (H : init_assistant tooling initial_state
              = (Ok assistant_1, set_assistant (Some assistant_1) initial_state,
                 [AssistantsRetrieve "assistant_id_fallback" (Returns assistant_1);
                  Log INFO "Located assistant: Data Analysis Assistant" None]))
    by (vm_compute; reflexivity).
  split; [exact H|].
  apply (init_assistant_once tooling initial_state
           (set_assistant (Some assistant_1) initial_state) assistant_1 _ H).
Defined.

#[local] Instance same_step_frame : Frame same_step.
Proof.
  split.
  - intros s. split; [reflexivity | apply frame_refl].
  - intros a b c [H1 H2] [H3 H4]. split; [congruence | eapply frame_trans; eassumption].
Qed.

Lemma init_assistant_pre_analysis e : respects pre_analysis same_step (init_assistant e).
Proof.
  unfold init_assistant, logger_info. footprint.
  split; [reflexivity | repeat split].
Qed.

Lemma upload_section_pre_analysis e i :
  respects pre_analysis same_conversation (upload_section e i).
Proof. unfold upload_section, logger_info, st_error. footprint. Qed.

Lemma set_file_ids_same s : set_file_ids (file_ids s ++ []) s = s.
Proof. destruct s. cbn. rewrite app_nil_r. reflexivity. Qed.

(** The upload loop: the accepted files add their identifiers, the
    refused ones are reported and skipped. *)
Lemma upload_loop_run e files : forall s,
  exists t,
    for_each files
      (fun file =>
         try_except
           (oai_file_id <- call (files_create e file) (FilesCreate file) ;;
            modify (fun s => set_file_ids (file_ids s ++ [oai_file_id]) s) ;;
            logger_info ("Uploaded file: " ++ upload_name file ++ " with ID: "
                         ++ oai_file_id)%string)
           (fun msg =>
              st_error ("Error uploading " ++ upload_name file ++ ": " ++ msg)%string)) s
    = (Ok tt, set_file_ids (file_ids s ++ uploaded_ids e files) s, t).
Proof.
  induction files as [|file files IH]; intros s; cbn [for_each uploaded_ids].
  - exists []. rewrite set_file_ids_same. reflexivity.
  - match goal with
    | |- context [bind ?b _] =>
        assert (Hb : exists t0,
                   b s = (Ok tt,
                          match files_create e file with
                          | Returns id => set_file_ids (file_ids s ++ [id]) s
                          | Throws _ => s
                          end, t0))
    end.
    { unfold try_except, call, bind, emit, modify, logger_info, st_error.
      destruct (files_create e file) as [id|msg]; cbn; eexists; reflexivity. }
    destruct Hb as (t0 & Hb). rewrite (bind_ok _ _ _ _ _ _ Hb).
    destruct (files_create e file) as [id|msg].
    + destruct (IH (set_file_ids (file_ids s ++ [id]) s)) as (t & Ht). rewrite Ht.
      cbn [fst snd file_ids set_file_ids]. rewrite <- app_assoc. eexists. reflexivity.
    + destruct (IH s) as (t & Ht). rewrite Ht. eexists. reflexivity.
Qed.

(** The upload step when the button is pressed on a selection of files. *)
Lemma upload_section_run e i s :
  file_uploaded s = false -> uploaded_files i <> [] -> upload_clicked i = true ->
  exists t,
    upload_section e i s
    = (match uploaded_ids e (uploaded_files i) with
       | [] => Ok tt
       | _ :: _ => Raise RerunException
       end,
       after_upload (uploaded_ids e (uploaded_files i)) s, t).
Proof.
  intros Hu Hf Hc. unfold upload_section. rewrite bind_gets, Hu, bind_emit.
  destruct (uploaded_files i) as [|f files] eqn:E; [contradiction|]. rewrite Hc.
  rewrite bind_modify, bind_emit.
  destruct (upload_loop_run e (f :: files) (set_file_ids [] s)) as (t & Ht).
  rewrite (bind_ok _ _ _ _ _ _ Ht), bind_gets.
  cbn [file_ids set_file_ids app fst snd].
  destruct (uploaded_ids e (f :: files)) as [|id ids]; cbn; eexists; reflexivity.
Qed.

(** X17.  Pressing the upload button on a selection of files discards the
    file identifiers the session held and stores those the remote service
    returned, in upload order, skipping the files it refused.  If at least
    one file was accepted the uploaded flag is set and a rerun is requested;
    if none was, the step returns with the flag still unset and an empty
    list. *)
Theorem upload_section_outcome (e : env) (i : inputs) (s : session_state) :
  file_uploaded s = false -> uploaded_files i <> [] -> upload_clicked i = true ->
  let run_ := upload_section e i s in
  let ids := uploaded_ids e (uploaded_files i) in
  file_ids (snd (fst run_)) = ids
  /\ snd (fst run_) = after_upload ids s
  /\ (ids = [] -> fst (fst run_) = Ok tt /\ file_uploaded (snd (fst run_)) = false)
  /\ (ids <> [] ->
      fst (fst run_) = Raise RerunException /\ file_uploaded (snd (fst run_)) = true).
Proof.
  intros Hu Hf Hc. cbv zeta.
  destruct (upload_section_run e i s Hu Hf Hc) as (t & Ht). rewrite Ht. cbn [fst snd].
  destruct (uploaded_ids e (uploaded_files i)) as [|id ids]; cbn.
  - split; [reflexivity|]. split; [reflexivity|]. split.
    + intros _. split; [reflexivity | exact Hu].
    + intros Hne. contradiction.
  - split; [reflexivity|]. split; [reflexivity|]. split.
    + discriminate.
    + intros _. split; reflexivity.
Qed.

Lemma upload_section_outcome_witness :
  let run_ := upload_section tooling upload_sales initial_state in
  file_ids (snd (fst run_)) = ["file-in"]
  /\ fst (fst run_) = Raise RerunException
  /\ file_uploaded (snd (fst run_)) = true.
Proof.
  destruct (upload_section_outcome tooling upload_sales initial_state eq_refl)
    as (H1 & _ & _ & H2).
  - discriminate.
  - reflexivity.
  - split; [exact H1|]. apply H2. discriminate.
Defined.

(** When the upload step returns, the uploaded flag is as it was. *)
Lemma upload_section_ok e i s u s2 t :
  upload_section e i s = (Ok u, s2, t) -> file_uploaded s2 = file_uploaded s.
Proof.
  intros H. destruct (file_uploaded s) eqn:Hu.
  - unfold upload_section in H. rewrite bind_gets, Hu in H. inversion H; subst. exact Hu.
  - destruct (uploaded_files i) as [|f files] eqn:Ef.
    + unfold upload_section in H. rewrite bind_gets, Hu, bind_emit, Ef in H.
      inversion H; subst. exact Hu.
    + destruct (upload_clicked i) eqn:Ec.
      * assert (Hf : uploaded_files i <> []) by (rewrite Ef; discriminate).
        destruct (upload_section_run e i s Hu Hf Ec) as (t' & Ht). rewrite Ht in H.
        destruct (uploaded_ids e (uploaded_files i)); inversion H; subst. exact Hu.
      * unfold upload_section in H. rewrite bind_gets, Hu, bind_emit, Ef, Ec in H.
        inversion H; subst. exact Hu.
Qed.

(** X18.  As long as no file has been uploaded, a run of [main] stops
    after the upload step: whatever the widgets return, the chat input
    included, it only looks up the assistant, uploads files and draws the
    interface.  It creates no thread, checks and sends no question, starts
    no run and deletes nothing; transcript, thread and queue are untouched;
    and if it returns, the uploaded flag is still unset. *)
Theorem main_waits_for_upload (e : env) (i : inputs) (s : session_state) :
  file_uploaded s = false ->
  let run_ := main e i s in
  Forall pre_analysis (snd run_)
  /\ same_conversation s (snd (fst run_))
  /\ (fst (fst run_) = Ok tt -> file_uploaded (snd (fst run_)) = false).
Proof.
  intros Hu. cbv zeta. unfold main. rewrite !bind_emit. cbn [fst snd].
  rewrite bind_run. destruct (init_assistant_pre_analysis e s) as [Ht1 [Hu1 Hc1]].
  destruct (init_assistant e s) as [[[a|x] s1] t1]; cbn [fst snd] in *.
  - rewrite bind_run. destruct (upload_section_pre_analysis e i s1) as [Ht2 Hc2].
    pose proof (upload_section_ok e i s1) as Hok.
    destruct (upload_section e i s1) as [[[u|x] s2] t2]; cbn [fst snd] in *.
    + specialize (Hok u s2 t2 eq_refl). rewrite bind_gets, Hok, Hu1, Hu. cbn.
      rewrite app_nil_r. split; [|split].
      * repeat constructor. apply Forall_app. auto.
      * eapply frame_trans; eassumption.
      * intros _. congruence.
    + split; [|split].
      * repeat constructor. apply Forall_app. auto.
      * eapply frame_trans; eassumption.
      * discriminate.
  - split; [|split].
    + repeat constructor. exact Ht1.
    + exact Hc1.
    + discriminate.
Qed.

Lemma main_waits_for_upload_witness :
  let run_ := main tooling (ask "what sold best?") initial_state in
  Forall pre_analysis (snd run_)
  /\ same_conversation initial_state (snd (fst run_))
  /\ (fst (fst run_) = Ok tt -> file_uploaded (snd (fst run_)) = false).
Proof.
  apply (main_waits_for_upload tooling (ask "what sold best?") initial_state). reflexivity.
Defined.

(** X19.  When the thread is created but attaching the files raises,
    [ensure_thread] raises with the new thread identifier already stored,
    so the next run finds a thread and makes no further attempt: the files
    are never attached to it. *)
Theorem ensure_thread_attach_failure_is_final
  (e : env) (s : session_state) (id msg : string) :
  Py.truthy (thread_id s) = false ->
  threads_create e = Returns id -> id <> "" ->
  threads_update e (Some id) (file_ids s) = Throws msg ->
  ensure_thread e s
  = (Raise (Error msg), set_thread_id (Some id) s,
     [ThreadsCreate (Returns id); Log INFO ("Created new thread: " ++ id)%string None;
      ThreadsUpdate (Some id) (file_ids s) (Throws msg)])
  /\ forall e', ensure_thread e' (set_thread_id (Some id) s)
                = (Ok tt, set_thread_id (Some id) s, []).
Proof.
  intros Ht Hc Hid Hu. split.
  - rewrite ensure_thread_run, Ht. unfold thread_creation. rewrite Hc, Hu. reflexivity.
  - intros e'. rewrite ensure_thread_run. cbn [thread_id set_thread_id Py.truthy].
    apply String.eqb_neq in Hid. rewrite Hid. reflexivity.
Qed.

Lemma ensure_thread_attach_failure_is_final_witness :
  ensure_thread attach_fails uploaded_state
  = (Raise (Error "invalid file"), set_thread_id (Some "thread_1") uploaded_state,
     [ThreadsCreate (Returns "thread_1"); Log INFO "Created new thread: thread_1" None;
      ThreadsUpdate (Some "thread_1") ["file-in"] (Throws "invalid file")])
  /\ ensure_thread tooling (set_thread_id (Some "thread_1") uploaded_state)
     = (Ok tt, set_thread_id (Some "thread_1") uploaded_state, []).
Proof.
  destruct (ensure_thread_attach_failure_is_final attach_fails uploaded_state "thread_1"
              "invalid file" eq_refl eq_refl) as [H1 H2].
  - discriminate.
  - reflexivity.
  - split; [exact H1 | apply H2].
Defined.

(** ** The queue between runs *)

#[local] Instance same_queue_frame : Frame same_queue.
Proof. split; unfold same_queue; intros; congruence. Qed.

#[local] Instance queue_cleared_track : Track queue_cleared.
Proof. split; unfold queue_cleared; auto. Qed.

Lemma queue_cleared_of_same {A} (m : M A) :
  respects (fun _ => True) same_queue m -> follows queue_cleared m.
Proof. intros H s Hs. destruct (H s) as [_ Hq]. unfold same_queue in Hq. congruence. Qed.

Lemma queue_cleared_of_quiet {A} (m : M A) :
  respects quiet same_conversation m -> follows queue_cleared m.
Proof. intros H s Hs. destruct (H s) as [_ (Hq & _)]. congruence. Qed.

Lemma handle_requires_action_keeps_state e request s :
  snd (fst (handle_requires_action e request s)) = s.
Proof.
  assert (H : respects local_effect eq (handle_requires_action e request)).
  { unfold handle_requires_action. footprint. apply handle_tool_calls_local. }
  destruct (H s) as [_ Hs]. symmetry. exact Hs.
Qed.

(** One call of the consumer leaves the queue as it was, or returns having
    added one request. *)
Lemma data_streamer_queue_step e s :
  tool_requests (snd (fst (data_streamer e s))) = tool_requests s
  \/ (fst (fst (data_streamer e s)) = Ok tt
      /\ exists rq, tool_requests (snd (fst (data_streamer e s))) = tool_requests s ++ [rq]).
Proof.
  unfold data_streamer. rewrite bind_gets, !bind_emit. cbn [fst snd].
  destruct (data_streamer_loop_queue e (stream s) false s) as [Hq _].
  destruct (data_streamer_loop_stops e (stream s) false s eq_refl)
    as [_ [Hn|(c & rq & Hp & Hok & _)]].
  - left. rewrite Hq, Hn. apply app_nil_r.
  - right. split; [exact Hok|]. exists rq. rewrite Hq, Hp. reflexivity.
Qed.

Lemma add_messages_same_queue (response : written) :
  respects (fun _ => True) same_queue
    (match response with
     | WList l => for_each l add_message_to_state_session
     | WStr str => add_message_to_state_session (TextItem str)
     end).
Proof. unfold add_message_to_state_session. footprint. Qed.

Lemma add_messages_ok (response : written) s :
  fst (fst (match response with
            | WList l => for_each l add_message_to_state_session
            | WStr str => add_message_to_state_session (TextItem str)
            end s)) = Ok tt.
Proof.
  destruct response as [str|l].
  - rewrite add_message_to_state_session_run. reflexivity.
  - apply add_messages_run.
Qed.

Lemma display_stream_queue_step e content_stream create_context s :
  tool_requests (snd (fst (display_stream e content_stream create_context s)))
  = tool_requests s
  \/ (fst (fst (display_stream e content_stream create_context s)) = Ok tt
      /\ exists rq,
           tool_requests (snd (fst (display_stream e content_stream create_context s)))
           = tool_requests s ++ [rq]).
Proof.
  unfold display_stream. rewrite bind_modify.
  set (s0 := set_stream content_stream s).
  assert (Hw : forall pre,
             let w := (fun s1 => prepend pre (st_write_stream (data_streamer e) s1)) in
             tool_requests (snd (fst (w s0))) = tool_requests s
             \/ ((exists r, fst (fst (w s0)) = Ok r)
                 /\ exists rq, tool_requests (snd (fst (w s0))) = tool_requests s ++ [rq])).
  { intros pre. cbv beta zeta. unfold prepend, st_write_stream, listen. cbn [fst snd].
    rewrite bind_run.
    destruct (data_streamer_queue_step e s0) as [H|(Hok & rq & H)];
      destruct (data_streamer e s0) as [[[u|x] s1] t1]; cbn [fst snd] in *;
      try discriminate.
    - left. destruct (gather _ _ _) as [|[x|x] [|y l]]; exact H.
    - left. exact H.
    - right. split.
      + destruct (gather _ _ _) as [|[x|x] [|y l]]; eexists; reflexivity.
      + exists rq. destruct (gather _ _ _) as [|[x|x] [|y l]]; exact H. }
  assert (Hstep : forall (w : M written),
             (tool_requests (snd (fst (w s0))) = tool_requests s
              \/ ((exists r, fst (fst (w s0)) = Ok r)
                  /\ exists rq, tool_requests (snd (fst (w s0))) = tool_requests s ++ [rq])) ->
             tool_requests
               (snd (fst ((response <- w ;;
                           match response with
                           | WList l => for_each l add_message_to_state_session
                           | WStr str => add_message_to_state_session (TextItem str)
                           end) s0))) = tool_requests s
             \/ (fst (fst ((response <- w ;;
                            match response with
                            | WList l => for_each l add_message_to_state_session
                            | WStr str => add_message_to_state_session (TextItem str)
                            end) s0)) = Ok tt
                 /\ exists rq,
                      tool_requests
                        (snd (fst ((response <- w ;;
                                    match response with
                                    | WList l => for_each l add_message_to_state_session
                                    | WStr str => add_message_to_state_session (TextItem str)
                                    end) s0))) = tool_requests s ++ [rq])).
  { intros w H. rewrite bind_run.
    destruct (w s0) as [[[response|x] s1] t1]; cbn [fst snd] in *.
    - destruct (add_messages_same_queue response s1) as [_ Hq]. unfold same_queue in Hq.
      pose proof (add_messages_ok response s1) as Hok.
      destruct H as [H|(_ & rq & H)].
      + left. congruence.
      + right. split; [exact Hok|]. exists rq. congruence.
    - destruct H as [H|((r & Hr) & _)]; [left; exact H | discriminate]. }
  destruct create_context.
  - apply Hstep. specialize (Hw [UI (StChatMessage "assistant")]). cbv beta zeta in Hw.
    rewrite bind_emit. exact Hw.
  - apply Hstep. specialize (Hw []). cbv beta zeta in Hw. rewrite prepend_nil in Hw. exact Hw.
Qed.

(** Started with at most one pending request, the loop over the queue ends
    with an empty queue, whether it returns, raises or waits for ever. *)
Lemma handle_tool_requests_empties e replies : forall s,
  List.length (tool_requests s) <= 1 ->
  tool_requests (snd (fst (handle_tool_requests e replies s))) = [].
Proof.
  induction replies as [|reply_ replies IH]; intros s Hlen;
    rewrite handle_tool_requests_round;
    destruct (tool_requests s) as [|request [|r2 pending]] eqn:E;
    try (cbn in Hlen; lia); try exact E; unfold prepend; cbn [fst snd];
    rewrite bind_run;
    pose proof (handle_requires_action_keeps_state e request (set_tool_requests [] s)) as Hk;
    destruct (handle_requires_action e request (set_tool_requests [] s))
      as [[[[[outs thread] run_]|x] s1] t1]; cbn [fst snd] in *; subst s1;
    try reflexivity.
  unfold call. rewrite bind_run, bind_emit.
  destruct reply_ as [st|msg]; [|reflexivity]. cbn [ret fst snd].
  rewrite bind_run.
  destruct (display_stream_queue_step e st false (set_tool_requests [] s))
    as [H|(Hok & rq & H)];
    destruct (display_stream e st false (set_tool_requests [] s)) as [[[u|x] s2] t2];
    cbn [fst snd] in *; try discriminate; try exact H.
  - apply IH. rewrite H. cbn. lia.
  - apply IH. rewrite H. cbn. lia.
Qed.

Lemma run_assistant_clears e a : follows queue_cleared (run_assistant e a).
Proof.
  intros s Hs. unfold run_assistant. rewrite bind_gets. unfold call.
  rewrite bind_run, bind_emit.
  destruct (runs_stream e (thread_id s) (asst_id a)) as [st|msg]; [|exact Hs].
  cbn [ret fst snd]. rewrite bind_run.
  destruct (display_stream_queue_step e st true s) as [H|(Hok & rq & H)];
    destruct (display_stream e st true s) as [[[u|x] s2] t2];
    cbn [fst snd] in *; try discriminate; try congruence.
  - apply handle_tool_requests_empties. rewrite H, Hs. cbn. lia.
  - apply handle_tool_requests_empties. rewrite H, Hs. cbn. lia.
Qed.

Lemma main_clears_queue e i : follows queue_cleared (main e i).
Proof.
  unfold main, analysis_section, question_section, answer_question, submit_question,
    offer_created_files, reset_section, ensure_thread, logger_info, st_error.
  track;
    try (apply queue_cleared_of_quiet;
         first [ apply quiet_init_assistant | apply quiet_upload_section
               | apply quiet_display_history | apply quiet_moderation_endpoint
               | apply quiet_retrieve_assistant_created_files
               | apply quiet_render_download_files | apply quiet_delete_thread
               | apply quiet_delete_files ]);
    try apply run_assistant_clears;
    unfold queue_cleared; cbn; auto.
Qed.

(** X20.  No tool request survives a run: if the queue is empty when
    [main] starts, it is empty when [main] ends, whether the run returned,
    raised an exception, asked for a rerun or got no answer from the remote
    service; so in every session the queue is empty between runs. *)
Theorem queue_is_empty_between_runs (runs : list (env * inputs)) :
  tool_requests (fst (session runs initial_state)) = []
  /\ forall e i s, tool_requests s = [] -> tool_requests (snd (fst (main e i s))) = [].
Proof.
  split; [|intros e i s; apply main_clears_queue].
  assert (H : forall s, tool_requests s = [] -> tool_requests (fst (session runs s)) = []).
  { induction runs as [|[e i] runs IH]; intros s Hs; cbn [session]; [exact Hs|].
    pose proof (main_clears_queue e i s Hs) as Hm.
    destruct (main e i s) as [[r s1] t1]. cbn [fst snd] in Hm.
    specialize (IH s1 Hm). destruct (session runs s1) as [s2 t2]. exact IH. }
  apply H. reflexivity.
Qed.

Lemma queue_is_empty_between_runs_witness :
  let runs := [(tooling, upload_sales); (tooling, ask "what sold best?")] in
  tool_requests (fst (session runs initial_state)) = []
  /\ tool_requests uploaded_state = []
  /\ tool_requests (snd (fst (main tooling (ask "what sold best?") uploaded_state))) = [].
Proof.
  cbv zeta.
  destruct (queue_is_empty_between_runs
              [(tooling, upload_sales); (tooling, ask "what sold best?")]) as [H1 H2].
  split; [exact H1|]. split; [reflexivity|]. apply H2. reflexivity.
Defined.

(** ** The files a thread is given *)

Lemma files_created_app t1 t2 :
  files_created (t1 ++ t2) = files_created t1 ++ files_created t2.
Proof.
  induction t1 as [|x t1 IH]; [reflexivity|].
  destruct x as [| |file [id|msg]| | | | | | | | | | | | | | | | | |]; cbn;
    rewrite ?IH; reflexivity.
Qed.

Lemma attaches_known_files_app t1 : forall known t2,
  attaches_known_files known (t1 ++ t2)
  <-> attaches_known_files known t1
      /\ attaches_known_files (known ++ files_created t1) t2.
Proof.
  induction t1 as [|x t1 IH]; intros known t2.
  - cbn. rewrite app_nil_r. tauto.
  - destruct x as [| |file [id|msg]| | | | | | | | | | | | | | | | | |]; cbn;
      rewrite ?IH, <- ?app_assoc; cbn; tauto.
Qed.

Lemma files_created_In id t :
  In id (files_created t) -> exists file, In (FilesCreate file (Returns id)) t.
Proof.
  induction t as [|x t IH]; [contradiction|].
  destruct x as [| |file [id'|msg]| | | | | | | | | | | | | | | | | |]; cbn; intros H;
    try (destruct (IH H) as [f Hf]; exists f; auto).
  destruct H as [->|H].
  - exists file. auto.
  - destruct (IH H) as [f Hf]. exists f. auto.
Qed.

(** An attachment found in a trace that attaches known files only. *)
Lemma attaches_known_files_at known t1 thread files out t2 :
  attaches_known_files known (t1 ++ ThreadsUpdate thread files out :: t2) ->
  files <> [] /\ incl files (known ++ files_created t1).
Proof.
  intros H. apply attaches_known_files_app in H as [_ H]. cbn in H.
  destruct H as [H _]. exact H.
Qed.

#[local] Instance uploads_known_track : Track uploads_known.
Proof.
  split.
  - intros s known Hk Hc. split; [exact I|]. cbn. rewrite app_nil_r. auto.
  - intros s t1 s1 t2 s2 H1 H2 known Hk Hc.
    destruct (H1 known Hk Hc) as (Ha & Hb & Hd).
    destruct (H2 (known ++ files_created t1) Hb Hd) as (Ha' & Hb' & Hd').
    split; [|split].
    + apply attaches_known_files_app. auto.
    + rewrite files_created_app, app_assoc. exact Hb'.
    + exact Hd'.
Qed.

#[local] Instance same_uploads_frame : Frame same_uploads.
Proof.
  split.
  - intros s. split; reflexivity.
  - intros a b c [H1 H2] [H3 H4]. split; congruence.
Qed.

Lemma apart_from_uploads_known t :
  Forall apart_from_uploads t ->
  (forall known, attaches_known_files known t) /\ files_created t = [].
Proof.
  induction 1 as [|x t Hx _ [IH1 IH2]]; [split; [intros; exact I | reflexivity]|].
  destruct x; cbn in *; try contradiction; auto.
Qed.

Lemma uploads_known_of_apart {A} (m : M A) :
  respects apart_from_uploads same_uploads m -> follows uploads_known m.
Proof.
  intros H s known Hk Hc. destruct (H s) as [Ht [Hu Hi]].
  destruct (apart_from_uploads_known _ Ht) as [Ha Hf]. split; [apply Ha|].
  rewrite Hf, app_nil_r, Hi. split; [exact Hk|].
  unfold upload_complete. rewrite Hu, Hi. exact Hc.
Qed.

(** *** What leaves the uploads alone *)

Lemma handle_requires_action_apart e request :
  respects apart_from_uploads same_uploads (handle_requires_action e request).
Proof.
  apply (respects_weaken local_effect apart_from_uploads eq same_uploads).
  - intros x. destruct x; cbn; tauto.
  - intros s s' <-. apply frame_refl.
  - unfold handle_requires_action. footprint. apply handle_tool_calls_local.
Qed.

Lemma moderation_endpoint_apart e q :
  respects apart_from_uploads same_uploads (moderation_endpoint e q).
Proof. unfold moderation_endpoint, logger_error. footprint. Qed.

Lemma delete_files_apart e l : respects apart_from_uploads same_uploads (delete_files e l).
Proof. unfold delete_files, logger_info, logger_error. footprint. Qed.

Lemma delete_thread_apart e t : respects apart_from_uploads same_uploads (delete_thread e t).
Proof. unfold delete_thread, logger_info, logger_error. footprint. Qed.

Lemma retrieve_assistant_created_files_apart e t :
  respects apart_from_uploads same_uploads (retrieve_assistant_created_files e t).
Proof. unfold retrieve_assistant_created_files, logger_error. footprint. Qed.

Lemma render_each_apart e l : forall n a b,
  respects apart_from_uploads same_uploads (render_each e l n a b).
Proof.
  induction l as [|x l IH]; intros n a b; simpl.
  - footprint.
  - unfold logger_error, st_download_button_at. footprint. apply IH.
Qed.

Lemma render_download_files_apart e l :
  respects apart_from_uploads same_uploads (render_download_files e l).
Proof. unfold render_download_files. footprint; apply render_each_apart. Qed.

Lemma init_assistant_apart e : respects apart_from_uploads same_uploads (init_assistant e).
Proof. unfold init_assistant, logger_info. footprint. Qed.

Lemma display_history_apart : respects apart_from_uploads same_uploads display_history.
Proof. unfold display_history. footprint. Qed.

Lemma data_streamer_loop_apart e events : forall cp,
  respects apart_from_uploads same_uploads (data_streamer_loop e events cp).
Proof.
  induction events as [|x events IH]; intros cp; cbn [data_streamer_loop];
    unfold queue_put.
  - footprint.
  - destruct x as [r|msg]; footprint.
Qed.

Lemma display_stream_apart e content_stream create_context :
  respects apart_from_uploads same_uploads (display_stream e content_stream create_context).
Proof.
  unfold display_stream, data_streamer, add_message_to_state_session.
  footprint; apply data_streamer_loop_apart.
Qed.

Lemma handle_tool_requests_apart e replies :
  respects apart_from_uploads same_uploads (handle_tool_requests e replies).
Proof.
  induction replies as [|r replies IH]; cbn [handle_tool_requests];
    unfold logger_info, queue_empty, queue_get;
    footprint;
    try apply handle_requires_action_apart;
    try apply display_stream_apart.
Qed.

Lemma answer_question_apart e a q :
  respects apart_from_uploads same_uploads (answer_question e a q).
Proof.
  unfold answer_question, submit_question, run_assistant, offer_created_files.
  footprint;
    try apply display_stream_apart; try apply handle_tool_requests_apart;
    try apply retrieve_assistant_created_files_apart;
    try apply render_download_files_apart.
Qed.

Lemma question_section_apart e a i :
  respects apart_from_uploads same_uploads (question_section e a i).
Proof.
  unfold question_section, st_error.
  footprint; try apply moderation_endpoint_apart; apply answer_question_apart.
Qed.

(** *** The steps that upload, attach and reset *)

Lemma track_emit J {T : Track J} {B} x (k : unit -> M B) s :
  J s [x] s ->
  J s (snd (k tt s)) (snd (fst (k tt s))) ->
  J s (snd (bind (emit x) k s)) (snd (fst (bind (emit x) k s))).
Proof. intros H1 H2. rewrite bind_emit. cbn [fst snd]. apply (track_app s [x] s); assumption. Qed.

Lemma track_modify J {T : Track J} {B} f (k : unit -> M B) s :
  J s [] (f s) ->
  J (f s) (snd (k tt (f s))) (snd (fst (k tt (f s)))) ->
  J s (snd (bind (modify f) k s)) (snd (fst (bind (modify f) k s))).
Proof. intros H1 H2. rewrite bind_modify. apply (track_app s [] (f s)); assumption. Qed.

Lemma uploads_known_ui w s : uploads_known s [UI w] s.
Proof. intros known Hk Hc. split; [exact I|]. cbn. rewrite app_nil_r. auto. Qed.

Lemma upload_section_uploads e i : follows uploads_known (upload_section e i).
Proof.
  intros s. unfold upload_section. rewrite bind_gets.
  destruct (file_uploaded s) eqn:Hu; [apply track_nil|].
  apply (track_emit uploads_known); [apply uploads_known_ui|].
  destruct (uploaded_files i) as [|f files] eqn:E; [apply track_nil|].
  destruct (upload_clicked i); [|apply track_nil].
  apply (track_modify uploads_known).
  { intros known Hk Hc. split; [exact I|]. split.
    - cbn. intros x [].
    - unfold upload_complete. cbn. rewrite Hu. discriminate. }
  apply (track_emit uploads_known); [apply uploads_known_ui|].
  apply (track_bind uploads_known).
  - apply (follows_for_each uploads_known). intros file s0.
    unfold try_except, call, bind, emit, modify, logger_info, st_error, lift, ret, raise.
    destruct (files_create e file) as [id|msg]; cbn; intros known Hk Hc.
    + split; [exact I|]. split.
      * intros x Hx. apply in_app_or in Hx as [Hx|Hx]; apply in_or_app; auto.
      * intros _ Hn. apply app_eq_nil in Hn as [_ Hn]. discriminate.
    + split; [exact I|]. rewrite app_nil_r. auto.
  - intros u s1 t1 _. rewrite bind_gets.
    destruct (file_ids s1) as [|id ids] eqn:Ei; [apply track_nil|].
    unfold bind, emit, modify, raise. cbn. intros known Hk Hc.
    split; [exact I|]. cbn. rewrite app_nil_r. split; [exact Hk|].
    intros _. cbn. rewrite Ei. discriminate.
Qed.

Lemma ensure_thread_uploads e s :
  file_uploaded s = true ->
  uploads_known s (snd (ensure_thread e s)) (snd (fst (ensure_thread e s))).
Proof.
  intros Hu. rewrite ensure_thread_run.
  destruct (Py.truthy (thread_id s)); [apply track_nil|].
  unfold thread_creation. destruct (threads_create e) as [id|msg]; cbn [fst snd];
    intros known Hk Hc; cbn; rewrite app_nil_r; auto.
Qed.

Lemma reset_section_uploads e i : follows uploads_known (reset_section e i).
Proof.
  unfold reset_section. destruct (reset_clicked i); [|apply (follows_ret uploads_known)].
  apply (follows_bind uploads_known); [apply (follows_gets uploads_known)|]. intros t.
  apply (follows_bind uploads_known).
  { track; apply uploads_known_of_apart; first [apply delete_thread_apart | footprint]. }
  intros _.
  apply (follows_bind uploads_known); [apply (follows_gets uploads_known)|]. intros uploaded.
  apply (follows_bind uploads_known).
  { track; apply uploads_known_of_apart; first [apply delete_files_apart | footprint]. }
  intros _.
  apply (follows_bind uploads_known); [apply (follows_gets uploads_known)|]. intros created.
  apply (follows_bind uploads_known).
  { track; apply uploads_known_of_apart; first [apply delete_files_apart | footprint]. }
  intros _ s. unfold bind, modify, raise. cbn. intros known Hk Hc.
  split; [exact I|]. split.
  - intros x [].
  - discriminate.
Qed.

Lemma analysis_section_uploads e a i s :
  file_uploaded s = true ->
  uploads_known s (snd (analysis_section e a i s)) (snd (fst (analysis_section e a i s))).
Proof.
  intros Hu. unfold analysis_section.
  apply (track_emit uploads_known); [apply uploads_known_ui|]. rewrite bind_gets.
  apply (track_emit uploads_known); [apply uploads_known_ui|].
  apply (track_bind uploads_known); [apply ensure_thread_uploads, Hu|].
  intros u s1 t1 _.
  apply (follows_bind uploads_known);
    [apply uploads_known_of_apart, display_history_apart|]. intros _.
  apply (follows_bind uploads_known);
    [apply uploads_known_of_apart, question_section_apart|]. intros returned.
  destruct returned; [apply (follows_ret uploads_known) | apply reset_section_uploads].
Qed.

Lemma main_uploads e i : follows uploads_known (main e i).
Proof.
  unfold main.
  apply (follows_bind uploads_known); [apply uploads_known_of_apart; footprint|]. intros _.
  apply (follows_bind uploads_known); [apply uploads_known_of_apart; footprint|]. intros _.
  apply (follows_bind uploads_known);
    [apply uploads_known_of_apart, init_assistant_apart|]. intros a.
  apply (follows_bind uploads_known); [apply upload_section_uploads|]. intros _ s.
  rewrite bind_gets. destruct (file_uploaded s) eqn:Hu.
  - apply analysis_section_uploads, Hu.
  - apply track_nil.
Qed.

Lemma session_uploads runs : forall s,
  uploads_known s (snd (session runs s)) (fst (session runs s)).
Proof.
  induction runs as [|[e i] runs IH]; intros s; cbn [session].
  - apply track_nil.
  - pose proof (main_uploads e i s) as Hm.
    destruct (main e i s) as [[r s1] t1]. cbn [fst snd] in Hm.
    specialize (IH s1). destruct (session runs s1) as [s2 t2]. cbn [fst snd] in *.
    eapply track_app; eassumption.
Qed.

(** X21.  In every session, that is for every sequence of runs of the
    script from the initial state and every behaviour of the remote
    service, each attachment of files to a thread carries at least one file
    identifier, and every identifier it carries was returned by a file
    upload earlier in the session; and whenever the uploaded flag is set
    between runs, the session holds at least one file identifier. *)
Theorem thread_gets_uploaded_files (runs : list (env * inputs)) :
  (forall t1 thread files out t2,
     snd (session runs initial_state) = t1 ++ ThreadsUpdate thread files out :: t2 ->
     files <> []
     /\ forall id, In id files -> exists file, In (FilesCreate file (Returns id)) t1)
  /\ upload_complete (fst (session runs initial_state)).
Proof.
  destruct (session_uploads runs initial_state []) as (Ha & _ & Hc).
  - intros x [].
  - discriminate.
  - split; [|exact Hc]. intros t1 thread files out t2 E. rewrite E in Ha.
    apply attaches_known_files_at in Ha as [Hn Hi]. split; [exact Hn|].
    intros id Hid. apply files_created_In. apply (Hi id Hid).
Qed.

Lemma thread_gets_uploaded_files_witness :
  let runs := [(tooling, upload_sales); (tooling, ask "what sold best?")] in
  In (ThreadsUpdate (Some "thread_1") ["file-in"] (Returns tt))
     (snd (session runs initial_state))
  /\ (forall t1 thread files out t2,
        snd (session runs initial_state) = t1 ++ ThreadsUpdate thread files out :: t2 ->
        files <> []
        /\ forall id, In id files -> exists file, In (FilesCreate file (Returns id)) t1)
  /\ upload_complete (fst (session runs initial_state)).
Proof.
  cbv zeta. split.
  - vm_compute. repeat (first [left; reflexivity | right]).
  - apply (thread_gets_uploaded_files
             [(tooling, upload_sales); (tooling, ask "what sold best?")]).
Defined.
